(** * CSTM columnar format: a shallow embedding of the codec, writer and reader

    The development follows the Python sources module by module:
    [byte_utils.py] (little-endian packing, exact reads),
    [column_serializers.py] (per-type column blocks),
    [header_utils.py] (header encode/decode), [writer.py] ([write_cstm])
    and [reader.py] ([read_cstm]).

    Conventions.
    - Python [int] is [Z]; [bytes] is [list byte]; a Python [str] is the list
      of its Unicode code points, and [str.encode('utf-8')] /
      [bytes.decode('utf-8')] are the strict UTF-8 codec written out below.
    - A Python [float] is represented by its IEEE-754 binary64 bit pattern,
      which is what [struct.pack('<d', x)] lays out in memory.
    - Exceptions are values of [exn]; a function that may raise returns
      [result A].
    - [zlib] and the built-in conversions [int()], [float()], [str()] are not
      part of the repository: they are interfaces ([Zlib], [PyBuiltins]). *)

From Stdlib Require Import String Ascii ZArith List Lia Bool.
From coqutil Require Import Byte Word.LittleEndianList.
Import ListNotations.
Local Open Scope Z_scope.

(** ** Python data *)

Definition bytes : Type := list byte.

(** A Python [str]: its code points. *)
Definition pystr : Type := list Z.

(** A Python [float], by its binary64 bit pattern, a number below [2 ^ 64]. *)
Record float64 : Type := F64 { f64_bits : Z }.

(** The values a column list may hold. *)
Inductive value : Type :=
| VNone
| VInt (z : Z)
| VFloat (f : float64)
| VStr (s : pystr).

(** ** Exceptions *)

(** The fields a header read can stop at. *)
Inductive hfield : Type :=
| FSchemaSignature | FTotalRows | FNumColumns
| FNameLength | FNameBytes | FType | FFlags
| FNumValues | FOffset | FCompSize | FUncompSize.

(** The messages of the [ValueError]s and [RuntimeError]s the sources raise. *)
Inductive message : Type :=
| MsgArgLengths
| MsgColumnLength (i len expected : Z)
| MsgUnknownTypeId (col_type : Z) (name : pystr)
| MsgHeaderLengthChanged
| MsgNameTooLong
| MsgHeaderTooShort (f : hfield)
| MsgHeaderTruncated (f : hfield) (i : Z)
| MsgHeaderTruncatedIn (f : hfield) (name : pystr)
| MsgNullInt32
| MsgNullFloat64
| MsgInt32Range (iv : Z)
| MsgStringTooLarge
| MsgInt32BlockSize (expected got : Z)
| MsgFloat64BlockSize (expected got : Z)
| MsgStringBlockTooSmall (need got : Z)
| MsgLastOffset (last len : Z)
| MsgInvalidOffsets (i : Z)
| MsgBadMagic
| MsgColumnNotFound (name : pystr)
| MsgZlibFailed (name : pystr)
| MsgUncompSize (name : pystr) (expected got : Z)
| MsgUnknownType (typ : Z) (name : pystr)
| MsgDifferingLengths.

Inductive exn : Type :=
| ValueError (m : message)
| RuntimeError (m : message)
| EOFError (expected got : Z)
| StructError
| UnicodeEncodeError
| UnicodeDecodeError
| IndexError
| TypeError.

(** Python's class hierarchy: [UnicodeError] is a subclass of [ValueError]. *)
Definition is_ValueError (e : exn) : bool :=
  match e with
  | ValueError _ | UnicodeEncodeError | UnicodeDecodeError => true
  | _ => false
  end.

Inductive result (A : Type) : Type :=
| Ok (a : A)
| Err (e : exn).
Arguments Ok {A} a.
Arguments Err {A} e.

Definition bind {A B : Type} (r : result A) (k : A -> result B) : result B :=
  match r with
  | Ok a => k a
  | Err e => Err e
  end.

Notation "x <- r ;; k" := (bind r (fun x => k))
  (at level 61, r at next level, right associativity).
Notation "' p <- r ;; k" := (bind r (fun p => k))
  (at level 61, p pattern, r at next level, right associativity).

(** ** External collaborators *)

(** [zlib.compress] / [zlib.decompress]; [None] stands for [zlib.error]. *)
Class Zlib : Type := {
  zlib_compress : bytes -> bytes;
  zlib_decompress : bytes -> option bytes;
  zlib_decompress_compress :
    forall b, zlib_decompress (zlib_compress b) = Some b
}.

(** The built-ins [int(v)], [float(v)] and [str(v)].  Each is the identity on
    a value that already has the target type; nothing else is assumed. *)
Class PyBuiltins : Type := {
  py_int : value -> result Z;
  py_float : value -> result float64;
  py_str : value -> pystr;
  py_int_int : forall z, py_int (VInt z) = Ok z;
  py_float_float : forall f, py_float (VFloat f) = Ok f
}.

(** ** Built-in sequence and file operations *)

(** [len(x)] as a Python int. *)
Definition len {A : Type} (l : list A) : Z := Z.of_nat (length l).

(** [data[lo:hi]] and [data[lo:]] for non-negative bounds; Python clamps a
    slice to the sequence, and so do [firstn] and [skipn]. *)
Definition slice {A : Type} (data : list A) (lo hi : Z) : list A :=
  firstn (Z.to_nat hi - Z.to_nat lo) (skipn (Z.to_nat lo) data).

Definition slice_from {A : Type} (data : list A) (lo : Z) : list A :=
  skipn (Z.to_nat lo) data.

(** [a == b] on sequences. *)
Fixpoint list_eqb {A : Type} (eqb : A -> A -> bool) (a b : list A) : bool :=
  match a, b with
  | [], [] => true
  | x :: a', y :: b' => eqb x y && list_eqb eqb a' b'
  | _, _ => false
  end.

Definition bytes_eqb : bytes -> bytes -> bool := list_eqb Byte.eqb.
Definition pystr_eqb : pystr -> pystr -> bool := list_eqb Z.eqb.

(** An open binary file: its content and the position of the handle.
    [f.read(n)] returns the at most [n] bytes at the position and advances
    (every count read below is a constant or an unsigned field, so never
    negative); [f.write(b)] overwrites from the position on and extends the
    file, zero-filling a gap left by a seek past the end. *)
Record file : Type := File { f_content : bytes; f_pos : nat }.

Definition f_read (f : file) (n : Z) : bytes * file :=
  let data := firstn (Z.to_nat n) (skipn (f_pos f) (f_content f)) in
  (data, File (f_content f) (f_pos f + length data)).

Definition f_write (f : file) (b : bytes) : file :=
  let c := f_content f in
  let p := f_pos f in
  File (firstn p c ++ repeat Byte.x00 (p - length c) ++ b
        ++ skipn (p + length b) c)
       (p + length b).

Definition f_seek (f : file) (off : Z) : file :=
  File (f_content f) (Z.to_nat off).

Definition f_tell (f : file) : Z := Z.of_nat (f_pos f).

(** [io.BytesIO(b).read(n)] on the unread rest of the buffer: the bytes read
    and the rest left. *)
Definition bio_read (buf : bytes) (n : Z) : bytes * bytes :=
  (firstn (Z.to_nat n) buf, skipn (Z.to_nat n) buf).

(** ** byte_utils.py *)

Module byte_utils.

(** [MAGIC = b'CSTM'] *)
Definition MAGIC : bytes := [Byte.x43; Byte.x53; Byte.x54; Byte.x4d].
Definition VERSION : Z := 1.
Definition TYPE_INT32 : Z := 0.
Definition TYPE_FLOAT64 : Z := 1.
Definition TYPE_STRING : Z := 2.
Definition HEADER_PREFIX_LEN : Z := 20.

Definition SIZE_U8 : Z := 1.
Definition SIZE_U16 : Z := 2.
Definition SIZE_U32 : Z := 4.
Definition SIZE_U64 : Z := 8.
Definition SIZE_I32 : Z := 4.
Definition SIZE_F64 : Z := 8.

(** [struct.pack] of an unsigned field of [n] bytes: [struct.error] when the
    argument is out of range. *)
Definition pack_unsigned (n : nat) (x : Z) : result bytes :=
  if (0 <=? x) && (x <? 2 ^ (8 * Z.of_nat n))
  then Ok (le_split n x) else Err StructError.

(** [struct.unpack] of one field of [n] bytes: [struct.error] unless the
    buffer has exactly [n] bytes. *)
Definition unpack_unsigned (n : nat) (b : bytes) : result Z :=
  if Nat.eqb (length b) n then Ok (le_combine b) else Err StructError.

Definition pack_u8 : Z -> result bytes := pack_unsigned 1.
Definition unpack_u8 : bytes -> result Z := unpack_unsigned 1.
Definition pack_u16 : Z -> result bytes := pack_unsigned 2.
Definition unpack_u16 : bytes -> result Z := unpack_unsigned 2.
Definition pack_u32 : Z -> result bytes := pack_unsigned 4.
Definition unpack_u32 : bytes -> result Z := unpack_unsigned 4.
Definition pack_u64 : Z -> result bytes := pack_unsigned 8.
Definition unpack_u64 : bytes -> result Z := unpack_unsigned 8.

Definition pack_i32 (x : Z) : result bytes :=
  if (- 2 ^ 31 <=? x) && (x <? 2 ^ 31)
  then Ok (le_split 4 x) else Err StructError.

Definition unpack_i32 (b : bytes) : result Z :=
  if Nat.eqb (length b) 4
  then let u := le_combine b in Ok (if u <? 2 ^ 31 then u else u - 2 ^ 32)
  else Err StructError.

Definition pack_f64 (x : float64) : result bytes :=
  Ok (le_split 8 (f64_bits x)).

Definition unpack_f64 (b : bytes) : result float64 :=
  if Nat.eqb (length b) 8 then Ok (F64 (le_combine b)) else Err StructError.

(** [read_exact(f, n)]: exactly [n] bytes or [EOFError]. *)
Definition read_exact (f : file) (n : Z) : result (bytes * file) :=
  let '(data, f') := f_read f n in
  if Z.of_nat (length data) =? n then Ok (data, f')
  else Err (EOFError n (Z.of_nat (length data))).

End byte_utils.

(** ** The built-in UTF-8 codec *)

Module utf8.

Definition is_cont (u : Z) : bool := (0x80 <=? u) && (u <? 0xC0).

Definition is_surrogate (c : Z) : bool := (0xD800 <=? c) && (c <=? 0xDFFF).

(** One code point; a lone surrogate is not encodable. *)
Definition encode_cp (c : Z) : result bytes :=
  if c <? 0 then Err UnicodeEncodeError
  else if c <? 0x80 then Ok [byte.of_Z c]
  else if c <? 0x800 then
    Ok [byte.of_Z (0xC0 + c / 64); byte.of_Z (0x80 + c mod 64)]
  else if c <? 0x10000 then
    if is_surrogate c then Err UnicodeEncodeError
    else Ok [byte.of_Z (0xE0 + c / 4096);
             byte.of_Z (0x80 + (c / 64) mod 64);
             byte.of_Z (0x80 + c mod 64)]
  else if c <? 0x110000 then
    Ok [byte.of_Z (0xF0 + c / 262144);
        byte.of_Z (0x80 + (c / 4096) mod 64);
        byte.of_Z (0x80 + (c / 64) mod 64);
        byte.of_Z (0x80 + c mod 64)]
  else Err UnicodeEncodeError.

(** [s.encode('utf-8')] *)
Fixpoint encode (s : pystr) : result bytes :=
  match s with
  | [] => Ok []
  | c :: r => b <- encode_cp c ;; bs <- encode r ;; Ok (b ++ bs)
  end.

(** [b.decode('utf-8')], strict: overlong forms, surrogates, code points
    above U+10FFFF and truncated sequences raise [UnicodeDecodeError]. *)
Fixpoint decode (bs : bytes) : result pystr :=
  match bs with
  | [] => Ok []
  | b0 :: r0 =>
    let u0 := byte.unsigned b0 in
    if u0 <? 0x80 then s <- decode r0 ;; Ok (u0 :: s)
    else if u0 <? 0xC2 then Err UnicodeDecodeError
    else if u0 <? 0xE0 then
      match r0 with
      | b1 :: r1 =>
        let u1 := byte.unsigned b1 in
        if is_cont u1
        then s <- decode r1 ;; Ok ((u0 - 0xC0) * 64 + (u1 - 0x80) :: s)
        else Err UnicodeDecodeError
      | _ => Err UnicodeDecodeError
      end
    else if u0 <? 0xF0 then
      match r0 with
      | b1 :: b2 :: r2 =>
        let u1 := byte.unsigned b1 in
        let u2 := byte.unsigned b2 in
        let c := (u0 - 0xE0) * 4096 + (u1 - 0x80) * 64 + (u2 - 0x80) in
        if is_cont u1 && is_cont u2 && (0x800 <=? c) && negb (is_surrogate c)
        then s <- decode r2 ;; Ok (c :: s)
        else Err UnicodeDecodeError
      | _ => Err UnicodeDecodeError
      end
    else if u0 <? 0xF5 then
      match r0 with
      | b1 :: b2 :: b3 :: r3 =>
        let u1 := byte.unsigned b1 in
        let u2 := byte.unsigned b2 in
        let u3 := byte.unsigned b3 in
        let c := (u0 - 0xF0) * 262144 + (u1 - 0x80) * 4096
                 + (u2 - 0x80) * 64 + (u3 - 0x80) in
        if is_cont u1 && is_cont u2 && is_cont u3
           && (0x10000 <=? c) && (c <? 0x110000)
        then s <- decode r3 ;; Ok (c :: s)
        else Err UnicodeDecodeError
      | _ => Err UnicodeDecodeError
      end
    else Err UnicodeDecodeError
  end.

End utf8.

(** ** column_serializers.py *)

Module column_serializers.
Import byte_utils.

Definition I32_MIN : Z := - 2 ^ 31.
Definition I32_MAX : Z := 2 ^ 31 - 1.
Definition UINT32_MAX : Z := 0xFFFFFFFF.

Section Serializers.
Context {builtins : PyBuiltins}.

(** The loop of [serialize_int32_column]; [buf] is the [BytesIO] so far. *)
Fixpoint serialize_int32_loop (values : list value) (buf : bytes)
  : result bytes :=
  match values with
  | [] => Ok buf
  | v :: rest =>
    match v with
    | VNone => Err (ValueError MsgNullInt32)
    | _ =>
      iv <- py_int v ;;
      if (iv <? I32_MIN) || (iv >? I32_MAX)
      then Err (ValueError (MsgInt32Range iv))
      else b <- pack_i32 iv ;; serialize_int32_loop rest (buf ++ b)
    end
  end.

Definition serialize_int32_column (values : list value) : result bytes :=
  serialize_int32_loop values [].

Fixpoint serialize_float64_loop (values : list value) (buf : bytes)
  : result bytes :=
  match values with
  | [] => Ok buf
  | v :: rest =>
    match v with
    | VNone => Err (ValueError MsgNullFloat64)
    | _ =>
      fv <- py_float v ;;
      b <- pack_f64 fv ;; serialize_float64_loop rest (buf ++ b)
    end
  end.

Definition serialize_float64_column (values : list value) : result bytes :=
  serialize_float64_loop values [].

(** The first loop of [serialize_string_column]: it grows [offsets] and
    [data_parts] and advances [cur]. *)
Fixpoint string_parts (values : list value) (cur : Z) (offsets : list Z)
    (data_parts : list bytes) : result (Z * list Z * list bytes) :=
  match values with
  | [] => Ok (cur, offsets, data_parts)
  | v :: rest =>
    b <- match v with
         | VNone => Ok []
         | VStr s => utf8.encode s
         | _ => utf8.encode (py_str v)
         end ;;
    let cur' := cur + len b in
    string_parts rest cur' (offsets ++ [cur']) (data_parts ++ [b])
  end.

(** [for off in offsets: buf.write(pack_u32(off))] *)
Fixpoint write_offsets (offsets : list Z) (buf : bytes) : result bytes :=
  match offsets with
  | [] => Ok buf
  | off :: rest => b <- pack_u32 off ;; write_offsets rest (buf ++ b)
  end.

(** [for part in data_parts: buf.write(part)] *)
Definition write_parts (data_parts : list bytes) (buf : bytes) : bytes :=
  fold_left (fun acc part => acc ++ part) data_parts buf.

Definition serialize_string_column (values : list value) : result bytes :=
  '(cur, offsets, data_parts) <- string_parts values 0 [0] [] ;;
  let total_data_len := cur in
  if total_data_len >? UINT32_MAX then Err (ValueError MsgStringTooLarge)
  else buf <- write_offsets offsets [] ;; Ok (write_parts data_parts buf).

End Serializers.

(** The loop of [parse_int32_block]: [n] iterations left, [off] the cursor. *)
Fixpoint parse_int32_loop (n : nat) (data : bytes) (off : Z)
    (out : list value) : result (list value) :=
  match n with
  | O => Ok out
  | S n' =>
    val <- unpack_i32 (slice data off (off + SIZE_I32)) ;;
    parse_int32_loop n' data (off + SIZE_I32) (out ++ [VInt val])
  end.

Definition parse_int32_block (data : bytes) (num_values : Z)
  : result (list value) :=
  let expected := num_values * SIZE_I32 in
  if negb (len data =? expected)
  then Err (ValueError (MsgInt32BlockSize expected (len data)))
  else parse_int32_loop (Z.to_nat num_values) data 0 [].

Fixpoint parse_float64_loop (n : nat) (data : bytes) (off : Z)
    (out : list value) : result (list value) :=
  match n with
  | O => Ok out
  | S n' =>
    val <- unpack_f64 (slice data off (off + SIZE_F64)) ;;
    parse_float64_loop n' data (off + SIZE_F64) (out ++ [VFloat val])
  end.

Definition parse_float64_block (data : bytes) (num_values : Z)
  : result (list value) :=
  let expected := num_values * SIZE_F64 in
  if negb (len data =? expected)
  then Err (ValueError (MsgFloat64BlockSize expected (len data)))
  else parse_float64_loop (Z.to_nat num_values) data 0 [].

(** Reading the offsets table of [parse_string_block]. *)
Fixpoint read_offsets (n : nat) (data : bytes) (off : Z) (offsets : list Z)
  : result (list Z) :=
  match n with
  | O => Ok offsets
  | S n' =>
    o <- unpack_u32 (slice data off (off + SIZE_U32)) ;;
    read_offsets n' data (off + SIZE_U32) (offsets ++ [o])
  end.

(** The string loop of [parse_string_block], from index [i], [n] iterations
    left.  [offsets] has [num_values + 1] entries, so both indexings are in
    range. *)
Fixpoint parse_strings (n : nat) (i : Z) (offsets : list Z)
    (data_section : bytes) (out : list value) : result (list value) :=
  match n with
  | O => Ok out
  | S n' =>
    let s_off := nth (Z.to_nat i) offsets 0 in
    let s_end := nth (Z.to_nat (i + 1)) offsets 0 in
    if s_off >? s_end then Err (ValueError (MsgInvalidOffsets i))
    else
      s <- utf8.decode (slice data_section s_off s_end) ;;
      parse_strings n' (i + 1) offsets data_section (out ++ [VStr s])
  end.

(** [range(k)] is empty for a negative [k] ([Z.to_nat]), and [offsets[-1]] of
    an empty list raises [IndexError]. *)
Definition parse_string_block (data : bytes) (num_values : Z)
  : result (list value) :=
  let offsets_byte_len := (num_values + 1) * SIZE_U32 in
  if len data <? offsets_byte_len
  then Err (ValueError (MsgStringBlockTooSmall offsets_byte_len (len data)))
  else
    offsets <- read_offsets (Z.to_nat (num_values + 1)) data 0 [] ;;
    let data_section := slice_from data offsets_byte_len in
    match rev offsets with
    | [] => Err IndexError
    | last_off :: _ =>
      if last_off >? len data_section
      then Err (ValueError (MsgLastOffset last_off (len data_section)))
      else parse_strings (Z.to_nat num_values) 0 offsets data_section []
    end.

End column_serializers.

(** ** header_utils.py *)

Module header_utils.
Import byte_utils.

(** A column entry: the dict with keys [name], [type], [flags],
    [num_values], [offset], [comp_size], [uncomp_size]. *)
Record column_entry : Type := Entry {
  col_name : pystr;
  col_type : Z;
  col_flags : Z;
  col_num_values : Z;
  col_offset : Z;
  col_comp_size : Z;
  col_uncomp_size : Z
}.

(** The per-column loop of [build_header]; [buf] is the [BytesIO] so far. *)
Fixpoint build_entries (column_entries : list column_entry) (buf : bytes)
  : result bytes :=
  match column_entries with
  | [] => Ok buf
  | entry :: rest =>
    name_b <- utf8.encode (col_name entry) ;;
    let name_len := len name_b in
    if name_len >=? 2 ^ 16 then Err (ValueError MsgNameTooLong)
    else
      b_len <- pack_u16 name_len ;;
      b_type <- pack_u8 (col_type entry) ;;
      b_flags <- pack_u8 (col_flags entry) ;;
      b_num <- pack_u64 (col_num_values entry) ;;
      b_off <- pack_u64 (col_offset entry) ;;
      b_comp <- pack_u64 (col_comp_size entry) ;;
      b_uncomp <- pack_u64 (col_uncomp_size entry) ;;
      build_entries rest
        (buf ++ b_len ++ name_b ++ b_type ++ b_flags ++ b_num ++ b_off
             ++ b_comp ++ b_uncomp)
  end.

Definition build_header (schema_signature total_rows : Z)
    (column_entries : list column_entry) : result bytes :=
  b_sig <- pack_u32 (Z.land schema_signature 0xFFFFFFFF) ;;
  b_rows <- pack_u64 total_rows ;;
  let num_columns := len column_entries in
  b_cols <- pack_u32 num_columns ;;
  build_entries column_entries (b_sig ++ b_rows ++ b_cols).

(** One fixed-width field of a column: read, check, unpack. *)
Definition read_field (buf : bytes) (size : Z) (unpack : bytes -> result Z)
    (m : message) : result (Z * bytes) :=
  let '(raw, buf) := bio_read buf size in
  if len raw <? size then Err (ValueError m)
  else v <- unpack raw ;; Ok (v, buf).

(** The per-column loop of [parse_header]: [n] columns left, [i] the index,
    [buf] the unread rest of the header. *)
Fixpoint parse_columns (n : nat) (i : Z) (buf : bytes)
    (columns : list column_entry) : result (list column_entry) :=
  match n with
  | O => Ok columns
  | S n' =>
    '(name_len, buf) <-
      read_field buf SIZE_U16 unpack_u16 (MsgHeaderTruncated FNameLength i) ;;
    let '(name_b, buf) := bio_read buf name_len in
    if len name_b <? name_len
    then Err (ValueError (MsgHeaderTruncated FNameBytes i))
    else
      name <- utf8.decode name_b ;;
      '(type_id, buf) <-
        read_field buf SIZE_U8 unpack_u8 (MsgHeaderTruncatedIn FType name) ;;
      '(flags, buf) <-
        read_field buf SIZE_U8 unpack_u8 (MsgHeaderTruncatedIn FFlags name) ;;
      '(num_values, buf) <-
        read_field buf SIZE_U64 unpack_u64
                   (MsgHeaderTruncatedIn FNumValues name) ;;
      '(offset, buf) <-
        read_field buf SIZE_U64 unpack_u64
                   (MsgHeaderTruncatedIn FOffset name) ;;
      '(comp_size, buf) <-
        read_field buf SIZE_U64 unpack_u64
                   (MsgHeaderTruncatedIn FCompSize name) ;;
      '(uncomp_size, buf) <-
        read_field buf SIZE_U64 unpack_u64
                   (MsgHeaderTruncatedIn FUncompSize name) ;;
      parse_columns n' (i + 1) buf
        (columns ++ [Entry name type_id flags num_values offset comp_size
                           uncomp_size])
  end.

Definition parse_header (header_bytes : bytes)
  : result (Z * Z * list column_entry) :=
  let buf := header_bytes in
  '(schema_sig, buf) <-
    read_field buf SIZE_U32 unpack_u32 (MsgHeaderTooShort FSchemaSignature) ;;
  '(total_rows, buf) <-
    read_field buf SIZE_U64 unpack_u64 (MsgHeaderTooShort FTotalRows) ;;
  '(num_columns, buf) <-
    read_field buf SIZE_U32 unpack_u32 (MsgHeaderTooShort FNumColumns) ;;
  columns <- parse_columns (Z.to_nat num_columns) 0 buf [] ;;
  Ok (schema_sig, total_rows, columns).

End header_utils.

(** ** writer.py *)

Module writer.
Import byte_utils header_utils column_serializers.

Section Writer.
Context {zlib : Zlib} {builtins : PyBuiltins}.

(** The dispatch table [_SERIALIZERS], by [.get(col_type)]. *)
Definition _SERIALIZERS (col_type : Z)
  : option (list value -> result bytes) :=
  if col_type =? 0 then Some serialize_int32_column
  else if col_type =? 1 then Some serialize_float64_column
  else if col_type =? 2 then Some serialize_string_column
  else None.

(** [for i, col in enumerate(columns): if len(col) != total_rows: raise] *)
Fixpoint check_column_lengths (columns : list (list value)) (i : Z)
    (total_rows : Z) : result unit :=
  match columns with
  | [] => Ok tt
  | col :: rest =>
    if negb (len col =? total_rows)
    then Err (ValueError (MsgColumnLength i (len col) total_rows))
    else check_column_lengths rest (i + 1) total_rows
  end.

(** The placeholder entries, one per element of
    [zip(column_names, column_types, columns)]. *)
Fixpoint make_entries (column_names : list pystr) (column_types : list Z)
    (columns : list (list value)) : list column_entry :=
  match column_names, column_types, columns with
  | name :: ns, t :: ts, col :: cs =>
    Entry name t 0 (len col) 0 0 0 :: make_entries ns ts cs
  | _, _, _ => []
  end.

(** The block loop.  It returns the file as the loop left it, and the entries
    with [offset], [comp_size] and [uncomp_size] filled in, or the exception
    that stopped it. *)
Fixpoint write_blocks (column_entries : list column_entry) (idx : nat)
    (columns : list (list value)) (f : file)
  : file * result (list column_entry) :=
  match column_entries with
  | [] => (f, Ok [])
  | entry :: rest =>
    match _SERIALIZERS (col_type entry) with
    | None =>
      (f, Err (ValueError (MsgUnknownTypeId (col_type entry) (col_name entry))))
    | Some serializer =>
      match nth_error columns idx with
      | None => (f, Err IndexError)
      | Some col =>
        match serializer col with
        | Err e => (f, Err e)
        | Ok uncompressed =>
          let uncomp_size := len uncompressed in
          let compressed := zlib_compress uncompressed in
          let comp_size := len compressed in
          let block_offset := f_tell f in
          let f := f_write f compressed in
          let entry' :=
            Entry (col_name entry) (col_type entry) (col_flags entry)
                  (col_num_values entry) block_offset comp_size uncomp_size in
          let '(f, r) := write_blocks rest (S idx) columns f in
          (f, match r with
              | Ok rest' => Ok (entry' :: rest')
              | Err e => Err e
              end)
        end
      end
    end
  end.

(** [write_cstm].  [fs] is the state of [out_path] before the call: [None]
    when no such file exists, [Some c] when it holds [c].  The result is the
    state after the call and the outcome.  [open(out_path, 'wb')] is taken to
    succeed; it truncates. *)
Definition write_cstm (fs : option bytes) (column_names : list pystr)
    (column_types : list Z) (columns : list (list value))
    (schema_signature : Z) : option bytes * result unit :=
  if negb (Nat.eqb (length column_names) (length column_types)
           && Nat.eqb (length column_types) (length columns))
  then (fs, Err (ValueError MsgArgLengths))
  else
    let num_columns := len column_names in
    let validated :=
      if num_columns >? 0
      then
        let total_rows := len (nth 0 columns []) in
        _ <- check_column_lengths columns 0 total_rows ;; Ok total_rows
      else Ok 0 in
    match validated with
    | Err e => (fs, Err e)
    | Ok total_rows =>
      let column_entries := make_entries column_names column_types columns in
      match build_header schema_signature total_rows column_entries with
      | Err e => (fs, Err e)
      | Ok initial_header =>
        let header_len := len initial_header in
        let f := File [] 0 in
        let f := f_write f MAGIC in
        let f := f_write f [byte.of_Z VERSION] in
        let f := f_write f (repeat Byte.x00 7) in
        match pack_u64 header_len with
        | Err e => (Some (f_content f), Err e)
        | Ok b_len =>
          let f := f_write f b_len in
          let f := f_write f initial_header in
          match write_blocks column_entries 0 columns f with
          | (f, Err e) => (Some (f_content f), Err e)
          | (f, Ok final_entries) =>
            match build_header schema_signature total_rows final_entries with
            | Err e => (Some (f_content f), Err e)
            | Ok final_header =>
              if negb (len final_header =? header_len)
              then (Some (f_content f), Err (RuntimeError MsgHeaderLengthChanged))
              else
                let f := f_seek f HEADER_PREFIX_LEN in
                let f := f_write f final_header in
                (Some (f_content f), Ok tt)
            end
          end
        end
      end
    end.

End Writer.
End writer.

(** ** reader.py *)

Module reader.
Import byte_utils header_utils column_serializers.

(** A [dict] keyed by [str]: assignment replaces the value of a key that is
    present and appends a new key otherwise. *)
Fixpoint dict_set {V : Type} (d : list (pystr * V)) (k : pystr) (v : V)
  : list (pystr * V) :=
  match d with
  | [] => [(k, v)]
  | (k', v') :: d' =>
    if pystr_eqb k' k then (k', v) :: d' else (k', v') :: dict_set d' k v
  end.

Fixpoint dict_get {V : Type} (d : list (pystr * V)) (k : pystr) : option V :=
  match d with
  | [] => None
  | (k', v') :: d' => if pystr_eqb k' k then Some v' else dict_get d' k
  end.

Section Reader.
Context {zlib : Zlib}.

(** The dispatch table [_PARSERS]. *)
Definition _PARSERS (typ : Z) : option (bytes -> Z -> result (list value)) :=
  if typ =? 0 then Some parse_int32_block
  else if typ =? 1 then Some parse_float64_block
  else if typ =? 2 then Some parse_string_block
  else None.

(** [read_cstm] up to and including [parse_header]: the handle after the
    header, and the parsed header. *)
Definition read_prefix_and_header (content : bytes)
  : result (file * (Z * Z * list column_entry)) :=
  let f := File content 0 in
  '(magic, f) <- read_exact f 4 ;;
  if negb (bytes_eqb magic MAGIC) then Err (RuntimeError MsgBadMagic)
  else
    '(ver_b, f) <- read_exact f 1 ;;
    '(_, f) <- read_exact f 7 ;;
    '(header_len_bytes, f) <- read_exact f 8 ;;
    header_len <- unpack_u64 header_len_bytes ;;
    '(header_bytes, f) <- read_exact f header_len ;;
    parsed <- parse_header header_bytes ;;
    Ok (f, parsed).

(** [{col['name']: col for col in columns_meta}] *)
Definition name_to_meta (columns_meta : list column_entry)
  : list (pystr * column_entry) :=
  fold_left (fun d col => dict_set d (col_name col) col) columns_meta [].

(** The selection loop. *)
Fixpoint select_loop (select_columns : list pystr)
    (d : list (pystr * column_entry)) (selected_meta : list column_entry)
  : result (list column_entry) :=
  match select_columns with
  | [] => Ok selected_meta
  | name :: rest =>
    match dict_get d name with
    | None => Err (ValueError (MsgColumnNotFound name))
    | Some col => select_loop rest d (selected_meta ++ [col])
    end
  end.

(** The block loop: seek, read, decompress, check, parse. *)
Fixpoint read_columns (selected_meta : list column_entry) (f : file)
    (results_columns : list (pystr * list value))
  : result (list (pystr * list value)) :=
  match selected_meta with
  | [] => Ok results_columns
  | col :: rest =>
    let name := col_name col in
    let typ := col_type col in
    let num_values := col_num_values col in
    let offset := col_offset col in
    let comp_size := col_comp_size col in
    let uncomp_size := col_uncomp_size col in
    if (comp_size =? 0) && (uncomp_size =? 0)
    then read_columns rest f (results_columns ++ [(name, [])])
    else
      let f := f_seek f offset in
      '(comp_bytes, f) <- read_exact f comp_size ;;
      match zlib_decompress comp_bytes with
      | None => Err (RuntimeError (MsgZlibFailed name))
      | Some uncompressed =>
        if negb (len uncompressed =? uncomp_size)
        then Err (RuntimeError
                    (MsgUncompSize name uncomp_size (len uncompressed)))
        else
          match _PARSERS typ with
          | None => Err (ValueError (MsgUnknownType typ name))
          | Some parser =>
            parsed_values <- parser uncompressed num_values ;;
            read_columns rest f (results_columns ++ [(name, parsed_values)])
          end
      end
  end.

(** [for arr in cols_data: if len(arr) != expected_len: raise] *)
Fixpoint check_lengths (cols_data : list (list value)) (expected_len : Z)
  : result unit :=
  match cols_data with
  | [] => Ok tt
  | arr :: rest =>
    if negb (len arr =? expected_len)
    then Err (RuntimeError MsgDifferingLengths)
    else check_lengths rest expected_len
  end.

(** The rows: [[arr[i] for arr in cols_data] for i in range(expected_len)].
    Every [arr] has [expected_len] elements when this runs, so [arr[i]] is in
    range and the default of [nth] is never taken. *)
Definition build_rows (cols_data : list (list value)) (expected_len : nat)
  : list (list value) :=
  map (fun i => map (fun arr => nth i arr VNone) cols_data)
      (seq 0 expected_len).

(** [read_cstm(path, select_columns)] on a file holding [content]. *)
Definition read_cstm (content : bytes) (select_columns : option (list pystr))
  : result (list pystr * list (list value)) :=
  '(f, (schema_sig, total_rows, columns_meta)) <-
    read_prefix_and_header content ;;
  let d := name_to_meta columns_meta in
  selected_meta <-
    match select_columns with
    | None => Ok columns_meta
    | Some names => select_loop names d []
    end ;;
  results_columns <- read_columns selected_meta f [] ;;
  if Nat.eqb (length results_columns) 0 then Ok ([], [])
  else
    let col_names := map fst results_columns in
    let cols_data := map snd results_columns in
    let expected_len := length (nth 0 cols_data []) in
    _ <- check_lengths cols_data (Z.of_nat expected_len) ;;
    Ok (col_names, build_rows cols_data expected_len).

End Reader.
End reader.

(** ** Concrete collaborators, to run the model *)

Module concrete.

(** A stand-in for zlib that stores the data behind a two-byte stream header
    ([78 01], the header of a zlib stream); it satisfies the one law the
    development assumes of zlib. *)
Definition stored_compress (b : bytes) : bytes := Byte.x78 :: Byte.x01 :: b.

Definition stored_decompress (b : bytes) : option bytes :=
  match b with
  | Byte.x78 :: Byte.x01 :: r => Some r
  | _ => None
  end.

#[local] Instance stored_zlib : Zlib := {
  zlib_compress := stored_compress;
  zlib_decompress := stored_decompress;
  zlib_decompress_compress := fun b => eq_refl
}.

(** The conversions on values that already have the target type; any other
    conversion is left out ([TypeError], an empty [str]). *)
#[local] Instance same_type_builtins : PyBuiltins := {
  py_int := fun v => match v with VInt z => Ok z | _ => Err TypeError end;
  py_float := fun v => match v with VFloat f => Ok f | _ => Err TypeError end;
  py_str := fun _ => [];
  py_int_int := fun z => eq_refl;
  py_float_float := fun f => eq_refl
}.

(** An ASCII literal as a [str]. *)
Fixpoint str (s : string) : pystr :=
  match s with
  | EmptyString => []
  | String a r => Z.of_N (N_of_ascii a) :: str r
  end.

(** The example table of the specification: [id], [age] (INT32) and [name]
    (STRING), three rows. *)
Definition example_names : list pystr := [str "id"; str "age"; str "name"].
Definition example_types : list Z := [0; 0; 2].
Definition example_columns : list (list value) :=
  [[VInt 1; VInt 2; VInt 3];
   [VInt 30; VInt 25; VInt 22];
   [VStr (str "Alice"); VStr (str "Bob"); VStr (str "Chandra")]].
Definition example_rows : list (list value) :=
  [[VInt 1; VInt 30; VStr (str "Alice")];
   [VInt 2; VInt 25; VStr (str "Bob")];
   [VInt 3; VInt 22; VStr (str "Chandra")]].

(** The content of the file a successful [write_cstm] leaves, and the empty
    content when the call fails. *)
Definition written (names : list pystr) (types : list Z)
    (columns : list (list value)) : bytes :=
  match writer.write_cstm None names types columns 0 with
  | (Some content, Ok _) => content
  | _ => []
  end.

Definition example_file : bytes :=
  Eval vm_compute in written example_names example_types example_columns.

(** A file with one STRING column [s] and no rows. *)
Definition empty_string_file : bytes :=
  Eval vm_compute in written [str "s"] [2] [[]].

(** A file with two INT32 columns, both named [a], and one row. *)
Definition twin_file : bytes :=
  Eval vm_compute in written [str "a"; str "a"] [0; 0] [[VInt 1]; [VInt 2]].

(** The column entries in the header of [example_file]. *)
Definition example_header : list header_utils.column_entry :=
  [header_utils.Entry (str "id") 0 0 3 153 14 12;
   header_utils.Entry (str "age") 0 0 3 167 14 12;
   header_utils.Entry (str "name") 2 0 3 181 33 31].

End concrete.

(** ** Vocabulary of the properties *)

Section Vocabulary.
Context {builtins : PyBuiltins}.

(** A value fit for a column of type [t]: an [int] in the signed 32-bit range
    for INT32, a [float] for FLOAT64, a [str] for STRING. *)
Definition valid_value (t : Z) (v : value) : bool :=
  match v with
  | VNone => false
  | VInt z =>
    (t =? byte_utils.TYPE_INT32)
    && (column_serializers.I32_MIN <=? z) && (z <=? column_serializers.I32_MAX)
  | VFloat f =>
    (t =? byte_utils.TYPE_FLOAT64)
    && (0 <=? f64_bits f) && (f64_bits f <? 2 ^ 64)
  | VStr _ => t =? byte_utils.TYPE_STRING
  end.

Definition valid_column (t : Z) (col : list value) : bool :=
  forallb (valid_value t) col.

(** What is read back for a value [v] written in a column of type [t]: the
    serializers convert with [int()], [float()] and [str()], and write [None]
    in a STRING column as the empty string. *)
Definition stored_value (t : Z) (v : value) : result value :=
  if t =? 0 then z <- py_int v ;; Ok (VInt z)
  else if t =? 1 then
    f <- py_float v ;; Ok (VFloat (F64 (f64_bits f mod 2 ^ 64)))
  else Ok (VStr match v with
                | VNone => []
                | VStr s => s
                | _ => py_str v
                end).

(** The row-major transpose of column-major data: row [i] holds element [i]
    of every column, and there are as many rows as the first column has
    elements. *)
Definition transpose (columns : list (list value)) : list (list value) :=
  match columns with
  | [] => []
  | c0 :: _ =>
    map (fun i => map (fun c => nth i c VNone) columns) (seq 0 (length c0))
  end.

(** The running totals [cur + len p1], [cur + len p1 + len p2], ... *)
Fixpoint cumulative (cur : Z) (parts : list bytes) : list Z :=
  match parts with
  | [] => []
  | p :: ps => (cur + len p) :: cumulative (cur + len p) ps
  end.

End Vocabulary.

(** ** Vocabulary for written files *)

Section WrittenFiles.
Context {zlib : Zlib} {builtins : PyBuiltins}.
Import header_utils.

(** The handle is at the end of the file. *)
Definition at_end (f : file) : Prop := f_pos f = length (f_content f).

(** The compressed form of [unc] lies in [content] where the entry [e] says,
    and [e] records both of its sizes. *)
Definition block_at (content : bytes) (e : column_entry) (unc : bytes)
  : Prop :=
  exists pre post,
    content = pre ++ zlib_compress unc ++ post
    /\ col_offset e = len pre
    /\ col_comp_size e = len (zlib_compress unc)
    /\ col_uncomp_size e = len unc.

(** The entry [e] describes the block the writer made of the column [col]. *)
Definition stored_block (content : bytes) (col : list value)
    (e : column_entry) : Prop :=
  exists ser unc,
    writer._SERIALIZERS (col_type e) = Some ser
    /\ ser col = Ok unc
    /\ block_at content e unc.

(** The block of [e] parses to [col']. *)
Definition readable (content : bytes) (e : column_entry)
    (col' : list value) : Prop :=
  exists unc parser,
    block_at content e unc
    /\ reader._PARSERS (col_type e) = Some parser
    /\ parser unc (col_num_values e) = Ok col'.

End WrittenFiles.

(** Three lists related element by element. *)
Inductive Forall3 {A B C : Type} (R : A -> B -> C -> Prop)
  : list A -> list B -> list C -> Prop :=
| Forall3_nil : Forall3 R [] [] []
| Forall3_cons x y z l l' l'' :
    R x y z -> Forall3 R l l' l'' ->
    Forall3 R (x :: l) (y :: l') (z :: l'').

(** The position of the last occurrence of [n] in [names]. *)
Fixpoint last_index (n : pystr) (names : list pystr) : option nat :=
  match names with
  | [] => None
  | x :: r =>
    match last_index n r with
    | Some i => Some (S i)
    | None => if pystr_eqb x n then Some 0%nat else None
    end
  end.

(** The position of the first occurrence of [n] in [names]. *)
Fixpoint first_index (n : pystr) (names : list pystr) : option nat :=
  match names with
  | [] => None
  | x :: r =>
    if pystr_eqb x n then Some 0%nat
    else option_map S (first_index n r)
  end.

(** A row of the full table cut down to the columns at the given
    positions. *)
Definition pick_columns (positions : list (option nat)) (row : list value)
  : list value :=
  map (fun p => match p with
                | Some i => nth i row VNone
                | None => VNone
                end) positions.

(** Two entries with the same name, type and element count: they differ at
    most in [flags], [offset], [comp_size] and [uncomp_size]. *)
Definition same_schema (e1 e2 : header_utils.column_entry) : Prop :=
  header_utils.col_name e1 = header_utils.col_name e2
  /\ header_utils.col_type e1 = header_utils.col_type e2
  /\ header_utils.col_num_values e1 = header_utils.col_num_values e2.

(** The signed little-endian 32-bit integer at bytes [4i .. 4i+4) of a
    block. *)
Definition int32_at (data : bytes) (i : nat) : Z :=
  let u := le_combine (slice data (4 * Z.of_nat i) (4 * Z.of_nat i + 4)) in
  if u <? 2 ^ 31 then u else u - 2 ^ 32.

(** A signed 32-bit integer value. *)
Definition is_int32 (v : value) : Prop :=
  exists z, v = VInt z /\ - 2 ^ 31 <= z < 2 ^ 31.

(** The offsets table of a STRING block of [num_values] strings: entry [i]
    is the unsigned little-endian value of bytes [4i .. 4i+4). *)
Definition offsets_table (data : bytes) (num_values : Z) : list Z :=
  map (fun i => le_combine (slice data (4 * Z.of_nat i) (4 * Z.of_nat i + 4)))
      (seq 0 (Z.to_nat (num_values + 1))).

(** What follows the offsets table. *)
Definition data_section (data : bytes) (num_values : Z) : bytes :=
  slice_from data ((num_values + 1) * 4).

(** The [count] byte ranges of [section] delimited by consecutive offsets,
    from offset [from] on. *)
Definition string_slices (offsets : list Z) (section : bytes)
    (from count : nat) : list bytes :=
  map (fun i => slice section (nth i offsets 0) (nth (S i) offsets 0))
      (seq from count).

(** The block of a zero-row column of type [t] before compression: one zero
    offset for STRING, nothing for the numeric types. *)
Definition empty_block (t : Z) : bytes :=
  if t =? byte_utils.TYPE_STRING
  then [Byte.x00; Byte.x00; Byte.x00; Byte.x00] else [].

(** ** byte_utils.py, the length-prefixed helpers *)

Module length_prefixed.
Import byte_utils.

(** How [unpack_length_prefixed_bytes] can end other than by returning:
    its own [ValueError("Buffer too small for length prefix")], or an
    exception of [unpack_u32]. *)
Inductive prefix_error : Type :=
| BufferTooSmall
| PrefixRaised (e : exn).

(** [pack_u32(len(b)) + b] *)
Definition pack_length_prefixed_bytes (b : bytes) : result bytes :=
  p <- pack_u32 (len b) ;; Ok (p ++ b).

(** [L = unpack_u32(b[:4]); payload = b[4:4+L]]; the payload is not checked
    against [L]. *)
Definition unpack_length_prefixed_bytes (b : bytes)
  : Z * bytes + prefix_error :=
  if len b <? 4 then inr BufferTooSmall
  else
    match unpack_u32 (slice b 0 4) with
    | Err e => inr (PrefixRaised e)
    | Ok L => inl (L, slice b 4 (4 + L))
    end.

End length_prefixed.

(** ** Vocabulary of the further properties *)

Section ColumnVocabulary.
Context {builtins : PyBuiltins}.

(** The text [serialize_string_column] encodes for a value: nothing for
    [None], the string itself, [str(v)] for anything else. *)
Definition string_text (v : value) : pystr :=
  match v with
  | VNone => []
  | VStr s => s
  | _ => py_str v
  end.

(** The float whose bit pattern is at bytes [8i .. 8i+8) of a block. *)
Definition float64_at (data : bytes) (i : nat) : float64 :=
  F64 (le_combine (slice data (8 * Z.of_nat i) (8 * Z.of_nat i + 8))).

End ColumnVocabulary.

(** The numeric fields of an entry fit their widths in the header: one byte
    for [type] and [flags], eight for the others. *)
Definition entry_fits (e : header_utils.column_entry) : Prop :=
  0 <= header_utils.col_type e < 2 ^ 8
  /\ 0 <= header_utils.col_flags e < 2 ^ 8
  /\ 0 <= header_utils.col_num_values e < 2 ^ 64
  /\ 0 <= header_utils.col_offset e < 2 ^ 64
  /\ 0 <= header_utils.col_comp_size e < 2 ^ 64
  /\ 0 <= header_utils.col_uncomp_size e < 2 ^ 64.

(** A header that can be encoded: a row count of 64 bits, fewer than [2^32]
    columns, each with a name whose UTF-8 form is shorter than 65536 bytes
    and with fields that fit. *)
Definition header_encodable (total_rows : Z)
    (es : list header_utils.column_entry) : Prop :=
  0 <= total_rows < 2 ^ 64
  /\ len es < 2 ^ 32
  /\ Forall (fun e =>
               (exists nb, utf8.encode (header_utils.col_name e) = Ok nb
                           /\ len nb < 2 ^ 16)
               /\ entry_fits e) es.

(** The blocks of the entries [es] lie one after the other from [start] to
    [stop]: each offset is where the previous block ends. *)
Fixpoint blocks_contiguous (start : Z) (es : list header_utils.column_entry)
    (stop : Z) : Prop :=
  match es with
  | [] => start = stop
  | e :: r =>
    header_utils.col_offset e = start
    /\ 0 <= header_utils.col_comp_size e
    /\ blocks_contiguous (start + header_utils.col_comp_size e) r stop
  end.

(** ** Vocabulary for the outcome of a write *)

Section WriteOutcomes.
Context {builtins : PyBuiltins}.

(** What a column serializer can raise: a [ValueError], a [struct.error], or
    the exception of a conversion [int(v)] or [float(v)]. *)
Definition raised_by_codec (e : exn) : Prop :=
  is_ValueError e = true \/ e = StructError
  \/ (exists v, py_int v = Err e) \/ (exists v, py_float v = Err e).

End WriteOutcomes.

(** ** Vocabulary for what the reader looks at *)

(** The bytes [f.seek(offset); f.read(comp_size)] returns for the entry [e]
    on a file holding [content]. *)
Definition block_bytes (content : bytes) (e : header_utils.column_entry)
  : bytes :=
  firstn (Z.to_nat (header_utils.col_comp_size e))
         (skipn (Z.to_nat (header_utils.col_offset e)) content).

(** ** custom_columnar.py *)

Module custom_columnar.
Import byte_utils writer.

(** How [csv_to_custom_cli] ends: by returning, with its own
    [ValueError("CSV row has {len(r)} columns but header has {ncols}")], or
    with the exception [write_cstm] raised. *)
Inductive cli_outcome : Type :=
| Done
| CsvRowLength (got ncols : Z)
| Raised (e : exn).

Section Cli.
Context {zlib : Zlib} {builtins : PyBuiltins}.

(** One [try] block of [infer_type_for_col]:
    [for v in col_values: if v == '': raise ValueError; conv(v)],
    [true] when the loop ends without an exception. *)
Fixpoint all_convert {A : Type} (conv : value -> result A)
    (col_values : list pystr) : bool :=
  match col_values with
  | [] => true
  | v :: rest =>
    if pystr_eqb v [] then false
    else
      match conv (VStr v) with
      | Ok _ => all_convert conv rest
      | Err _ => false
      end
  end.

Definition infer_type_for_col (col_values : list pystr) : Z :=
  if len col_values =? 0 then TYPE_STRING
  else if all_convert py_int col_values then TYPE_INT32
  else if all_convert py_float col_values then TYPE_FLOAT64
  else TYPE_STRING.

(** [for r in rows: if len(r) != ncols: raise ValueError(...)]: the two
    numbers of the message, or [None] when the loop ends. *)
Fixpoint check_rows (rows : list (list pystr)) (ncols : Z)
  : option (Z * Z) :=
  match rows with
  | [] => None
  | r :: rest =>
    if negb (len r =? ncols) then Some (len r, ncols)
    else check_rows rest ncols
  end.

(** [[[row[i] for row in rows] for i in range(len(header))]]; every row has
    [len(header)] cells when this runs, so the default of [nth] is never
    taken. *)
Definition columns_of (rows : list (list pystr)) (ncols : nat)
  : list (list pystr) :=
  map (fun i => map (fun row => nth i row []) rows) (seq 0 ncols).

(** [csv_to_custom_cli(in_csv, out_cstm)], from the records [csv.reader]
    yields for [in_csv] (none for an empty file) and the state [fs] of
    [out_cstm].  The cells are the strings of the CSV; the final [print] is
    left out. *)
Definition csv_to_custom_cli (records : list (list pystr))
    (fs : option bytes) : option bytes * cli_outcome :=
  let '(header, rows) :=
    match records with
    | [] => ([], [])
    | h :: r => (h, r)
    end in
  let laid_out :=
    if negb (Nat.eqb (length header) 0) && negb (Nat.eqb (length rows) 0)
    then
      let ncols := len header in
      match check_rows rows ncols with
      | Some bad => inl bad
      | None => inr (columns_of rows (length header))
      end
    else inr (map (fun _ => []) header) in
  match laid_out with
  | inl (got, ncols) => (fs, CsvRowLength got ncols)
  | inr columns =>
    let column_names := header in
    let column_types := map infer_type_for_col columns in
    match write_cstm fs column_names column_types (map (map VStr) columns) 0
    with
    | (fs', Ok _) => (fs', Done)
    | (fs', Err e) => (fs', Raised e)
    end
  end.

End Cli.
End custom_columnar.

(** A stand-in for [int()] on text, to run the command line on a CSV with
    numbers: a non-empty string of ASCII digits is the decimal number it
    writes.  As in [same_type_builtins] every other conversion is left out
    ([TypeError], an empty [str]). *)
Module decimal.

Fixpoint digits_value (s : pystr) (acc : Z) : option Z :=
  match s with
  | [] => Some acc
  | c :: r =>
    if (48 <=? c) && (c <=? 57) then digits_value r (10 * acc + (c - 48))
    else None
  end.

#[local] Instance decimal_builtins : PyBuiltins := {
  py_int := fun v =>
    match v with
    | VInt z => Ok z
    | VStr (c :: r) =>
      match digits_value (c :: r) 0 with
      | Some z => Ok z
      | None => Err TypeError
      end
    | _ => Err TypeError
    end;
  py_float := fun v => match v with VFloat f => Ok f | _ => Err TypeError end;
  py_str := fun _ => [];
  py_int_int := fun z => eq_refl;
  py_float_float := fun f => eq_refl
}.

End decimal.

(** * Properties *)

(** ** Sequences, slices and the result monad *)

Ltac inv H := inversion H; subst; clear H.

Lemma Ok_inj {A : Type} (a b : A) : Ok a = Ok b -> a = b.
Proof. congruence. Qed.

Lemma bind_ok {A B : Type} (r : result A) (k : A -> result B) (b : B) :
  bind r k = Ok b -> exists a, r = Ok a /\ k a = Ok b.
Proof. destruct r as [a|e]; simpl; intros E; [eauto | discriminate]. Qed.

(** Split an equation [x <- r ;; k = Ok b] found among the hypotheses. *)
Ltac bind_inv :=
  match goal with
  | H : bind ?r _ = Ok _ |- _ =>
    let a := fresh "a" in
    let E := fresh "E" in
    apply bind_ok in H; destruct H as (a & E & H); cbv beta in H
  end.

Lemma len_app {A : Type} (a b : list A) : len (a ++ b) = len a + len b.
Proof. unfold len. rewrite length_app. lia. Qed.

Lemma len_nonneg {A : Type} (a : list A) : 0 <= len a.
Proof. unfold len. lia. Qed.

Lemma list_eqb_spec {A : Type} (eqb : A -> A -> bool) :
  (forall x y, eqb x y = true <-> x = y) ->
  forall a b, list_eqb eqb a b = true <-> a = b.
Proof.
  intros Heq. induction a as [|x a IH]; destruct b as [|y b]; simpl;
    try (split; [discriminate | congruence]); try tauto.
  rewrite andb_true_iff, Heq, IH. split.
  - intros [-> ->]. reflexivity.
  - intros E. inv E. auto.
Qed.

Lemma pystr_eqb_eq (a b : pystr) : pystr_eqb a b = true <-> a = b.
Proof. apply list_eqb_spec. apply Z.eqb_eq. Qed.

Lemma pystr_eqb_refl (a : pystr) : pystr_eqb a a = true.
Proof. apply pystr_eqb_eq. reflexivity. Qed.

Lemma pystr_eqb_neq (a b : pystr) : pystr_eqb a b = false <-> a <> b.
Proof.
  rewrite <- pystr_eqb_eq. destruct (pystr_eqb a b); split; congruence.
Qed.

Lemma bytes_eqb_refl (a : bytes) : bytes_eqb a a = true.
Proof.
  apply list_eqb_spec; [|reflexivity]. intros x y. split.
  - apply Byte.byte_dec_bl.
  - apply Byte.byte_dec_lb.
Qed.

(** The slice that starts right after [pre] and has the length of [b]. *)
Lemma firstn_skipn_middle {A : Type} (pre b post : list A) :
  firstn (length b) (skipn (length pre) (pre ++ b ++ post)) = b.
Proof.
  rewrite skipn_app, skipn_all, Nat.sub_diag. simpl.
  rewrite firstn_app, firstn_all, Nat.sub_diag. simpl. apply app_nil_r.
Qed.

Lemma slice_middle {A : Type} (pre b post : list A) (lo hi : Z) :
  lo = len pre -> hi = lo + len b -> slice (pre ++ b ++ post) lo hi = b.
Proof.
  intros -> ->. unfold slice, len.
  replace (Z.to_nat (Z.of_nat (length pre) + Z.of_nat (length b))
           - Z.to_nat (Z.of_nat (length pre)))%nat with (length b) by lia.
  rewrite Nat2Z.id. apply firstn_skipn_middle.
Qed.

Lemma slice_length {A : Type} (data : list A) (lo hi : Z) :
  0 <= lo -> lo <= hi -> hi <= len data ->
  length (slice data lo hi) = Z.to_nat (hi - lo).
Proof.
  unfold slice, len. intros. rewrite length_firstn, length_skipn. lia.
Qed.

(** ** byte_utils: packing and unpacking are inverse *)

Section PackUnpack.
Import byte_utils.

Lemma pack_unsigned_ok (n : nat) (x : Z) (b : bytes) :
  pack_unsigned n x = Ok b ->
  b = le_split n x /\ 0 <= x < 2 ^ (8 * Z.of_nat n).
Proof.
  unfold pack_unsigned.
  destruct ((0 <=? x) && (x <? 2 ^ (8 * Z.of_nat n))) eqn:E; [|discriminate].
  intros H. inv H. apply andb_true_iff in E. split; [reflexivity | lia].
Qed.

Lemma pack_unsigned_in_range (n : nat) (x : Z) :
  0 <= x < 2 ^ (8 * Z.of_nat n) -> pack_unsigned n x = Ok (le_split n x).
Proof.
  intros H. unfold pack_unsigned.
  replace ((0 <=? x) && (x <? 2 ^ (8 * Z.of_nat n))) with true; [reflexivity|].
  symmetry. apply andb_true_iff. lia.
Qed.

Lemma pack_unsigned_length (n : nat) (x : Z) (b : bytes) :
  pack_unsigned n x = Ok b -> length b = n.
Proof.
  intros H. apply pack_unsigned_ok in H. destruct H as [-> _].
  apply length_le_split.
Qed.

Lemma unpack_pack_unsigned (n : nat) (x : Z) (b : bytes) :
  pack_unsigned n x = Ok b -> unpack_unsigned n b = Ok x.
Proof.
  intros H. apply pack_unsigned_ok in H. destruct H as [-> R].
  unfold unpack_unsigned. rewrite length_le_split, Nat.eqb_refl.
  rewrite le_combine_split, Z.mod_small; [reflexivity|].
  replace (Z.of_nat n * 8) with (8 * Z.of_nat n) by lia. exact R.
Qed.

Lemma unpack_unsigned_range (n : nat) (b : bytes) (x : Z) :
  unpack_unsigned n b = Ok x -> 0 <= x < 2 ^ (8 * Z.of_nat n).
Proof.
  unfold unpack_unsigned. destruct (Nat.eqb_spec (length b) n); [|discriminate].
  intros H. inv H. apply le_combine_bound.
Qed.

Lemma unpack_unsigned_total (n : nat) (b : bytes) :
  length b = n -> unpack_unsigned n b = Ok (le_combine b).
Proof. intros <-. unfold unpack_unsigned. rewrite Nat.eqb_refl. reflexivity. Qed.

Lemma pack_i32_ok (x : Z) (b : bytes) :
  pack_i32 x = Ok b -> b = le_split 4 x /\ - 2 ^ 31 <= x < 2 ^ 31.
Proof.
  unfold pack_i32.
  destruct ((- 2 ^ 31 <=? x) && (x <? 2 ^ 31)) eqn:E; [|discriminate].
  intros H. inv H. apply andb_true_iff in E. split; [reflexivity | lia].
Qed.

Lemma unpack_pack_i32 (x : Z) (b : bytes) :
  pack_i32 x = Ok b -> unpack_i32 b = Ok x.
Proof.
  intros H. apply pack_i32_ok in H. destruct H as [-> R].
  unfold unpack_i32. rewrite length_le_split. simpl Nat.eqb. cbv iota zeta.
  rewrite le_combine_split. change (2 ^ (Z.of_nat 4 * 8)) with (2 ^ 32).
  f_equal. destruct (Z.ltb_spec (x mod 2 ^ 32) (2 ^ 31)) as [L|L];
    Z.div_mod_to_equations; lia.
Qed.

Lemma unpack_i32_range (b : bytes) (x : Z) :
  unpack_i32 b = Ok x -> - 2 ^ 31 <= x < 2 ^ 31.
Proof.
  unfold unpack_i32. destruct (Nat.eqb_spec (length b) 4) as [L|]; [|discriminate].
  cbv zeta. intros H. apply Ok_inj in H. subst x.
  pose proof (le_combine_bound b) as B.
  rewrite L in B. change (2 ^ (8 * Z.of_nat 4)) with (2 ^ 32) in B.
  destruct (Z.ltb_spec (le_combine b) (2 ^ 31)); lia.
Qed.

Lemma unpack_pack_f64 (x : float64) (b : bytes) :
  pack_f64 x = Ok b ->
  length b = 8%nat /\ unpack_f64 b = Ok (F64 (f64_bits x mod 2 ^ 64)).
Proof.
  unfold pack_f64. intros H. inv H. unfold unpack_f64.
  rewrite length_le_split. split; [reflexivity|]. simpl Nat.eqb. cbv iota.
  rewrite le_combine_split. reflexivity.
Qed.

End PackUnpack.

(** ** UTF-8: decoding inverts encoding *)

Section Utf8.

Lemma unsigned_of_Z_small (z : Z) :
  0 <= z < 256 -> byte.unsigned (byte.of_Z z) = z.
Proof.
  intros H. rewrite byte.unsigned_of_Z. unfold byte.wrap.
  apply Z.mod_small. change (2 ^ 8) with 256. lia.
Qed.

(** Decide every integer comparison in the goal; the impossible branches are
    closed by [lia]. *)
Ltac decide_cmp :=
  repeat match goal with
  | |- context [?a <? ?b] =>
    destruct (Z.ltb_spec a b); try (exfalso; Z.div_mod_to_equations; lia)
  | |- context [?a <=? ?b] =>
    destruct (Z.leb_spec a b); try (exfalso; Z.div_mod_to_equations; lia)
  end.

Lemma decode_encode_cp (c : Z) (b rest : bytes) :
  utf8.encode_cp c = Ok b ->
  utf8.decode (b ++ rest) = (s <- utf8.decode rest ;; Ok (c :: s)).
Proof.
  unfold utf8.encode_cp, utf8.is_surrogate.
  destruct (Z.ltb_spec c 0); [discriminate|].
  destruct (Z.ltb_spec c 0x80).
  { intros E. apply Ok_inj in E. subst b. cbn [app utf8.decode].
    rewrite unsigned_of_Z_small by lia. decide_cmp. reflexivity. }
  destruct (Z.ltb_spec c 0x800).
  { intros E. apply Ok_inj in E. subst b. cbn [app utf8.decode].
    rewrite !unsigned_of_Z_small by (Z.div_mod_to_equations; lia).
    unfold utf8.is_cont. decide_cmp. cbn [andb].
    replace ((192 + c / 64 - 192) * 64 + (128 + c mod 64 - 128)) with c
      by (Z.div_mod_to_equations; lia).
    reflexivity. }
  destruct (Z.ltb_spec c 0x10000).
  { destruct (Z.leb_spec 0xD800 c); destruct (Z.leb_spec c 0xDFFF);
      cbn [andb]; try discriminate.
    all: intros E; apply Ok_inj in E; subst b; cbn [app utf8.decode].
    all: rewrite !unsigned_of_Z_small by (Z.div_mod_to_equations; lia).
    all: unfold utf8.is_cont, utf8.is_surrogate.
    all: replace ((224 + c / 4096 - 224) * 4096
                  + (128 + (c / 64) mod 64 - 128) * 64
                  + (128 + c mod 64 - 128)) with c
        by (Z.div_mod_to_equations; lia).
    all: decide_cmp; reflexivity. }
  destruct (Z.ltb_spec c 0x110000); [|discriminate].
  intros E. apply Ok_inj in E. subst b. cbn [app utf8.decode].
  rewrite !unsigned_of_Z_small by (Z.div_mod_to_equations; lia).
  unfold utf8.is_cont.
  replace ((240 + c / 262144 - 240) * 262144
           + (128 + (c / 4096) mod 64 - 128) * 4096
           + (128 + (c / 64) mod 64 - 128) * 64
           + (128 + c mod 64 - 128)) with c
    by (Z.div_mod_to_equations; lia).
  decide_cmp. reflexivity.
Qed.

Lemma decode_encode (s : pystr) (b : bytes) :
  utf8.encode s = Ok b -> utf8.decode b = Ok s.
Proof.
  revert b. induction s as [|c s IH]; intros b E.
  - apply Ok_inj in E. subst b. reflexivity.
  - cbn [utf8.encode] in E. repeat bind_inv. apply Ok_inj in E. subst b.
    rewrite (decode_encode_cp c a _ E0), (IH _ E1). reflexivity.
Qed.

End Utf8.

(** ** column_serializers: a parsed block is what was serialized *)

Section ColumnBlocks.
Context {builtins : PyBuiltins}.
Import byte_utils column_serializers.

Lemma serialize_int32_loop_spec (vals : list value) :
  forall buf b,
    serialize_int32_loop vals buf = Ok b ->
    exists blk vals',
      b = buf ++ blk
      /\ len blk = 4 * len vals
      /\ Forall2 (fun v v' => stored_value 0 v = Ok v') vals vals'
      /\ forall pre post out,
          parse_int32_loop (length vals) (pre ++ blk ++ post) (len pre) out
          = Ok (out ++ vals').
Proof.
  induction vals as [|v vals IH]; intros buf b E.
  - apply Ok_inj in E. subst b. exists [], []. rewrite !app_nil_r.
    repeat split; auto. intros. simpl. rewrite app_nil_r. reflexivity.
  - cbn [serialize_int32_loop] in E.
    assert (E' : (iv <- py_int v ;;
                  if (iv <? I32_MIN) || (iv >? I32_MAX)
                  then Err (ValueError (MsgInt32Range iv))
                  else c <- pack_i32 iv ;;
                       serialize_int32_loop vals (buf ++ c)) = Ok b)
      by (destruct v; [discriminate | exact E ..]).
    clear E. bind_inv. rename a into iv.
    destruct ((iv <? I32_MIN) || (iv >? I32_MAX)); [discriminate|].
    bind_inv. rename a into c.
    destruct (IH _ _ E') as (blk & vals' & -> & L & F & P).
    pose proof (unpack_pack_i32 _ _ E0) as U.
    apply pack_i32_ok in E0. destruct E0 as [Hc _].
    assert (Lc : len c = 4) by (subst c; unfold len; rewrite length_le_split; lia).
    exists (c ++ blk), (VInt iv :: vals').
    split; [rewrite app_assoc; reflexivity|].
    split; [rewrite len_app; unfold len in *; simpl length; lia|].
    split.
    { constructor; [|exact F]. unfold stored_value. simpl. rewrite E.
      reflexivity. }
    intros pre post out. cbn [length parse_int32_loop].
    rewrite <- app_assoc.
    rewrite (slice_middle pre c (blk ++ post)) by (unfold SIZE_I32; lia).
    rewrite U. cbn [bind].
    specialize (P (pre ++ c) post (out ++ [VInt iv])).
    rewrite <- !app_assoc in P. rewrite len_app, Lc in P.
    unfold SIZE_I32. exact P.
Qed.

Lemma parse_serialize_int32 (vals : list value) (b : bytes) :
  serialize_int32_column vals = Ok b ->
  exists vals',
    Forall2 (fun v v' => stored_value 0 v = Ok v') vals vals'
    /\ parse_int32_block b (len vals) = Ok vals'.
Proof.
  unfold serialize_int32_column. intros E.
  destruct (serialize_int32_loop_spec _ _ _ E) as (blk & vals' & -> & L & F & P).
  exists vals'. split; [exact F|]. unfold parse_int32_block. cbn [app].
  unfold SIZE_I32. replace (len blk =? len vals * 4) with true
    by (symmetry; apply Z.eqb_eq; lia).
  cbn [negb]. unfold len at 1. rewrite Nat2Z.id.
  specialize (P [] [] []). rewrite app_nil_r in P. exact P.
Qed.

Lemma serialize_float64_loop_spec (vals : list value) :
  forall buf b,
    serialize_float64_loop vals buf = Ok b ->
    exists blk vals',
      b = buf ++ blk
      /\ len blk = 8 * len vals
      /\ Forall2 (fun v v' => stored_value 1 v = Ok v') vals vals'
      /\ forall pre post out,
          parse_float64_loop (length vals) (pre ++ blk ++ post) (len pre) out
          = Ok (out ++ vals').
Proof.
  induction vals as [|v vals IH]; intros buf b E.
  - apply Ok_inj in E. subst b. exists [], []. rewrite !app_nil_r.
    repeat split; auto. intros. simpl. rewrite app_nil_r. reflexivity.
  - cbn [serialize_float64_loop] in E.
    assert (E' : (fv <- py_float v ;;
                  c <- pack_f64 fv ;;
                  serialize_float64_loop vals (buf ++ c)) = Ok b)
      by (destruct v; [discriminate | exact E ..]).
    clear E. bind_inv. rename a into fv. bind_inv. rename a into c.
    destruct (IH _ _ E') as (blk & vals' & -> & L & F & P).
    destruct (unpack_pack_f64 _ _ E0) as [Lc' U].
    assert (Lc : len c = 8) by (unfold len; lia).
    exists (c ++ blk), (VFloat (F64 (f64_bits fv mod 2 ^ 64)) :: vals').
    split; [rewrite app_assoc; reflexivity|].
    split; [rewrite len_app; unfold len in *; simpl length; lia|].
    split.
    { constructor; [|exact F]. unfold stored_value. simpl. rewrite E.
      reflexivity. }
    intros pre post out. cbn [length parse_float64_loop].
    rewrite <- app_assoc.
    rewrite (slice_middle pre c (blk ++ post)) by (unfold SIZE_F64; lia).
    rewrite U. cbn [bind].
    specialize (P (pre ++ c) post
                  (out ++ [VFloat (F64 (f64_bits fv mod 2 ^ 64))])).
    rewrite <- !app_assoc in P. rewrite len_app, Lc in P.
    unfold SIZE_F64. exact P.
Qed.

Lemma parse_serialize_float64 (vals : list value) (b : bytes) :
  serialize_float64_column vals = Ok b ->
  exists vals',
    Forall2 (fun v v' => stored_value 1 v = Ok v') vals vals'
    /\ parse_float64_block b (len vals) = Ok vals'.
Proof.
  unfold serialize_float64_column. intros E.
  destruct (serialize_float64_loop_spec _ _ _ E)
    as (blk & vals' & -> & L & F & P).
  exists vals'. split; [exact F|]. unfold parse_float64_block. cbn [app].
  unfold SIZE_F64. replace (len blk =? len vals * 8) with true
    by (symmetry; apply Z.eqb_eq; lia).
  cbn [negb]. unfold len at 1. rewrite Nat2Z.id.
  specialize (P [] [] []). rewrite app_nil_r in P. exact P.
Qed.

Lemma write_parts_concat (parts : list bytes) (buf : bytes) :
  write_parts parts buf = buf ++ concat parts.
Proof.
  unfold write_parts. revert buf.
  induction parts as [|p ps IH]; intros buf; simpl.
  - rewrite app_nil_r. reflexivity.
  - rewrite IH, app_assoc. reflexivity.
Qed.

Lemma string_parts_spec (vals : list value) :
  forall cur offsets parts cur' offsets' parts',
    string_parts vals cur offsets parts = Ok (cur', offsets', parts') ->
    exists new strs,
      parts' = parts ++ new
      /\ offsets' = offsets ++ cumulative cur new
      /\ cur' = cur + len (concat new)
      /\ length new = length vals
      /\ Forall2 (fun v s => stored_value 2 v = Ok (VStr s)) vals strs
      /\ Forall2 (fun p s => utf8.decode p = Ok s) new strs.
Proof.
  induction vals as [|v vals IH]; intros cur offsets parts cur' offsets' parts' E.
  - apply Ok_inj in E. inv E. exists [], []. rewrite !app_nil_r.
    cbn. repeat split; auto; lia.
  - cbn [string_parts] in E. bind_inv. rename a into b. cbv zeta in E.
    destruct (IH _ _ _ _ _ _ E) as (new & strs & -> & -> & -> & L & F & D).
    set (s := match v with VNone => [] | VStr s => s | _ => py_str v end).
    assert (Hs : utf8.decode b = Ok s).
    { destruct v; subst s; apply decode_encode; exact E0. }
    exists (b :: new), (s :: strs). rewrite <- !app_assoc. cbn [app cumulative concat].
    rewrite len_app. repeat split; auto; try lia.
    simpl. congruence.
Qed.

Lemma write_offsets_spec (offs : list Z) :
  forall buf b,
    write_offsets offs buf = Ok b ->
    exists blk,
      b = buf ++ blk
      /\ len blk = 4 * len offs
      /\ forall pre post acc,
          read_offsets (length offs) (pre ++ blk ++ post) (len pre) acc
          = Ok (acc ++ offs).
Proof.
  induction offs as [|o offs IH]; intros buf b E.
  - apply Ok_inj in E. subst b. exists []. rewrite !app_nil_r.
    repeat split; auto. intros. simpl. rewrite app_nil_r. reflexivity.
  - cbn [write_offsets] in E. bind_inv. rename a into c.
    destruct (IH _ _ E) as (blk & -> & L & P).
    pose proof (unpack_pack_unsigned _ _ _ E0) as U.
    apply pack_unsigned_length in E0.
    assert (Lc : len c = 4) by (unfold len; lia).
    exists (c ++ blk).
    split; [rewrite app_assoc; reflexivity|].
    split; [rewrite len_app; unfold len in *; simpl length; lia|].
    intros pre post acc. cbn [length read_offsets].
    rewrite <- app_assoc.
    rewrite (slice_middle pre c (blk ++ post)) by (unfold SIZE_U32; lia).
    unfold unpack_u32. rewrite U. cbn [bind].
    specialize (P (pre ++ c) post (acc ++ [o])).
    rewrite <- !app_assoc in P. rewrite len_app, Lc in P.
    unfold SIZE_U32. exact P.
Qed.

Lemma parse_strings_spec (parts : list bytes) :
  forall strs i pre_offs cur pre_sec post out,
    Forall2 (fun p s => utf8.decode p = Ok s) parts strs ->
    i = len pre_offs -> cur = len pre_sec ->
    parse_strings (length parts) i (pre_offs ++ cur :: cumulative cur parts)
                  (pre_sec ++ concat parts ++ post) out
    = Ok (out ++ map VStr strs).
Proof.
  induction parts as [|p ps IH]; intros strs i pre_offs cur pre_sec post out F Hi Hc.
  - inv F. simpl. rewrite app_nil_r. reflexivity.
  - inversion F as [|p' s ps' ss Hd Hf]; subst. clear F.
    cbn [length parse_strings cumulative concat].
    replace (Z.to_nat (len pre_offs)) with (length pre_offs)
      by (unfold len; lia).
    rewrite nth_middle.
    replace (pre_offs ++ len pre_sec :: (len pre_sec + len p)
               :: cumulative (len pre_sec + len p) ps)
      with ((pre_offs ++ [len pre_sec]) ++ (len pre_sec + len p)
               :: cumulative (len pre_sec + len p) ps)
      by (rewrite <- app_assoc; reflexivity).
    replace (Z.to_nat (len pre_offs + 1)) with (length (pre_offs ++ [len pre_sec]))
      by (rewrite length_app; unfold len; simpl; lia).
    rewrite nth_middle.
    pose proof (len_nonneg p).
    destruct (Z.gtb_spec (len pre_sec) (len pre_sec + len p)); [lia|].
    rewrite <- app_assoc.
    rewrite (slice_middle pre_sec p (concat ps ++ post)) by reflexivity.
    rewrite Hd. cbn [bind].
    specialize (IH ss (len pre_offs + 1) (pre_offs ++ [len pre_sec])
                   (len pre_sec + len p) (pre_sec ++ p) post
                   (out ++ [VStr s]) Hf).
    rewrite <- !app_assoc in IH. cbn [app] in IH.
    rewrite <- app_assoc. cbn [app map].
    apply IH.
    + rewrite len_app. reflexivity.
    + rewrite len_app. reflexivity.
Qed.

Lemma rev_cumulative (parts : list bytes) :
  forall cur, exists l,
    rev (cur :: cumulative cur parts) = (cur + len (concat parts)) :: l.
Proof.
  induction parts as [|p ps IH]; intros cur.
  - exists []. cbn. f_equal. lia.
  - destruct (IH (cur + len p)) as [l E].
    exists (l ++ [cur]). cbn [cumulative concat].
    change (rev (cur :: (cur + len p) :: cumulative (cur + len p) ps))
      with (rev ((cur + len p) :: cumulative (cur + len p) ps) ++ [cur]).
    rewrite E, len_app. cbn [app]. f_equal. lia.
Qed.

Lemma length_cumulative (parts : list bytes) (cur : Z) :
  length (cumulative cur parts) = length parts.
Proof. revert cur. induction parts; intros; simpl; auto. Qed.

Lemma parse_serialize_string (vals : list value) (b : bytes) :
  serialize_string_column vals = Ok b ->
  exists vals',
    Forall2 (fun v v' => stored_value 2 v = Ok v') vals vals'
    /\ parse_string_block b (len vals) = Ok vals'.
Proof.
  unfold serialize_string_column. intros E. bind_inv.
  destruct a as [[cur offsets] parts]. cbv zeta in E.
  destruct (cur >? UINT32_MAX); [discriminate|]. bind_inv. rename a into ob.
  apply Ok_inj in E. subst b. rewrite write_parts_concat.
  destruct (string_parts_spec _ _ _ _ _ _ _ E0)
    as (new & strs & -> & -> & -> & L & F & D).
  cbn [app] in *.
  destruct (write_offsets_spec _ _ _ E1) as (blk & -> & Lb & P).
  cbn [app] in *. clear E0 E1.
  assert (Lo : len (0 :: cumulative 0 new) = len vals + 1).
  { unfold len. cbn [length]. rewrite length_cumulative. lia. }
  exists (map VStr strs). split.
  { clear - F. induction F; constructor; auto. }
  unfold parse_string_block. unfold SIZE_U32. rewrite len_app.
  pose proof (len_nonneg (concat new)).
  destruct (Z.ltb_spec (len blk + len (concat new)) ((len vals + 1) * 4));
    [lia|].
  replace (Z.to_nat (len vals + 1)) with (length (0 :: cumulative 0 new))
    by (unfold len in *; lia).
  specialize (P [] (concat new) []). cbn [app] in P.
  change (len (@nil byte)) with 0 in P. rewrite P. cbn [bind app].
  unfold slice_from.
  replace (Z.to_nat ((len vals + 1) * 4)) with (length blk)
    by (unfold len in *; lia).
  rewrite skipn_app, skipn_all, Nat.sub_diag. cbn [app skipn].
  destruct (rev_cumulative new 0) as [l R]. rewrite R.
  destruct (Z.gtb_spec (0 + len (concat new)) (len (concat new))); [lia|].
  replace (Z.to_nat (len vals)) with (length new) by (unfold len; lia).
  pose proof (parse_strings_spec new strs 0 [] 0 [] [] [] D eq_refl eq_refl) as S.
  cbn [app] in S. rewrite app_nil_r in S. exact S.
Qed.

End ColumnBlocks.

(** ** header_utils: a parsed header is what was built *)

Section Header.
Import byte_utils header_utils.

Lemma bio_read_app (b rest : bytes) (n : Z) :
  n = len b -> bio_read (b ++ rest) n = (b, rest).
Proof.
  intros ->. unfold bio_read, len. rewrite Nat2Z.id.
  rewrite firstn_app, firstn_all, Nat.sub_diag, skipn_app, skipn_all,
    Nat.sub_diag.
  simpl. rewrite app_nil_r. reflexivity.
Qed.

Lemma read_field_app (b rest : bytes) (size : Z)
    (unpack : bytes -> result Z) (m : message) (v : Z) :
  len b = size -> unpack b = Ok v ->
  read_field (b ++ rest) size unpack m = Ok (v, rest).
Proof.
  intros L U. unfold read_field. rewrite bio_read_app by auto.
  destruct (Z.ltb_spec (len b) size); [lia|]. rewrite U. reflexivity.
Qed.

(** A field packed by [pack_unsigned n] is read back by [read_field]. *)
Lemma read_packed_field (n : nat) (x : Z) (b rest : bytes) (m : message) :
  pack_unsigned n x = Ok b ->
  read_field (b ++ rest) (Z.of_nat n) (unpack_unsigned n) m = Ok (x, rest).
Proof.
  intros E. apply read_field_app.
  - apply pack_unsigned_length in E. unfold len. congruence.
  - apply unpack_pack_unsigned. exact E.
Qed.

Lemma build_entries_spec (es : list column_entry) :
  forall buf h,
    build_entries es buf = Ok h ->
    exists blk,
      h = buf ++ blk
      /\ forall post i cols,
          parse_columns (length es) i (blk ++ post) cols = Ok (cols ++ es).
Proof.
  induction es as [|e es IH]; intros buf h E.
  - apply Ok_inj in E. subst h. exists []. rewrite app_nil_r. split; auto.
    intros. simpl. rewrite app_nil_r. reflexivity.
  - cbn [build_entries] in E. bind_inv. rename a into name_b.
    cbv zeta in E. destruct (len name_b >=? 2 ^ 16); [discriminate|].
    repeat bind_inv.
    destruct (IH _ _ E) as (blk & -> & P).
    exists (a ++ name_b ++ a0 ++ a1 ++ a2 ++ a3 ++ a4 ++ a5 ++ blk).
    split; [rewrite <- !app_assoc; reflexivity|].
    intros post i cols. cbn [length parse_columns].
    rewrite <- !app_assoc.
    unfold unpack_u16, unpack_u8, unpack_u64, SIZE_U16, SIZE_U8, SIZE_U64.
    rewrite (read_packed_field 2 _ _ _ _ E1). cbv beta iota delta [bind].
    rewrite bio_read_app by reflexivity.
    destruct (Z.ltb_spec (len name_b) (len name_b)); [lia|].
    rewrite (decode_encode _ _ E0).
    rewrite (read_packed_field 1 _ _ _ _ E2).
    rewrite (read_packed_field 1 _ _ _ _ E3).
    rewrite (read_packed_field 8 _ _ _ _ E4).
    rewrite (read_packed_field 8 _ _ _ _ E5).
    rewrite (read_packed_field 8 _ _ _ _ E6).
    rewrite (read_packed_field 8 _ _ _ _ E7).
    rewrite P. destruct e. cbn [col_name col_type col_flags col_num_values
      col_offset col_comp_size col_uncomp_size].
    rewrite <- app_assoc. reflexivity.
Qed.

Lemma parse_build_header (sig rows : Z) (es : list column_entry) (h : bytes) :
  build_header sig rows es = Ok h ->
  parse_header h = Ok (Z.land sig 0xFFFFFFFF, rows, es).
Proof.
  unfold build_header. intros E. cbv zeta in E. repeat bind_inv.
  destruct (build_entries_spec _ _ _ E) as (blk & -> & P).
  unfold parse_header. rewrite <- !app_assoc.
  unfold unpack_u32, unpack_u64, SIZE_U32, SIZE_U64.
  rewrite (read_packed_field 4 _ _ _ _ E0). cbv beta iota delta [bind].
  rewrite (read_packed_field 8 _ _ _ _ E1).
  rewrite (read_packed_field 4 _ _ _ _ E2).
  unfold len at 1. rewrite Nat2Z.id.
  specialize (P [] 0 []). rewrite app_nil_r in P. rewrite P. reflexivity.
Qed.

End Header.

(** ** writer: the layout of a written file *)

Section WriterLayout.
Context {zlib : Zlib} {builtins : PyBuiltins}.
Import byte_utils header_utils column_serializers writer.

Lemma f_write_at_end (f : file) (b : bytes) :
  at_end f ->
  f_content (f_write f b) = f_content f ++ b /\ at_end (f_write f b).
Proof.
  unfold at_end, f_write. destruct f as [c p]. cbn [f_content f_pos].
  intros ->. rewrite firstn_all, Nat.sub_diag, skipn_all2 by lia.
  cbn [repeat app]. rewrite app_nil_r, length_app. auto.
Qed.

(** Overwriting a region in the middle of a file with as many bytes. *)
Lemma f_write_over (pre old post new : bytes) (p : nat) :
  p = length pre -> length new = length old ->
  f_content (f_write (File (pre ++ old ++ post) p) new) = pre ++ new ++ post.
Proof.
  intros -> L. unfold f_write. cbn [f_content f_pos].
  rewrite firstn_app, firstn_all, Nat.sub_diag. cbn [firstn].
  rewrite app_nil_r.
  replace (length pre - length (pre ++ old ++ post))%nat with 0%nat
    by (rewrite length_app; lia).
  cbn [repeat app]. rewrite L.
  assert (S : skipn (length pre + length old) (pre ++ old ++ post) = post).
  { replace (length pre + length old)%nat with (length (pre ++ old))
      by (rewrite length_app; lia).
    rewrite (app_assoc pre old post), skipn_app, skipn_all, Nat.sub_diag.
    reflexivity. }
  rewrite S. reflexivity.
Qed.

Lemma nth_error_skipn {A : Type} (l : list A) :
  forall n x, nth_error l n = Some x -> skipn n l = x :: skipn (S n) l.
Proof.
  induction l as [|y l IH]; intros [|n] x E; try discriminate.
  - inv E. reflexivity.
  - simpl in E. apply IH in E. exact E.
Qed.

Lemma write_blocks_spec (columns : list (list value))
    (entries : list column_entry) :
  forall idx f f' entries',
    at_end f ->
    (idx + length entries = length columns)%nat ->
    write_blocks entries idx columns f = (f', Ok entries') ->
    exists blocks,
      f_content f' = f_content f ++ blocks
      /\ at_end f'
      /\ map col_name entries' = map col_name entries
      /\ map col_type entries' = map col_type entries
      /\ map col_num_values entries' = map col_num_values entries
      /\ forall head tail,
          length head = length (f_content f) ->
          Forall2 (stored_block (head ++ blocks ++ tail))
                  (skipn idx columns) entries'.
Proof.
  induction entries as [|e entries IH]; intros idx f f' entries' A L E.
  - cbn in E. inv E. exists []. rewrite app_nil_r. repeat split; auto.
    intros. rewrite skipn_all2 by (simpl in L; lia). constructor.
  - cbn [write_blocks] in E.
    destruct (_SERIALIZERS (col_type e)) as [ser|] eqn:Hser; [|inv E].
    destruct (nth_error columns idx) as [col|] eqn:N; [|inv E].
    destruct (ser col) as [unc|] eqn:U; [|inv E].
    cbv zeta in E.
    destruct (write_blocks entries (S idx) columns (f_write f (zlib_compress unc)))
      as [f1 r] eqn:W.
    destruct r as [rest'|]; [|inv E].
    apply pair_equal_spec in E. destruct E as [-> E]. apply Ok_inj in E.
    subst entries'.
    destruct (f_write_at_end f (zlib_compress unc) A) as [C A1].
    destruct (IH (S idx) _ _ _ A1 ltac:(simpl in L; lia) W)
      as (blocks & C' & A' & Hn & Ht & Hv & F).
    exists (zlib_compress unc ++ blocks).
    split; [rewrite C', C, app_assoc; reflexivity|].
    split; [exact A'|].
    cbn [map col_name col_type col_num_values].
    split; [congruence|]. split; [congruence|]. split; [congruence|].
    intros head tail H. rewrite (nth_error_skipn _ _ _ N). constructor.
    + exists ser, unc. cbn [col_type]. repeat split; auto.
      exists head, (blocks ++ tail). cbn [col_offset col_comp_size col_uncomp_size].
      rewrite <- app_assoc. repeat split; auto.
      unfold f_tell, len. unfold at_end in A. congruence.
    + specialize (F (head ++ zlib_compress unc) tail).
      rewrite <- !app_assoc in F. rewrite <- !app_assoc. apply F.
      rewrite C, !length_app. lia.
Qed.

Lemma make_entries_spec (names : list pystr) :
  forall types cols,
    length names = length types -> length types = length cols ->
    length (make_entries names types cols) = length cols
    /\ map col_name (make_entries names types cols) = names
    /\ map col_type (make_entries names types cols) = types
    /\ map col_num_values (make_entries names types cols) = map len cols.
Proof.
  induction names as [|n names IH]; intros [|t types] [|c cols] L1 L2;
    try discriminate; [cbn; auto|].
  cbn [make_entries length map col_name col_type col_num_values].
  destruct (IH types cols) as (A & B & C & D);
    [simpl in L1; lia | simpl in L2; lia |].
  repeat split; congruence.
Qed.

Lemma check_column_lengths_ok (cols : list (list value)) :
  forall i total_rows,
    check_column_lengths cols i total_rows = Ok tt ->
    Forall (fun col => len col = total_rows) cols.
Proof.
  induction cols as [|c cols IH]; intros i t E; [constructor|].
  cbn [check_column_lengths] in E.
  destruct (Z.eqb_spec (len c) t); [|discriminate].
  constructor; [assumption | eapply IH; exact E].
Qed.

Lemma Forall2_with_maps {A B C : Type} (f : B -> C) (g : A -> C)
    (P : A -> B -> Prop) (l : list A) (l' : list B) :
  map f l' = map g l -> Forall2 P l l' ->
  Forall2 (fun x y => f y = g x /\ P x y) l l'.
Proof.
  intros M F. induction F as [|x y l l' H F IH]; [constructor|].
  cbn [map] in M. injection M as M1 M2. constructor; auto.
Qed.

(** What a successful [write_cstm] leaves in the file. *)
Lemma write_cstm_ok (fs : option bytes) (names : list pystr)
    (types : list Z) (cols : list (list value)) (sig : Z) (content : bytes) :
  write_cstm fs names types cols sig = (Some content, Ok tt) ->
  exists total_rows final_entries final_header blocks,
    length names = length types /\ length types = length cols
    /\ Forall (fun col => len col = total_rows) cols
    /\ build_header sig total_rows final_entries = Ok final_header
    /\ len final_header < 2 ^ 64
    /\ content = MAGIC ++ [byte.of_Z VERSION] ++ repeat Byte.x00 7
                 ++ le_split 8 (len final_header) ++ final_header ++ blocks
    /\ map col_name final_entries = names
    /\ map col_type final_entries = types
    /\ Forall2 (fun col e => col_num_values e = len col
                             /\ stored_block content col e)
               cols final_entries.
Proof.
  unfold write_cstm.
  destruct (Nat.eqb_spec (length names) (length types)) as [L1|];
    [|intros H; discriminate H].
  destruct (Nat.eqb_spec (length types) (length cols)) as [L2|];
    [|intros H; discriminate H].
  cbn [andb negb]. cbv zeta.
  match goal with
  | |- match ?v with _ => _ end = _ -> _ =>
    destruct v as [total_rows|] eqn:V; [|intros H; discriminate H]
  end.
  assert (HF : Forall (fun col => len col = total_rows) cols).
  { destruct (Z.gtb_spec (len names) 0) as [G|G].
    - bind_inv. destruct a. eapply check_column_lengths_ok.
      apply Ok_inj in V. subst total_rows. exact E.
    - assert (cols = []) as ->; [|constructor].
      unfold len in G. destruct cols; [reflexivity | simpl in *; lia]. }
  clear V.
  destruct (build_header sig total_rows (make_entries names types cols))
    as [initial_header|] eqn:B0; [|intros H; discriminate H].
  destruct (pack_u64 (len initial_header)) as [b_len|] eqn:PL;
    [|intros H; discriminate H].
  assert (A0 : at_end (File [] 0)) by reflexivity.
  destruct (f_write_at_end _ MAGIC A0) as [C1 A1].
  destruct (f_write_at_end _ [byte.of_Z VERSION] A1) as [C2 A2].
  destruct (f_write_at_end _ (repeat Byte.x00 7) A2) as [C3 A3].
  destruct (f_write_at_end _ b_len A3) as [C4 A4].
  destruct (f_write_at_end _ initial_header A4) as [C5 A5].
  rewrite C4, C3, C2, C1 in C5. cbn [f_content app] in C5.
  match type of A5 with at_end ?f => set (f0 := f) in * end.
  destruct (write_blocks (make_entries names types cols) 0 cols f0)
    as [f1 r] eqn:W.
  destruct r as [final_entries|]; [|intros H; discriminate H].
  destruct (build_header sig total_rows final_entries)
    as [final_header|] eqn:B1; [|intros H; discriminate H].
  destruct (Z.eqb_spec (len final_header) (len initial_header)) as [LH|];
    [|intros H; discriminate H].
  cbn [negb]. intros H.
  destruct (make_entries_spec names types cols L1 L2) as (ML & Mn & Mt & Mv).
  destruct (write_blocks_spec cols _ 0%nat f0 f1 final_entries A5 ML W) as (blocks & C' & A' & Hn & Ht & Hv & F).
  pose proof (pack_unsigned_ok _ _ _ PL) as [Eb Rb].
  pose proof (pack_unsigned_length _ _ _ PL) as Lb.
  set (P := MAGIC ++ [byte.of_Z VERSION] ++ repeat Byte.x00 7 ++ b_len).
  assert (LP : length P = 20%nat).
  { subst P. rewrite !length_app, Lb. reflexivity. }
  assert (C0 : f_content f0 = P ++ initial_header).
  { rewrite C5. subst P. cbn [MAGIC repeat app]. reflexivity. }
  assert (Hc : content = P ++ final_header ++ blocks).
  { assert (Hs : Some (f_content (f_write (f_seek f1 HEADER_PREFIX_LEN)
                                          final_header)) = Some content)
      by congruence.
    assert (Hs' : f_content (f_write (f_seek f1 HEADER_PREFIX_LEN)
                                     final_header) = content)
      by congruence.
    rewrite <- Hs'. unfold f_seek. rewrite C', C0, <- app_assoc.
    apply f_write_over.
    - rewrite LP. reflexivity.
    - unfold len in LH. lia. }
  exists total_rows, final_entries, final_header, blocks.
  split; [exact L1|]. split; [exact L2|]. split; [exact HF|].
  split; [exact B1|].
  split; [rewrite LH; change (8 * Z.of_nat 8) with 64 in Rb; lia|].
  split.
  { rewrite Hc. subst P. rewrite Eb, LH. rewrite <- !app_assoc.
    reflexivity. }
  split; [congruence|]. split; [congruence|].
  apply Forall2_with_maps with (g := len); [congruence|].
  specialize (F (P ++ final_header) []).
  rewrite app_nil_r in F. cbn [skipn] in F.
  rewrite Hc, app_assoc. apply F.
  rewrite C0, !length_app. unfold len in LH. lia.
Qed.

End WriterLayout.

(** ** reader: reading what the writer laid out *)

Section ReaderLayout.
Context {zlib : Zlib} {builtins : PyBuiltins}.
Import byte_utils header_utils column_serializers writer reader.

Lemma read_exact_at (content pre b post : bytes) (p : nat) (n : Z) :
  content = pre ++ b ++ post -> p = length pre -> n = len b ->
  read_exact (File content p) n = Ok (b, File content (p + length b)).
Proof.
  intros -> -> ->. unfold read_exact, f_read. cbn [f_content f_pos].
  unfold len. rewrite Nat2Z.id, firstn_skipn_middle, Z.eqb_refl. reflexivity.
Qed.

Lemma read_exact_content (f f' : file) (n : Z) (b : bytes) :
  read_exact f n = Ok (b, f') -> f_content f' = f_content f.
Proof.
  unfold read_exact, f_read.
  destruct (Z.of_nat _ =? n); [|discriminate].
  intros E. apply Ok_inj in E. apply pair_equal_spec in E.
  destruct E as [_ <-]. reflexivity.
Qed.

Lemma read_prefix_and_header_content (content : bytes) (f : file)
    (parsed : Z * Z * list column_entry) :
  read_prefix_and_header content = Ok (f, parsed) -> f_content f = content.
Proof.
  unfold read_prefix_and_header. intros E.
  bind_inv. destruct a as [magic f1].
  destruct (negb (bytes_eqb magic MAGIC)); [discriminate|].
  bind_inv. destruct a as [ver_b f2].
  bind_inv. destruct a as [reserved f3].
  bind_inv. destruct a as [hlb f4].
  bind_inv. rename a into header_len.
  bind_inv. destruct a as [hb f5].
  bind_inv. apply Ok_inj in E. apply pair_equal_spec in E.
  destruct E as [<- _].
  apply read_exact_content in E0, E1, E2, E3, E5. cbn [f_content] in *.
  congruence.
Qed.

(** The prefix and header of a file laid out as the writer does. *)
Lemma read_prefix_and_header_written (sig rows : Z) (es : list column_entry)
    (header blocks : bytes) :
  build_header sig rows es = Ok header ->
  len header < 2 ^ 64 ->
  exists f,
    read_prefix_and_header
      (MAGIC ++ [byte.of_Z VERSION] ++ repeat Byte.x00 7
             ++ le_split 8 (len header) ++ header ++ blocks)
    = Ok (f, (Z.land sig 0xFFFFFFFF, rows, es)).
Proof.
  intros B R.
  set (content := MAGIC ++ _).
  unfold read_prefix_and_header.
  rewrite (read_exact_at content [] MAGIC
             ([byte.of_Z VERSION] ++ repeat Byte.x00 7
                ++ le_split 8 (len header) ++ header ++ blocks))
    by reflexivity.
  cbv beta iota delta [bind]. rewrite bytes_eqb_refl. cbn [negb].
  rewrite (read_exact_at content MAGIC [byte.of_Z VERSION]
             (repeat Byte.x00 7 ++ le_split 8 (len header) ++ header ++ blocks))
    by reflexivity.
  rewrite (read_exact_at content (MAGIC ++ [byte.of_Z VERSION])
             (repeat Byte.x00 7) (le_split 8 (len header) ++ header ++ blocks))
    by reflexivity.
  rewrite (read_exact_at content
             (MAGIC ++ [byte.of_Z VERSION] ++ repeat Byte.x00 7)
             (le_split 8 (len header)) (header ++ blocks));
    [| reflexivity | reflexivity
     | unfold len; rewrite length_le_split; reflexivity].
  assert (U : unpack_u64 (le_split 8 (len header)) = Ok (len header)).
  { apply unpack_pack_unsigned. apply pack_unsigned_in_range.
    pose proof (len_nonneg header). change (8 * Z.of_nat 8) with 64. lia. }
  rewrite U.
  rewrite (read_exact_at content
             (MAGIC ++ [byte.of_Z VERSION] ++ repeat Byte.x00 7
                    ++ le_split 8 (len header))
             header blocks);
    [| subst content; rewrite <- !app_assoc; reflexivity
     | rewrite !length_app, length_le_split; reflexivity
     | reflexivity].
  rewrite (parse_build_header _ _ _ _ B). eexists. reflexivity.
Qed.

Lemma parsers_nil (t n : Z) (parser : bytes -> Z -> result (list value))
    (col' : list value) :
  _PARSERS t = Some parser -> parser [] n = Ok col' -> col' = [].
Proof.
  unfold _PARSERS.
  destruct (t =? 0); [|destruct (t =? 1); [|destruct (t =? 2)]];
    intros E; inv E.
  - unfold parse_int32_block. change (len (@nil byte)) with 0.
    unfold SIZE_I32.
    destruct (Z.eqb_spec 0 (n * 4)); [|discriminate]. cbn [negb].
    replace n with 0 by lia. cbn. congruence.
  - unfold parse_float64_block. change (len (@nil byte)) with 0.
    unfold SIZE_F64.
    destruct (Z.eqb_spec 0 (n * 8)); [|discriminate]. cbn [negb].
    replace n with 0 by lia. cbn. congruence.
  - unfold parse_string_block. change (len (@nil byte)) with 0.
    unfold SIZE_U32.
    destruct (Z.ltb_spec 0 ((n + 1) * 4)); [discriminate|].
    replace (Z.to_nat (n + 1)) with 0%nat by lia. cbn. discriminate.
Qed.

Lemma read_columns_spec (content : bytes) (sel : list column_entry) :
  forall cols' f acc,
    f_content f = content ->
    Forall2 (readable content) sel cols' ->
    read_columns sel f acc = Ok (acc ++ combine (map col_name sel) cols').
Proof.
  induction sel as [|e sel IH]; intros cols' f acc C F.
  - inv F. cbn. rewrite app_nil_r. reflexivity.
  - inversion F as [|e0 col' sel0 cols0 R F']; subst. clear F.
    destruct R as (unc & parser & (pre & post & Hc & Ho & Hcs & Hus) & Hp & Hv).
    cbn [read_columns map combine]. cbv zeta.
    destruct ((col_comp_size e =? 0) && (col_uncomp_size e =? 0)) eqn:Z0.
    + apply andb_true_iff in Z0. destruct Z0 as [_ Z0].
      apply Z.eqb_eq in Z0. rewrite Z0 in Hus.
      assert (unc = []) as -> by (destruct unc; [reflexivity | discriminate]).
      rewrite (parsers_nil _ _ _ _ Hp Hv).
      rewrite (IH cols0 f _ eq_refl F'), <- app_assoc. reflexivity.
    + unfold f_seek. rewrite Ho, Hcs.
      rewrite (read_exact_at (f_content f) pre (zlib_compress unc) post);
        [| exact Hc | unfold len; lia | reflexivity].
      cbv beta iota delta [bind].
      rewrite zlib_decompress_compress, Hus, Z.eqb_refl. cbn [negb].
      rewrite Hp, Hv.
      rewrite (IH cols0 (File (f_content f) _) _ eq_refl F'), <- app_assoc.
      reflexivity.
Qed.

Lemma stored_block_readable (content : bytes) (col : list value)
    (e : column_entry) :
  col_num_values e = len col ->
  stored_block content col e ->
  exists col',
    readable content e col'
    /\ Forall2 (fun v v' => stored_value (col_type e) v = Ok v') col col'.
Proof.
  intros N (ser & unc & S & U & B). unfold _SERIALIZERS in S.
  destruct (Z.eqb_spec (col_type e) 0) as [T0|T0];
    [|destruct (Z.eqb_spec (col_type e) 1) as [T1|T1];
      [|destruct (Z.eqb_spec (col_type e) 2) as [T2|T2]]];
    inv S.
  - destruct (parse_serialize_int32 _ _ U) as (col' & F & P).
    exists col'. rewrite T0. split; [|exact F].
    exists unc, parse_int32_block. rewrite N, T0. auto.
  - destruct (parse_serialize_float64 _ _ U) as (col' & F & P).
    exists col'. rewrite T1. split; [|exact F].
    exists unc, parse_float64_block. rewrite N, T1. auto.
  - destruct (parse_serialize_string _ _ U) as (col' & F & P).
    exists col'. rewrite T2. split; [|exact F].
    exists unc, parse_string_block. rewrite N, T2. auto.
Qed.

Lemma stored_value_valid (t : Z) (v v' : value) :
  valid_value t v = true -> stored_value t v = Ok v' -> v' = v.
Proof.
  unfold valid_value, stored_value, TYPE_INT32, TYPE_FLOAT64, TYPE_STRING.
  destruct v as [|z|f|s]; [discriminate| | |].
  - destruct (Z.eqb_spec t 0) as [->|]; [|discriminate]. intros _.
    cbn [Z.eqb]. rewrite py_int_int. cbn [bind]. congruence.
  - destruct (Z.eqb_spec t 1) as [->|]; [|discriminate]. cbn [andb Z.eqb].
    intros V. rewrite py_float_float. cbn [bind]. intros E.
    apply Ok_inj in E. subst v'. destruct f as [bits]. cbn [f64_bits] in *.
    rewrite Z.mod_small; [reflexivity|].
    apply andb_true_iff in V. lia.
  - destruct (Z.eqb_spec t 2) as [->|]; [|discriminate]. intros _.
    cbn [Z.eqb Pos.eqb]. congruence.
Qed.

Lemma stored_column_valid (t : Z) (col col' : list value) :
  valid_column t col = true ->
  Forall2 (fun v v' => stored_value t v = Ok v') col col' -> col' = col.
Proof.
  intros V F. induction F as [|v v' col col' H F IH]; [reflexivity|].
  cbn in V. apply andb_true_iff in V. destruct V as [V1 V2].
  f_equal; [eapply stored_value_valid; eauto | auto].
Qed.

End ReaderLayout.

(** ** read_cstm on a selection whose blocks are readable *)

Section ReadAssembly.
Context {zlib : Zlib} {builtins : PyBuiltins}.
Import byte_utils header_utils column_serializers writer reader.

Lemma check_lengths_same (cols' : list (list value)) (m : nat) :
  Forall (fun c => length c = m) cols' ->
  check_lengths cols' (Z.of_nat m) = Ok tt.
Proof.
  induction 1 as [|c cols' H F IH]; [reflexivity|].
  cbn [check_lengths]. unfold len. rewrite H, Z.eqb_refl. exact IH.
Qed.

Lemma map_fst_combine {A B : Type} (a : list A) :
  forall b : list B, length a = length b -> map fst (combine a b) = a.
Proof.
  induction a as [|x a IH]; intros [|y b] L; try discriminate; [reflexivity|].
  cbn. f_equal. apply IH. simpl in L. lia.
Qed.

Lemma map_snd_combine {A B : Type} (a : list A) :
  forall b : list B, length a = length b -> map snd (combine a b) = b.
Proof.
  induction a as [|x a IH]; intros [|y b] L; try discriminate; [reflexivity|].
  cbn. f_equal. apply IH. simpl in L. lia.
Qed.

Lemma read_cstm_selected (content : bytes) (f : file) (sig rows : Z)
    (metas selected : list column_entry)
    (select_columns : option (list pystr))
    (cols' : list (list value)) (m : nat) :
  read_prefix_and_header content = Ok (f, (sig, rows, metas)) ->
  match select_columns with
  | None => Ok metas
  | Some names => select_loop names (name_to_meta metas) []
  end = Ok selected ->
  Forall2 (readable content) selected cols' ->
  Forall (fun c => length c = m) cols' ->
  read_cstm content select_columns
  = Ok (match selected with
        | [] => ([], [])
        | _ => (map col_name selected, build_rows cols' m)
        end).
Proof.
  intros H S R L. unfold read_cstm. rewrite H. cbv beta iota delta [bind].
  rewrite S.
  rewrite (read_columns_spec content selected cols' f []
             (read_prefix_and_header_content _ _ _ H) R).
  cbn [app]. pose proof (Forall2_length R) as Len.
  destruct selected as [|e sel]; destruct cols' as [|c cs]; try discriminate;
    [reflexivity|].
  cbn [map combine length Nat.eqb].
  rewrite map_fst_combine, map_snd_combine
    by (rewrite length_map; simpl in Len; lia).
  cbn [nth fst snd]. inversion L as [|c0 cs0 Hc Hcs]; subst.
  rewrite (check_lengths_same (c :: cs) (length c) L). reflexivity.
Qed.

Lemma stored_columns_readable (content : bytes) (cols : list (list value))
    (es : list column_entry) :
  Forall2 (fun col e => col_num_values e = len col
                        /\ stored_block content col e) cols es ->
  exists cols',
    Forall3 (fun col e col' =>
               readable content e col'
               /\ Forall2 (fun v v' => stored_value (col_type e) v = Ok v')
                          col col') cols es cols'.
Proof.
  induction 1 as [|col e cols es [N S] F (cols' & IH)].
  - exists []. constructor.
  - destruct (stored_block_readable _ _ _ N S) as (col' & R & V).
    exists (col' :: cols'). constructor; auto.
Qed.

Lemma Forall3_23 {A B C : Type} (R : A -> B -> C -> Prop) (P : B -> C -> Prop)
    (l : list A) (l' : list B) (l'' : list C) :
  (forall x y z, R x y z -> P y z) ->
  Forall3 R l l' l'' -> Forall2 P l' l''.
Proof. intros H. induction 1; constructor; eauto. Qed.

Lemma Forall3_nth_error {A B C : Type} (R : A -> B -> C -> Prop)
    (l : list A) (l' : list B) (l'' : list C) :
  Forall3 R l l' l'' ->
  forall i y, nth_error l' i = Some y ->
    exists x z, nth_error l i = Some x /\ nth_error l'' i = Some z /\ R x y z.
Proof.
  induction 1 as [|x y z l l' l'' H F IH]; intros [|i] y' E; try discriminate.
  - inv E. exists x, z. auto.
  - simpl in E. apply IH in E. exact E.
Qed.

End ReadAssembly.

(** ** Round trip *)

Section RoundTrip.
Context {zlib : Zlib} {builtins : PyBuiltins}.
Import byte_utils header_utils column_serializers writer reader.

Lemma Forall3_valid_columns (content : bytes) (cols cols' : list (list value))
    (es : list column_entry) :
  Forall3 (fun col e col' =>
             readable content e col'
             /\ Forall2 (fun v v' => stored_value (col_type e) v = Ok v')
                        col col') cols es cols' ->
  Forall2 (fun t col => valid_column t col = true) (map col_type es) cols ->
  cols' = cols.
Proof.
  induction 1 as [|col e col' cols es cols' [_ V] F IH]; intros W;
    [reflexivity|].
  cbn [map] in W. inversion W as [|t c ts cs Hv Hvs]; subst.
  f_equal; [eapply stored_column_valid; eauto | auto].
Qed.

Lemma Forall_length_of_len {A : Type} (cols : list (list A)) (total : Z) :
  Forall (fun col => len col = total) cols ->
  Forall (fun col => length col = Z.to_nat total) cols.
Proof.
  apply Forall_impl. intros col <-. unfold len. lia.
Qed.

(** [transpose] is the transpose: of columns of [m] elements each it makes
    [m] rows, and row [i] holds element [i] of every column, in column
    order. *)
Lemma transpose_rows (cols : list (list value)) (m : nat) :
  cols <> [] -> Forall (fun c => length c = m) cols ->
  length (transpose cols) = m
  /\ forall i, (i < m)%nat ->
       nth i (transpose cols) [] = map (fun c => nth i c VNone) cols.
Proof.
  intros N F. destruct cols as [|c0 cols]; [contradiction|].
  inversion F as [|c cs H0 Hs]; subst. cbn [transpose].
  split; [rewrite length_map, length_seq; reflexivity|].
  intros i Hi.
  rewrite (nth_indep _ [] (map (fun c => nth 0 c VNone) (c0 :: cols)))
    by (rewrite length_map, length_seq; exact Hi).
  rewrite (map_nth (fun i => map (fun c => nth i c VNone) (c0 :: cols))
                   (seq 0 (length c0)) 0%nat i).
  rewrite seq_nth by exact Hi. reflexivity.
Qed.

(** C1.  Columns of valid per-type values that [write_cstm] writes
    successfully are read back by [read_cstm] with no selection as the
    original names, in declaration order, and the row-major transpose of the
    original columns, every value identical to the one written. *)
Theorem write_read_roundtrip (fs : option bytes) (names : list pystr)
    (types : list Z) (cols : list (list value)) (sig : Z) (content : bytes) :
  Forall2 (fun t col => valid_column t col = true) types cols ->
  write_cstm fs names types cols sig = (Some content, Ok tt) ->
  read_cstm content None = Ok (names, transpose cols).
Proof.
  intros V W.
  destruct (write_cstm_ok _ _ _ _ _ _ W)
    as (total_rows & es & header & blocks & L1 & L2 & HF & B & R & C
        & Hn & Ht & S).
  destruct (read_prefix_and_header_written _ _ _ _ blocks B R) as [f H].
  rewrite <- C in H.
  destruct (stored_columns_readable _ _ _ S) as [cols' F3].
  assert (cols' = cols) as ->.
  { eapply Forall3_valid_columns; [exact F3 | rewrite Ht; exact V]. }
  rewrite (read_cstm_selected content f _ _ es es None cols
             (Z.to_nat total_rows) H eq_refl).
  - rewrite Hn. destruct es as [|e es]; inversion F3; subst; [reflexivity|].
    cbn [transpose]. unfold build_rows.
    inversion HF as [|c0 cs0 Hc Hcs]; subst. unfold len. rewrite Nat2Z.id.
    reflexivity.
  - eapply Forall3_23; [|exact F3]. cbv beta. tauto.
  - apply Forall_length_of_len. exact HF.
Qed.

End RoundTrip.

Section RoundTripExample.
#[local] Existing Instance concrete.stored_zlib.
#[local] Existing Instance concrete.same_type_builtins.
Import concrete.

(** The example scenario of the specification, through C1. *)
Lemma write_read_roundtrip_example :
  reader.read_cstm example_file None = Ok (example_names, example_rows).
Proof.
  apply (write_read_roundtrip None example_names example_types
           example_columns 0 example_file).
  - repeat constructor.
  - vm_compute. reflexivity.
Defined.

End RoundTripExample.

(** ** Header length *)

Section HeaderLength.
Import byte_utils header_utils.

Lemma build_entries_length (es1 es2 : list column_entry) :
  Forall2 same_schema es1 es2 ->
  forall buf1 buf2 h1 h2,
    length buf1 = length buf2 ->
    build_entries es1 buf1 = Ok h1 ->
    build_entries es2 buf2 = Ok h2 ->
    length h1 = length h2.
Proof.
  induction 1 as [|e1 e2 es1 es2 (Hn & _ & _) F IH];
    intros buf1 buf2 h1 h2 L E1 E2.
  - apply Ok_inj in E1, E2. congruence.
  - cbn [build_entries] in E1, E2. rewrite <- Hn in E2.
    destruct (utf8.encode (col_name e1)) as [name_b|]; [|discriminate].
    cbn [bind] in E1, E2. cbv zeta in E1, E2.
    destruct (len name_b >=? 2 ^ 16); [discriminate|].
    unfold pack_u16, pack_u8, pack_u64 in E1, E2.
    repeat bind_inv.
    repeat match goal with
    | P : pack_unsigned _ _ = Ok _ |- _ => apply pack_unsigned_length in P
    end.
    eapply IH; [|exact E1|exact E2].
    rewrite !length_app. lia.
Qed.

(** When a header is encodable, so is the header of the same entries with
    any offsets and sizes that fit the unsigned 64-bit fields. *)
Lemma build_entries_fields_in_range (es1 es2 : list column_entry) :
  Forall2 (fun e1 e2 =>
             col_name e1 = col_name e2 /\ col_type e1 = col_type e2
             /\ col_flags e1 = col_flags e2
             /\ col_num_values e1 = col_num_values e2
             /\ 0 <= col_offset e2 < 2 ^ 64
             /\ 0 <= col_comp_size e2 < 2 ^ 64
             /\ 0 <= col_uncomp_size e2 < 2 ^ 64) es1 es2 ->
  forall buf1 buf2 h1,
    build_entries es1 buf1 = Ok h1 ->
    exists h2, build_entries es2 buf2 = Ok h2.
Proof.
  induction 1 as [|e1 e2 es1 es2 (Hn & Ht & Hf & Hv & Ro & Rc & Ru) F IH];
    intros buf1 buf2 h1 E1.
  - eexists. reflexivity.
  - cbn [build_entries] in E1 |- *. rewrite <- Hn, <- Ht, <- Hf, <- Hv.
    destruct (utf8.encode (col_name e1)) as [name_b|]; [|discriminate].
    cbn [bind] in E1 |- *. cbv zeta in E1 |- *.
    destruct (len name_b >=? 2 ^ 16); [discriminate|].
    unfold pack_u16, pack_u8, pack_u64 in E1 |- *.
    do 4 (bind_inv;
          match goal with
          | P : pack_unsigned _ _ = Ok _ |- _ =>
            rewrite P; clear P; cbn [bind]
          end).
    rewrite !pack_unsigned_in_range by (change (8 * Z.of_nat 8) with 64; lia).
    cbn [bind]. repeat bind_inv. eapply IH. exact E1.
Qed.

(** C2.  Two lists of column entries with the same names, types and element
    counts, encoded with the same schema signature and row count, give
    headers of the same byte length whatever their offset, comp_size and
    uncomp_size fields hold, all-zero placeholders included. *)
Theorem build_header_length_invariant (schema_signature total_rows : Z)
    (es1 es2 : list column_entry) (h1 h2 : bytes) :
  Forall2 same_schema es1 es2 ->
  build_header schema_signature total_rows es1 = Ok h1 ->
  build_header schema_signature total_rows es2 = Ok h2 ->
  len h1 = len h2.
Proof.
  intros F E1 E2. unfold build_header in E1, E2. cbv zeta in E1, E2.
  repeat bind_inv.
  unfold len. f_equal. eapply build_entries_length; [exact F| |exact E1|exact E2].
  apply pack_unsigned_length in E, E0, E3, E4, E5, E6.
  rewrite !length_app. lia.
Qed.

(** A placeholder header and a final one, through C2. *)
Lemma build_header_length_invariant_example :
  exists h1 h2,
    build_header 7 3 [Entry (concrete.str "id") 0 0 3 0 0 0;
                      Entry (concrete.str "name") 2 0 3 0 0 0] = Ok h1
    /\ build_header 7 3 [Entry (concrete.str "id") 0 0 3 153 14 12;
                         Entry (concrete.str "name") 2 0 3 167 33 31] = Ok h2
    /\ len h1 = len h2.
Proof.
  eexists. eexists. split; [vm_compute; reflexivity|].
  split; [vm_compute; reflexivity|].
  eapply (build_header_length_invariant 7 3
            [Entry (concrete.str "id") 0 0 3 0 0 0;
             Entry (concrete.str "name") 2 0 3 0 0 0]
            [Entry (concrete.str "id") 0 0 3 153 14 12;
             Entry (concrete.str "name") 2 0 3 167 33 31]).
  - repeat constructor.
  - vm_compute. reflexivity.
  - vm_compute. reflexivity.
Defined.

End HeaderLength.

(** ** The two-phase header *)

Section TwoPhaseHeader.
Context {zlib : Zlib} {builtins : PyBuiltins}.
Import byte_utils header_utils writer.

Lemma same_schema_of_maps (es es' : list column_entry) :
  map col_name es' = map col_name es ->
  map col_type es' = map col_type es ->
  map col_num_values es' = map col_num_values es ->
  Forall2 same_schema es es'.
Proof.
  revert es'. induction es as [|e es IH]; intros [|e' es'] Hn Ht Hv;
    try discriminate; [constructor|].
  cbn [map] in Hn, Ht, Hv.
  injection Hn as Hn1 Hn2. injection Ht as Ht1 Ht2. injection Hv as Hv1 Hv2.
  constructor; [unfold same_schema; auto | apply IH; assumption].
Qed.

(** The header re-encoded after the blocks are written has the length of the
    placeholder: the consistency check of [write_cstm] cannot fire. *)
Lemma final_header_length (names : list pystr) (types : list Z)
    (cols : list (list value)) (sig total_rows : Z) (f f' : file)
    (final_entries : list column_entry) (initial_header final_header : bytes) :
  length names = length types -> length types = length cols -> at_end f ->
  build_header sig total_rows (make_entries names types cols)
  = Ok initial_header ->
  write_blocks (make_entries names types cols) 0 cols f
  = (f', Ok final_entries) ->
  build_header sig total_rows final_entries = Ok final_header ->
  len final_header = len initial_header.
Proof.
  intros L1 L2 A B0 W B1.
  destruct (make_entries_spec names types cols L1 L2) as (ML & _).
  destruct (write_blocks_spec cols _ 0%nat f f' final_entries A ML W)
    as (blocks & _ & _ & Hn & Ht & Hv & _).
  pose proof (same_schema_of_maps _ _ Hn Ht Hv) as F.
  unfold build_header in B0, B1. cbv zeta in B0, B1. repeat bind_inv.
  unfold len. f_equal. symmetry.
  eapply build_entries_length; [exact F| |exact B0|exact B1].
  apply pack_unsigned_length in E, E0, E1, E2, E3, E4.
  rewrite !length_app. lia.
Qed.

End TwoPhaseHeader.

(** ** Exact block lengths and empty columns *)

Section Blocks.
Context {builtins : PyBuiltins}.
Import byte_utils column_serializers.

Lemma parse_int32_loop_total (data : bytes) (n : nat) :
  forall off out,
    0 <= off -> off + 4 * Z.of_nat n <= len data ->
    parse_int32_loop n data off out
    = Ok (out ++ map (fun i =>
                        let u := le_combine
                                   (slice data (off + 4 * Z.of_nat i)
                                          (off + 4 * Z.of_nat i + 4)) in
                        VInt (if u <? 2 ^ 31 then u else u - 2 ^ 32))
                     (seq 0 n)).
Proof.
  induction n as [|n IH]; intros off out H0 H1.
  - cbn. rewrite app_nil_r. reflexivity.
  - cbn [parse_int32_loop]. unfold SIZE_I32. unfold unpack_i32 at 1.
    rewrite slice_length by lia.
    replace (Z.to_nat (off + 4 - off)) with 4%nat by lia.
    cbn [Nat.eqb bind]. cbv zeta. rewrite IH by lia.
    rewrite <- app_assoc. f_equal. f_equal.
    cbn [seq map app]. f_equal.
    + replace (off + 4 * Z.of_nat 0) with off by lia. reflexivity.
    + rewrite <- seq_shift, map_map. apply map_ext. intros i.
      replace (off + 4 + 4 * Z.of_nat i) with (off + 4 * Z.of_nat (S i))
        by lia.
      reflexivity.
Qed.

Lemma int32_at_range (data : bytes) (i : nat) :
  4 * Z.of_nat i + 4 <= len data -> is_int32 (VInt (int32_at data i)).
Proof.
  intros H. exists (int32_at data i). split; [reflexivity|].
  apply (unpack_i32_range (slice data (4 * Z.of_nat i) (4 * Z.of_nat i + 4))).
  unfold unpack_i32. rewrite slice_length by lia.
  replace (Z.to_nat (4 * Z.of_nat i + 4 - 4 * Z.of_nat i)) with 4%nat by lia.
  reflexivity.
Qed.

(** C7.  [parse_int32_block] returns exactly when the block holds
    [4 * num_values] bytes, and then it returns [num_values] values, each a
    signed 32-bit integer, value [i] decoded from bytes [4i .. 4i+4); for
    every other block length it raises the block size [ValueError].  The
    result is never shorter or longer than asked. *)
Theorem parse_int32_block_exact (data : bytes) (num_values : Z) :
  match parse_int32_block data num_values with
  | Ok vals =>
    len data = 4 * num_values
    /\ vals = map (fun i => VInt (int32_at data i))
                  (seq 0 (Z.to_nat num_values))
    /\ len vals = num_values
    /\ Forall is_int32 vals
  | Err e =>
    len data <> 4 * num_values
    /\ e = ValueError (MsgInt32BlockSize (num_values * 4) (len data))
  end.
Proof.
  unfold parse_int32_block, SIZE_I32.
  destruct (Z.eqb_spec (len data) (num_values * 4)) as [E|E]; cbn [negb].
  - pose proof (len_nonneg data).
    rewrite parse_int32_loop_total by lia. cbn [app Z.add].
    split; [lia|]. split; [reflexivity|]. split.
    + unfold len. rewrite length_map, length_seq. lia.
    + apply Forall_forall. intros v Hv. apply in_map_iff in Hv.
      destruct Hv as (i & <- & Hi). apply in_seq in Hi.
      apply int32_at_range. lia.
  - split; [lia | reflexivity].
Qed.

(** C9.  A zero-row column of each type serializes to a block that parses,
    with [num_values = 0], to the empty list; for STRING the block is the
    four bytes of [pack_u32(0)], one zero offset and no data. *)
Theorem empty_column_blocks :
  (serialize_int32_column [] = Ok []
   /\ parse_int32_block [] 0 = Ok [])
  /\ (serialize_float64_column [] = Ok []
      /\ parse_float64_block [] 0 = Ok [])
  /\ (serialize_string_column [] = pack_u32 0
      /\ pack_u32 0 = Ok [Byte.x00; Byte.x00; Byte.x00; Byte.x00]
      /\ parse_string_block [Byte.x00; Byte.x00; Byte.x00; Byte.x00] 0
         = Ok []).
Proof. repeat split; reflexivity. Qed.

(** The same through the dispatch tables of the writer and the reader: for
    every type id that has a serializer and a parser. *)
Lemma empty_column_dispatch (t : Z) (ser : list value -> result bytes)
    (parser : bytes -> Z -> result (list value)) :
  writer._SERIALIZERS t = Some ser -> reader._PARSERS t = Some parser ->
  exists block, ser [] = Ok block /\ parser block 0 = Ok [].
Proof.
  unfold writer._SERIALIZERS, reader._PARSERS.
  destruct (t =? 0); [|destruct (t =? 1); [|destruct (t =? 2)]];
    intros S P; inv S; inv P; eexists; split; reflexivity.
Qed.

End Blocks.

(** ** Validation before the file is opened *)

Section Validation.
Context {zlib : Zlib} {builtins : PyBuiltins}.
Import byte_utils header_utils writer.

Lemma check_column_lengths_err (cols : list (list value)) :
  forall i total_rows e,
    check_column_lengths cols i total_rows = Err e ->
    exists j l, e = ValueError (MsgColumnLength j l total_rows).
Proof.
  induction cols as [|c cols IH]; intros i t e E; [discriminate|].
  cbn [check_column_lengths] in E.
  destruct (negb (len c =? t)).
  - inv E. eauto.
  - eapply IH. exact E.
Qed.

(** C6.  When two of the value lists differ in length, [write_cstm] raises a
    [ValueError] and the output path is left as it was: the file is not
    opened, and nothing is written. *)
Theorem write_cstm_unequal_lengths (fs : option bytes) (names : list pystr)
    (types : list Z) (cols : list (list value)) (sig : Z)
    (c1 c2 : list value) :
  In c1 cols -> In c2 cols -> length c1 <> length c2 ->
  exists m, write_cstm fs names types cols sig = (fs, Err (ValueError m)).
Proof.
  intros I1 I2 N. unfold write_cstm.
  destruct (Nat.eqb_spec (length names) (length types)) as [L1|];
    [|eexists; reflexivity].
  destruct (Nat.eqb_spec (length types) (length cols)) as [L2|];
    [|eexists; reflexivity].
  cbn [andb negb]. cbv zeta.
  assert (G : (len names >? 0) = true).
  { apply Z.gtb_lt. unfold len. destruct cols; [contradiction|].
    simpl in L2. lia. }
  rewrite G.
  destruct (check_column_lengths cols 0 (len (nth 0 cols []))) as [[]|e] eqn:C.
  - exfalso. apply check_column_lengths_ok in C.
    rewrite Forall_forall in C.
    pose proof (C _ I1) as H1. pose proof (C _ I2) as H2.
    unfold len in *. lia.
  - cbn [bind]. destruct (check_column_lengths_err _ _ _ _ C) as (j & l & ->).
    eexists. reflexivity.
Qed.

End Validation.

Section ValidationExample.
#[local] Existing Instance concrete.stored_zlib.
#[local] Existing Instance concrete.same_type_builtins.
Import concrete.

(** A one-element and an empty column, through C6: the path stays absent. *)
Lemma write_cstm_unequal_lengths_example :
  exists m,
    writer.write_cstm None [str "a"; str "b"] [0; 0] [[VInt 1]; []] 0
    = (None, Err (ValueError m)).
Proof.
  apply (write_cstm_unequal_lengths None [str "a"; str "b"] [0; 0]
           [[VInt 1]; []] 0 [VInt 1] []).
  - simpl. auto.
  - simpl. auto.
  - simpl. lia.
Defined.

End ValidationExample.

(** ** Column selection *)

Section Selection.
Context {zlib : Zlib}.
Import byte_utils header_utils reader.

Lemma dict_get_set {V : Type} (d : list (pystr * V)) (k n : pystr) (v : V) :
  dict_get (dict_set d k v) n
  = if pystr_eqb k n then Some v else dict_get d n.
Proof.
  induction d as [|[k' v'] d IH]; cbn [dict_set dict_get].
  - reflexivity.
  - destruct (pystr_eqb k' k) eqn:K; cbn [dict_get].
    + apply pystr_eqb_eq in K. subst k'.
      destruct (pystr_eqb k n); reflexivity.
    + destruct (pystr_eqb k' n) eqn:N.
      * apply pystr_eqb_eq in N. subst k'.
        destruct (pystr_eqb k n) eqn:K'; [|reflexivity].
        apply pystr_eqb_eq in K'. subst k. rewrite pystr_eqb_refl in K.
        discriminate.
      * exact IH.
Qed.

(** The dictionary of names resolves a name to the last column bearing it. *)
Lemma dict_get_fold (metas : list column_entry) (n : pystr) :
  forall d,
    dict_get (fold_left (fun d col => dict_set d (col_name col) col) metas d) n
    = match last_index n (map col_name metas) with
      | Some i => nth_error metas i
      | None => dict_get d n
      end.
Proof.
  induction metas as [|e metas IH]; intros d; [reflexivity|].
  cbn [fold_left map last_index]. rewrite IH.
  destruct (last_index n (map col_name metas)) as [i|]; [reflexivity|].
  rewrite dict_get_set. destruct (pystr_eqb (col_name e) n); reflexivity.
Qed.

Lemma dict_get_name_to_meta (metas : list column_entry) (n : pystr) :
  dict_get (name_to_meta metas) n
  = match last_index n (map col_name metas) with
    | Some i => nth_error metas i
    | None => None
    end.
Proof. unfold name_to_meta. rewrite dict_get_fold. reflexivity. Qed.

Lemma last_index_None (n : pystr) (names : list pystr) :
  last_index n names = None <-> ~ In n names.
Proof.
  induction names as [|x names IH]; cbn [last_index In]; [tauto|].
  destruct (last_index n names) as [i|].
  - split; [discriminate|]. intros H. exfalso. apply H. right.
    destruct (in_dec (list_eq_dec Z.eq_dec) n names) as [I|I]; [exact I|].
    apply IH in I. discriminate.
  - destruct (pystr_eqb x n) eqn:E.
    + apply pystr_eqb_eq in E. split; [discriminate | intros H; tauto].
    + apply pystr_eqb_neq in E. split; [|reflexivity]. intros _ [H|H]; [tauto|].
      apply IH in H; auto.
Qed.

Lemma last_index_Some (n : pystr) (names : list pystr) (i : nat) :
  last_index n names = Some i -> nth_error names i = Some n.
Proof.
  revert i. induction names as [|x names IH]; intros i; cbn [last_index];
    [discriminate|].
  destruct (last_index n names) as [j|].
  - intros E. inv E. cbn. auto.
  - destruct (pystr_eqb x n) eqn:E; [|discriminate].
    apply pystr_eqb_eq in E. intros H. inv H. reflexivity.
Qed.

Lemma select_loop_missing (d : list (pystr * column_entry))
    (sel : list pystr) :
  forall acc n,
    In n sel -> dict_get d n = None ->
    exists n',
      In n' sel /\ dict_get d n' = None
      /\ select_loop sel d acc = Err (ValueError (MsgColumnNotFound n')).
Proof.
  induction sel as [|x sel IH]; intros acc n I G; [contradiction|].
  cbn [select_loop]. destruct (dict_get d x) as [col|] eqn:X.
  - destruct I as [->|I]; [congruence|].
    destruct (IH (acc ++ [col]) n I G) as (n' & I' & G' & E).
    exists n'. simpl. auto.
  - exists x. simpl. auto.
Qed.

(** C5.  On a file whose prefix and header parse, a selection naming a
    column that the header does not have makes [read_cstm] raise the
    [ValueError] "Requested column not found" for such a name: the call
    yields no names and no rows. *)
Theorem read_cstm_missing_column (content : bytes) (f : file) (sig rows : Z)
    (metas : list column_entry) (sel : list pystr) (n : pystr) :
  read_prefix_and_header content = Ok (f, (sig, rows, metas)) ->
  In n sel -> ~ In n (map col_name metas) ->
  exists n',
    In n' sel /\ ~ In n' (map col_name metas)
    /\ read_cstm content (Some sel)
       = Err (ValueError (MsgColumnNotFound n')).
Proof.
  intros H I N.
  assert (G : dict_get (name_to_meta metas) n = None).
  { rewrite dict_get_name_to_meta.
    apply last_index_None in N. rewrite N. reflexivity. }
  destruct (select_loop_missing _ sel [] n I G) as (n' & I' & G' & E).
  exists n'. split; [exact I'|]. split.
  - rewrite dict_get_name_to_meta in G'.
    destruct (last_index n' (map col_name metas)) as [i|] eqn:L.
    + apply last_index_Some in L. rewrite nth_error_map in L.
      rewrite G' in L. discriminate.
    + apply last_index_None. exact L.
  - unfold read_cstm. rewrite H. cbv beta iota delta [bind]. rewrite E.
    reflexivity.
Qed.

Lemma read_columns_names (sel : list column_entry) :
  forall f acc res,
    read_columns sel f acc = Ok res ->
    map fst res = map fst acc ++ map col_name sel.
Proof.
  induction sel as [|e sel IH]; intros f acc res E.
  - cbn in E. apply Ok_inj in E. subst. rewrite app_nil_r. reflexivity.
  - cbn [read_columns] in E. cbv zeta in E. cbn [map].
    destruct ((col_comp_size e =? 0) && (col_uncomp_size e =? 0)).
    + apply IH in E. rewrite E, map_app, <- app_assoc. reflexivity.
    + bind_inv. destruct a as [comp_bytes f'].
      destruct (zlib_decompress comp_bytes) as [unc|]; [|discriminate].
      destruct (negb (len unc =? col_uncomp_size e)); [discriminate|].
      destruct (_PARSERS (col_type e)) as [parser|]; [|discriminate].
      bind_inv. apply IH in E. rewrite E, map_app, <- app_assoc. reflexivity.
Qed.

(** C10.  On a file whose prefix and header parse, the empty selection list
    yields no names and no rows, whatever the file holds; with [None] the
    names returned, when the read succeeds, are those of all the columns of
    the header, in header order. *)
Theorem read_cstm_empty_selection (content : bytes) (f : file) (sig rows : Z)
    (metas : list column_entry) :
  read_prefix_and_header content = Ok (f, (sig, rows, metas)) ->
  read_cstm content (Some []) = Ok ([], [])
  /\ forall names table,
      read_cstm content None = Ok (names, table) ->
      names = map col_name metas.
Proof.
  intros H. split.
  - unfold read_cstm. rewrite H. reflexivity.
  - intros names table. unfold read_cstm. rewrite H.
    cbv beta iota delta [bind].
    destruct (read_columns metas f []) as [res|] eqn:R; [|discriminate].
    apply read_columns_names in R. cbn [map app] in R.
    destruct res as [|r res]; cbn [length Nat.eqb].
    + intros E. apply Ok_inj in E. apply pair_equal_spec in E.
      destruct E as [<- _]. exact R.
    + destruct (check_lengths _ _); [|discriminate]. intros E.
      apply Ok_inj in E. apply pair_equal_spec in E. destruct E as [<- _].
      exact R.
Qed.

End Selection.

Section SelectionExample.
#[local] Existing Instance concrete.stored_zlib.
#[local] Existing Instance concrete.same_type_builtins.
Import concrete.

(** A request for the column [nope] of the example file, through C5. *)
Lemma read_cstm_missing_column_example :
  exists n',
    In n' [str "name"; str "nope"]
    /\ ~ In n' (map header_utils.col_name example_header)
    /\ reader.read_cstm example_file (Some [str "name"; str "nope"])
       = Err (ValueError (MsgColumnNotFound n')).
Proof.
  apply (read_cstm_missing_column example_file (File example_file 153) 0 3
           example_header [str "name"; str "nope"] (str "nope")).
  - vm_compute. reflexivity.
  - simpl. auto.
  - vm_compute. intros [E|[E|[E|[]]]]; discriminate E.
Defined.

(** The empty selection on the example file, through C10. *)
Lemma read_cstm_empty_selection_example :
  reader.read_cstm example_file (Some []) = Ok ([], [])
  /\ forall names table,
      reader.read_cstm example_file None = Ok (names, table) ->
      names = map header_utils.col_name example_header.
Proof.
  apply (read_cstm_empty_selection example_file (File example_file 153) 0 3
           example_header).
  vm_compute. reflexivity.
Defined.

End SelectionExample.

(** ** String blocks *)

Section StringBlocks.
Import byte_utils column_serializers.

Lemma decode_err_aux (n : nat) :
  forall b e, (length b <= n)%nat ->
    utf8.decode b = Err e -> e = UnicodeDecodeError.
Proof.
  induction n as [|n IH]; intros b e L E.
  - destruct b; [discriminate | simpl in L; lia].
  - destruct b as [|b0 r0]; [discriminate|]. cbn [utf8.decode] in E.
    cbv zeta in E.
    repeat match type of E with
    | (if ?c then _ else _) = _ => destruct c
    | match ?l with [] => _ | _ :: _ => _ end = _ => destruct l
    | Err _ = Err _ => congruence
    end.
    all: match type of E with
         | bind (utf8.decode ?r) _ = _ =>
           destruct (utf8.decode r) as [s|e'] eqn:D;
             [discriminate E
             | cbn [bind] in E; apply IH in D;
               [congruence | simpl in L; lia]]
         end.
Qed.

Lemma decode_err (b : bytes) (e : exn) :
  utf8.decode b = Err e -> e = UnicodeDecodeError.
Proof. apply (decode_err_aux (length b)). lia. Qed.

Lemma read_offsets_total (data : bytes) (n : nat) :
  forall off acc,
    0 <= off -> off + 4 * Z.of_nat n <= len data ->
    read_offsets n data off acc
    = Ok (acc ++ map (fun i => le_combine
                                 (slice data (off + 4 * Z.of_nat i)
                                        (off + 4 * Z.of_nat i + 4)))
                     (seq 0 n)).
Proof.
  induction n as [|n IH]; intros off acc H0 H1.
  - cbn. rewrite app_nil_r. reflexivity.
  - cbn [read_offsets]. unfold SIZE_U32, unpack_u32.
    rewrite unpack_unsigned_total by (rewrite slice_length; lia).
    cbn [bind]. rewrite IH by lia. rewrite <- app_assoc. f_equal. f_equal.
    cbn [seq map app]. f_equal.
    + f_equal. f_equal; lia.
    + rewrite <- seq_shift, map_map. apply map_ext. intros i.
      f_equal. f_equal; lia.
Qed.

Lemma parse_strings_step (n k : nat) (offsets : list Z) (section : bytes)
    (out : list value) :
  parse_strings (S n) (Z.of_nat k) offsets section out
  = if nth k offsets 0 >? nth (S k) offsets 0
    then Err (ValueError (MsgInvalidOffsets (Z.of_nat k)))
    else s <- utf8.decode (slice section (nth k offsets 0)
                                 (nth (S k) offsets 0)) ;;
         parse_strings n (Z.of_nat (S k)) offsets section (out ++ [VStr s]).
Proof.
  cbn [parse_strings]. rewrite Nat2Z.id.
  replace (Z.to_nat (Z.of_nat k + 1)) with (S k) by lia.
  replace (Z.of_nat k + 1) with (Z.of_nat (S k)) by lia. reflexivity.
Qed.

Lemma parse_strings_ok (offsets : list Z) (section : bytes) (n : nat) :
  forall k out strs,
    (forall i, (k <= i < k + n)%nat -> nth i offsets 0 <= nth (S i) offsets 0) ->
    Forall2 (fun raw s => utf8.decode raw = Ok s)
            (string_slices offsets section k n) strs ->
    parse_strings n (Z.of_nat k) offsets section out
    = Ok (out ++ map VStr strs).
Proof.
  induction n as [|n IH]; intros k out strs M F.
  - inv F. cbn. rewrite app_nil_r. reflexivity.
  - unfold string_slices in F. cbn [seq map] in F.
    inversion F as [|raw s raws ss D F']; subst. clear F.
    rewrite parse_strings_step.
    destruct (Z.gtb_spec (nth k offsets 0) (nth (S k) offsets 0)) as [G|G];
      [specialize (M k); lia|].
    rewrite D. cbn [bind].
    rewrite (IH (S k) _ ss); [rewrite <- app_assoc; reflexivity | | exact F'].
    intros i Hi. apply M. lia.
Qed.

Lemma parse_strings_bad_utf8 (offsets : list Z) (section : bytes) (n : nat) :
  forall k out,
    (forall i, (k <= i < k + n)%nat -> nth i offsets 0 <= nth (S i) offsets 0) ->
    Exists (fun raw => utf8.decode raw = Err UnicodeDecodeError)
           (string_slices offsets section k n) ->
    parse_strings n (Z.of_nat k) offsets section out = Err UnicodeDecodeError.
Proof.
  induction n as [|n IH]; intros k out M X.
  - inv X.
  - unfold string_slices in X. cbn [seq map] in X.
    rewrite parse_strings_step.
    destruct (Z.gtb_spec (nth k offsets 0) (nth (S k) offsets 0)) as [G|G];
      [specialize (M k); lia|].
    destruct (utf8.decode (slice section (nth k offsets 0)
                                 (nth (S k) offsets 0))) as [s|e] eqn:D.
    + cbn [bind]. apply IH; [intros i Hi; apply M; lia|].
      inversion X as [raw raws H|raw raws H]; subst; [congruence | exact H].
    + apply decode_err in D. subst e. reflexivity.
Qed.

Lemma parse_strings_bad_offsets (offsets : list Z) (section : bytes)
    (n : nat) :
  forall k out i,
    (k <= i < k + n)%nat -> nth i offsets 0 > nth (S i) offsets 0 ->
    exists e,
      parse_strings n (Z.of_nat k) offsets section out = Err e
      /\ is_ValueError e = true.
Proof.
  induction n as [|n IH]; intros k out i Hi B; [lia|].
  rewrite parse_strings_step.
  destruct (Z.gtb_spec (nth k offsets 0) (nth (S k) offsets 0)) as [G|G];
    [eexists; split; reflexivity|].
  destruct (utf8.decode (slice section (nth k offsets 0)
                               (nth (S k) offsets 0))) as [s|e] eqn:D.
  - cbn [bind]. apply (IH (S k) _ i); [|exact B].
    assert (i <> k) by (intros ->; lia). lia.
  - apply decode_err in D. subst e. eexists. split; reflexivity.
Qed.

Lemma rev_head_last {A : Type} (l : list A) (d : A) (m : nat) :
  length l = S m -> exists t, rev l = nth m l d :: t.
Proof.
  intros L. destruct (rev l) as [|x t] eqn:R.
  - apply (f_equal (@length A)) in R. rewrite length_rev in R.
    simpl in R. lia.
  - exists t. f_equal.
    pose proof (rev_nth l d (n := 0)) as N. rewrite R, L in N. cbn [nth] in N.
    rewrite N by lia. f_equal. lia.
Qed.

(** A negative element count leaves the offsets list empty, and [offsets[-1]]
    raises. *)
Lemma parse_string_block_negative (data : bytes) (num_values : Z) :
  num_values < 0 -> parse_string_block data num_values = Err IndexError.
Proof.
  intros N. unfold parse_string_block, SIZE_U32.
  pose proof (len_nonneg data).
  destruct (Z.ltb_spec (len data) ((num_values + 1) * 4)); [lia|].
  replace (Z.to_nat (num_values + 1)) with 0%nat by lia. reflexivity.
Qed.

(** C8, as the code has it.  For a block and an element count: a block
    shorter than the offsets table, a final offset beyond the data section,
    or a decreasing pair of consecutive offsets each make
    [parse_string_block] raise an exception of the [ValueError] family.
    When none of these holds, the outcome depends on the bytes between
    consecutive offsets: if each range is valid UTF-8 the result is the list
    of the decoded strings, and if one is not the call raises
    [UnicodeDecodeError]. *)
Theorem parse_string_block_cases (data : bytes) (num_values : Z) :
  0 <= num_values ->
  let need := (num_values + 1) * 4 in
  let offsets := offsets_table data num_values in
  let section := data_section data num_values in
  let last_off := nth (Z.to_nat num_values) offsets 0 in
  let slices := string_slices offsets section 0 (Z.to_nat num_values) in
  (len data < need ->
   parse_string_block data num_values
   = Err (ValueError (MsgStringBlockTooSmall need (len data))))
  /\ (need <= len data -> last_off > len section ->
      parse_string_block data num_values
      = Err (ValueError (MsgLastOffset last_off (len section))))
  /\ (need <= len data ->
      (exists i, (i < Z.to_nat num_values)%nat
                 /\ nth i offsets 0 > nth (S i) offsets 0) ->
      exists e, parse_string_block data num_values = Err e
                /\ is_ValueError e = true)
  /\ (need <= len data -> last_off <= len section ->
      (forall i, (i < Z.to_nat num_values)%nat ->
                 nth i offsets 0 <= nth (S i) offsets 0) ->
      (forall strs,
          Forall2 (fun raw s => utf8.decode raw = Ok s) slices strs ->
          parse_string_block data num_values = Ok (map VStr strs))
      /\ (Exists (fun raw => utf8.decode raw = Err UnicodeDecodeError) slices ->
          parse_string_block data num_values = Err UnicodeDecodeError)).
Proof.
  intros N need offsets section last_off slices.
  assert (Small : len data < need ->
                  parse_string_block data num_values
                  = Err (ValueError (MsgStringBlockTooSmall need (len data)))).
  { intros H. unfold parse_string_block, SIZE_U32. fold need.
    destruct (Z.ltb_spec (len data) need); [reflexivity | lia]. }
  assert (Big : need <= len data ->
                parse_string_block data num_values
                = if last_off >? len section
                  then Err (ValueError (MsgLastOffset last_off (len section)))
                  else parse_strings (Z.to_nat num_values) 0 offsets section []).
  { intros H. unfold parse_string_block, SIZE_U32. fold need.
    destruct (Z.ltb_spec (len data) need); [lia|].
    rewrite read_offsets_total by (subst need; lia).
    cbn [bind app Z.add]. fold (offsets_table data num_values). fold offsets.
    destruct (rev_head_last offsets 0 (Z.to_nat num_values)) as [t R].
    { subst offsets. unfold offsets_table. rewrite length_map, length_seq. lia. }
    rewrite R. reflexivity. }
  split; [exact Small|]. split; [|split].
  - intros H G. rewrite (Big H).
    destruct (Z.gtb_spec last_off (len section)); [reflexivity | lia].
  - intros H (i & Hi & B). rewrite (Big H).
    destruct (Z.gtb_spec last_off (len section));
      [eexists; split; reflexivity|].
    apply (parse_strings_bad_offsets offsets section _ 0%nat [] i);
      [lia | exact B].
  - intros H G M. rewrite (Big H).
    destruct (Z.gtb_spec last_off (len section)); [lia|]. split.
    + intros strs F.
      apply (parse_strings_ok offsets section _ 0%nat [] strs); [|exact F].
      intros i Hi. apply M. lia.
    + intros X.
      apply (parse_strings_bad_utf8 offsets section _ 0%nat []); [|exact X].
      intros i Hi. apply M. lia.
Qed.

(** Two strings, [ab] and [c], through C8. *)
Lemma parse_string_block_cases_example :
  parse_string_block
    (le_split 4 0 ++ le_split 4 2 ++ le_split 4 3
       ++ [Byte.x61; Byte.x62; Byte.x63]) 2
  = Ok [VStr [0x61; 0x62]; VStr [0x63]].
Proof.
  pose proof (parse_string_block_cases
                (le_split 4 0 ++ le_split 4 2 ++ le_split 4 3
                   ++ [Byte.x61; Byte.x62; Byte.x63]) 2 ltac:(lia)) as H.
  cbv zeta in H. destruct H as (_ & _ & _ & H).
  destruct H as [H _].
  - vm_compute. discriminate.
  - vm_compute. discriminate.
  - intros [|[|i]] Hi; [vm_compute; discriminate .. | simpl in Hi; lia].
  - apply (H [[0x61; 0x62]; [0x63]]). repeat constructor.
Defined.

(** Against C8 as stated: a block that violates none of its three
    conditions and still is not parsed: one string of one byte, [0xFF], which is not UTF-8.  The block
    has 9 bytes (8 are needed), its offsets are [0; 1] and its data section
    has 1 byte. *)
Lemma parse_string_block_invalid_utf8 :
  let data := le_split 4 0 ++ le_split 4 1 ++ [Byte.xff] in
  len data = 9
  /\ offsets_table data 1 = [0; 1]
  /\ len (data_section data 1) = 1
  /\ parse_string_block data 1 = Err UnicodeDecodeError
  /\ ~ (exists strs, parse_string_block data 1 = Ok strs).
Proof.
  cbv zeta. repeat split; try (vm_compute; reflexivity).
  intros [strs H]. vm_compute in H. discriminate H.
Qed.

End StringBlocks.

(** ** Descriptor sizes of a written file *)

Section DescriptorSizes.
Context {zlib : Zlib} {builtins : PyBuiltins}.
Import byte_utils header_utils column_serializers writer reader.

Lemma serializer_empty (t : Z) (ser : list value -> result bytes)
    (unc : bytes) :
  _SERIALIZERS t = Some ser -> ser [] = Ok unc -> unc = empty_block t.
Proof.
  unfold _SERIALIZERS, empty_block, TYPE_STRING.
  destruct (Z.eqb_spec t 0) as [->|];
    [|destruct (Z.eqb_spec t 1) as [->|];
      [|destruct (Z.eqb_spec t 2) as [->|]]];
    intros E; inv E; cbn; intros U; apply Ok_inj in U; auto.
Qed.

(** C3, as the code has it.  In a file that [write_cstm] produced, every
    descriptor records the true sizes of its block: uncomp_size is the length
    of the serialized column and comp_size the length of its zlib
    compression.  A zero-row column is no special case: its uncomp_size is 0
    for INT32 and FLOAT64 and 4 for STRING (the single zero offset), and its
    comp_size is the length of the compressed form of that block. *)
Theorem written_descriptor_sizes (fs : option bytes) (names : list pystr)
    (types : list Z) (cols : list (list value)) (sig : Z) (content : bytes) :
  write_cstm fs names types cols sig = (Some content, Ok tt) ->
  exists f sig' total_rows metas,
    read_prefix_and_header content = Ok (f, (sig', total_rows, metas))
    /\ Forall2 (fun col e =>
                  col_num_values e = len col
                  /\ (exists ser unc,
                         _SERIALIZERS (col_type e) = Some ser
                         /\ ser col = Ok unc
                         /\ col_uncomp_size e = len unc
                         /\ col_comp_size e = len (zlib_compress unc))
                  /\ (col_num_values e = 0 ->
                      col_uncomp_size e = len (empty_block (col_type e))
                      /\ col_comp_size e
                         = len (zlib_compress (empty_block (col_type e)))))
               cols metas.
Proof.
  intros W.
  destruct (write_cstm_ok _ _ _ _ _ _ W)
    as (total_rows & es & header & blocks & L1 & L2 & HF & B & R & C
        & Hn & Ht & S).
  destruct (read_prefix_and_header_written _ _ _ _ blocks B R) as [f H].
  rewrite <- C in H.
  exists f, (Z.land sig 0xFFFFFFFF), total_rows, es. split; [exact H|].
  eapply Forall2_impl; [|exact S]. cbv beta.
  intros col e (N & ser & unc & Hs & Hu & pre & post & _ & _ & Hc & Hus).
  split; [exact N|]. split; [exists ser, unc; auto|].
  intros Z0. rewrite Z0 in N.
  assert (col = []) as -> by (destruct col; [reflexivity | discriminate]).
  rewrite <- (serializer_empty _ _ _ Hs Hu). auto.
Qed.

End DescriptorSizes.

Section DescriptorSizesExample.
#[local] Existing Instance concrete.stored_zlib.
#[local] Existing Instance concrete.same_type_builtins.
Import concrete.

(** Against C3 as stated.  The file of one zero-row STRING column: the call
    succeeds, and the one descriptor of the file has [num_values = 0] with
    [uncomp_size = 4] and a non-zero [comp_size] (6 under the stand-in
    codec). *)
Lemma zero_row_string_descriptor :
  writer.write_cstm None [str "s"] [2] [[]] 0
  = (Some empty_string_file, Ok tt)
  /\ reader.read_prefix_and_header empty_string_file
     = Ok (File empty_string_file 73,
           (0, 0, [header_utils.Entry (str "s") 2 0 0 73 6 4]))
  /\ ~ Forall (fun e => header_utils.col_num_values e = 0 ->
                        header_utils.col_comp_size e = 0
                        /\ header_utils.col_uncomp_size e = 0)
              [header_utils.Entry (str "s") 2 0 0 73 6 4].
Proof.
  split; [vm_compute; reflexivity|]. split; [vm_compute; reflexivity|].
  intros F. inversion F as [|e es H F']; subst.
  destruct (H eq_refl) as [H1 _]. discriminate H1.
Qed.

(** The descriptors of the zero-row file, through C3. *)
Lemma written_descriptor_sizes_example :
  exists f sig' total_rows metas,
    reader.read_prefix_and_header empty_string_file
    = Ok (f, (sig', total_rows, metas))
    /\ Forall2 (fun col e =>
                  header_utils.col_num_values e = len col
                  /\ (exists ser unc,
                         writer._SERIALIZERS (header_utils.col_type e)
                         = Some ser
                         /\ ser col = Ok unc
                         /\ header_utils.col_uncomp_size e = len unc
                         /\ header_utils.col_comp_size e
                            = len (zlib_compress unc))
                  /\ (header_utils.col_num_values e = 0 ->
                      header_utils.col_uncomp_size e
                      = len (empty_block (header_utils.col_type e))
                      /\ header_utils.col_comp_size e
                         = len (zlib_compress
                                  (empty_block (header_utils.col_type e)))))
               [[]] metas.
Proof.
  apply (written_descriptor_sizes None [str "s"] [2] [[]] 0
           empty_string_file).
  vm_compute. reflexivity.
Defined.

End DescriptorSizesExample.

(** ** Selective reads *)

Section SelectiveRead.
Context {zlib : Zlib} {builtins : PyBuiltins}.
Import byte_utils header_utils column_serializers writer reader.

Lemma select_loop_ok (es : list column_entry) (subset : list pystr) :
  forall acc,
    (forall n, In n subset -> In n (map col_name es)) ->
    exists selected,
      select_loop subset (name_to_meta es) acc = Ok (acc ++ selected)
      /\ Forall2 (fun n e =>
                    exists i, last_index n (map col_name es) = Some i
                              /\ nth_error es i = Some e)
                 subset selected.
Proof.
  induction subset as [|n subset IH]; intros acc I.
  - exists []. rewrite app_nil_r. split; [reflexivity | constructor].
  - cbn [select_loop]. rewrite dict_get_name_to_meta.
    destruct (last_index n (map col_name es)) as [i|] eqn:L.
    2:{ apply last_index_None in L. exfalso. apply L, I. left. reflexivity. }
    destruct (nth_error es i) as [e|] eqn:N.
    2:{ apply last_index_Some in L. rewrite nth_error_map, N in L.
        discriminate L. }
    destruct (IH (acc ++ [e])) as (selected & E & F).
    { intros m Hm. apply I. right. exact Hm. }
    exists (e :: selected). rewrite E, <- app_assoc. split; [reflexivity|].
    constructor; [exists i; auto | exact F].
Qed.

(** The decoded column at the position a name resolves to. *)
Lemma selected_readable (content : bytes) (cols cols' : list (list value))
    (es : list column_entry) (subset : list pystr)
    (selected : list column_entry) :
  Forall3 (fun col e col' =>
             readable content e col'
             /\ Forall2 (fun v v' => stored_value (col_type e) v = Ok v')
                        col col') cols es cols' ->
  Forall2 (fun n e =>
             exists i, last_index n (map col_name es) = Some i
                       /\ nth_error es i = Some e) subset selected ->
  map col_name selected = subset
  /\ Forall2 (readable content) selected
       (map (fun p => match p with
                      | Some i => nth i cols' []
                      | None => []
                      end)
            (map (fun n => last_index n (map col_name es)) subset))
  /\ Forall (fun c => In c cols')
       (map (fun p => match p with
                      | Some i => nth i cols' []
                      | None => []
                      end)
            (map (fun n => last_index n (map col_name es)) subset)).
Proof.
  intros F3. induction 1 as [|n e subset selected (i & L & N) F IH].
  - repeat split; constructor.
  - destruct IH as (IH1 & IH2 & IH3). cbn [map]. rewrite L.
    destruct (Forall3_nth_error _ _ _ _ F3 i e N) as (col & col' & _ & N' & R & _).
    rewrite (nth_error_nth _ _ _ N').
    split; [|split].
    + f_equal; [|exact IH1]. apply last_index_Some in L.
      rewrite nth_error_map, N in L. cbn in L. congruence.
    + constructor; [exact R | exact IH2].
    + constructor; [eapply nth_error_In; exact N' | exact IH3].
Qed.

Lemma build_rows_pick (cols' : list (list value))
    (positions : list (option nat)) (m : nat) :
  build_rows (map (fun p => match p with
                            | Some i => nth i cols' []
                            | None => []
                            end) positions) m
  = map (pick_columns positions) (build_rows cols' m).
Proof.
  unfold build_rows. rewrite map_map. apply map_ext. intros i.
  unfold pick_columns. rewrite map_map. apply map_ext. intros [j|].
  - transitivity (nth j (map (fun arr => nth i arr VNone) cols')
                      ((fun arr => nth i arr VNone) [])).
    + symmetry. apply (map_nth (fun arr => nth i arr VNone)).
    + f_equal. destruct i; reflexivity.
  - destruct i; reflexivity.
Qed.

Lemma stored_lengths (content : bytes) (cols cols' : list (list value))
    (es : list column_entry) (total : Z) :
  Forall3 (fun col e col' =>
             readable content e col'
             /\ Forall2 (fun v v' => stored_value (col_type e) v = Ok v')
                        col col') cols es cols' ->
  Forall (fun col => len col = total) cols ->
  Forall (fun c => length c = Z.to_nat total) cols'.
Proof.
  induction 1 as [|col e col' cols es cols' [_ V] F IH]; intros H;
    [constructor|].
  inversion H as [|c cs Hc Hcs]; subst. constructor; [|auto].
  apply Forall2_length in V. unfold len. lia.
Qed.

(** C4, as the code has it.  For a file that [write_cstm] produced and a list
    of names that all occur in it, [read_cstm] with that list returns the
    names as requested and, row by row, the values the full read has in the
    columns the names resolve to; a name resolves to the last column of the
    file that bears it.  For the empty list the result has no names and no
    rows. *)
Theorem selective_read (fs : option bytes) (names : list pystr)
    (types : list Z) (cols : list (list value)) (sig : Z) (content : bytes)
    (subset : list pystr) :
  write_cstm fs names types cols sig = (Some content, Ok tt) ->
  (forall n, In n subset -> In n names) ->
  exists table,
    read_cstm content None = Ok (names, table)
    /\ read_cstm content (Some subset)
       = Ok (match subset with
             | [] => ([], [])
             | _ =>
               (subset,
                map (pick_columns (map (fun n => last_index n names) subset))
                    table)
             end).
Proof.
  intros W I.
  destruct (write_cstm_ok _ _ _ _ _ _ W)
    as (total_rows & es & header & blocks & L1 & L2 & HF & B & R & C
        & Hn & Ht & S).
  destruct (read_prefix_and_header_written _ _ _ _ blocks B R) as [f H].
  rewrite <- C in H.
  destruct (stored_columns_readable _ _ _ S) as [cols' F3].
  pose proof (stored_lengths _ _ _ _ _ F3 HF) as Lc.
  assert (Rd : Forall2 (readable content) es cols')
    by (eapply Forall3_23; [|exact F3]; cbv beta; tauto).
  pose proof (read_cstm_selected content f _ _ es es None cols'
                (Z.to_nat total_rows) H eq_refl Rd Lc) as Full.
  rewrite <- Hn in I.
  destruct (select_loop_ok es subset [] I) as (selected & Sel & F2).
  cbn [app] in Sel.
  destruct (selected_readable _ _ _ _ _ _ F3 F2) as (Sn & Sr & Si).
  assert (Ls : Forall (fun c => length c = Z.to_nat total_rows)
                 (map (fun p => match p with
                                | Some i => nth i cols' []
                                | None => []
                                end)
                      (map (fun n => last_index n (map col_name es)) subset))).
  { eapply Forall_impl; [|exact Si]. intros c Hc.
    rewrite Forall_forall in Lc. apply Lc. exact Hc. }
  pose proof (read_cstm_selected content f _ _ es selected (Some subset) _
                (Z.to_nat total_rows) H Sel Sr Ls) as Part.
  rewrite build_rows_pick in Part. rewrite Hn in *.
  destruct es as [|e es].
  - exists []. split; [rewrite Full, <- Hn; reflexivity|].
    rewrite Part. destruct subset as [|n subset].
    + inv F2. reflexivity.
    + exfalso. cbn in Hn. subst names. apply (I n). left. reflexivity.
  - exists (build_rows cols' (Z.to_nat total_rows)).
    split; [rewrite Full, <- Hn; reflexivity|].
    rewrite Part. destruct subset as [|n subset].
    + inv F2. reflexivity.
    + inversion F2 as [|n0 e0 s0 sel0 He Hf]; subst.
      cbv iota. rewrite Sn. reflexivity.
Qed.

Lemma first_index_None (n : pystr) (names : list pystr) :
  first_index n names = None <-> ~ In n names.
Proof.
  induction names as [|x names IH]; cbn [first_index In]; [tauto|].
  destruct (pystr_eqb x n) eqn:E.
  - apply pystr_eqb_eq in E. split; [discriminate | tauto].
  - apply pystr_eqb_neq in E.
    destruct (first_index n names); cbn [option_map].
    + split; [discriminate|]. intros H. exfalso. apply H. right.
      destruct (in_dec (list_eq_dec Z.eq_dec) n names) as [J|J]; [exact J|].
      apply IH in J. discriminate.
    + split; [|reflexivity]. intros _ [H|H]; [tauto|]. apply IH in H; auto.
Qed.

(** With pairwise distinct names the last occurrence is the first, so the
    selection of C4 is the plain filter by name. *)
Lemma last_index_first_index (n : pystr) (names : list pystr) :
  NoDup names -> last_index n names = first_index n names.
Proof.
  induction 1 as [|x names Hx ND IH]; [reflexivity|].
  cbn [last_index first_index]. rewrite IH.
  destruct (pystr_eqb x n) eqn:E.
  - apply pystr_eqb_eq in E. subst x.
    apply first_index_None in Hx. rewrite Hx. reflexivity.
  - destruct (first_index n names); reflexivity.
Qed.

End SelectiveRead.

Section SelectiveReadExample.
#[local] Existing Instance concrete.stored_zlib.
#[local] Existing Instance concrete.same_type_builtins.
Import concrete.

(** Against C4 as stated.  A file with two columns named [a].  The full read
    has both, with values 1 and 2; the read of [a] has one column, with the
    value 2 of the second; cutting the full read down to the first column
    named [a] gives 1. *)
Lemma selective_read_twin_names :
  writer.write_cstm None [str "a"; str "a"] [0; 0] [[VInt 1]; [VInt 2]] 0
  = (Some twin_file, Ok tt)
  /\ reader.read_cstm twin_file None
     = Ok ([str "a"; str "a"], [[VInt 1; VInt 2]])
  /\ reader.read_cstm twin_file (Some [str "a"])
     = Ok ([str "a"], [[VInt 2]])
  /\ map (pick_columns
            (map (fun n => first_index n [str "a"; str "a"]) [str "a"]))
         [[VInt 1; VInt 2]]
     = [[VInt 1]]
  /\ reader.read_cstm twin_file (Some [str "a"])
     <> Ok ([str "a"],
            map (pick_columns
                   (map (fun n => first_index n [str "a"; str "a"])
                        [str "a"]))
                [[VInt 1; VInt 2]]).
Proof.
  repeat split; try (vm_compute; reflexivity).
  vm_compute. discriminate.
Qed.

(** The columns [name] and [id] of the example file, through C4. *)
Lemma selective_read_example :
  exists table,
    reader.read_cstm example_file None = Ok (example_names, table)
    /\ reader.read_cstm example_file (Some [str "name"; str "id"])
       = Ok ([str "name"; str "id"],
             map (pick_columns
                    (map (fun n => last_index n example_names)
                         [str "name"; str "id"]))
                 table).
Proof.
  apply (selective_read None example_names example_types example_columns 0
           example_file [str "name"; str "id"]).
  - vm_compute. reflexivity.
  - intros n [<-|[<-|[]]]; vm_compute; auto.
Defined.

End SelectiveReadExample.

(** * Further properties of the codec *)

(** ** byte_utils: fixed-width fields *)

Section FixedWidth.
Import byte_utils.

Lemma pack_unsigned_unpack (n : nat) (b : bytes) (x : Z) :
  unpack_unsigned n b = Ok x -> pack_unsigned n x = Ok b.
Proof.
  unfold unpack_unsigned. destruct (Nat.eqb_spec (length b) n) as [L|];
    [|discriminate].
  intros E. apply Ok_inj in E. subst x. rewrite pack_unsigned_in_range.
  - rewrite <- L, split_le_combine. reflexivity.
  - rewrite <- L. apply le_combine_bound.
Qed.

Lemma pack_unsigned_err (n : nat) (x : Z) (e : exn) :
  pack_unsigned n x = Err e ->
  e = StructError /\ ~ 0 <= x < 2 ^ (8 * Z.of_nat n).
Proof.
  unfold pack_unsigned.
  destruct (Z.leb_spec 0 x); destruct (Z.ltb_spec x (2 ^ (8 * Z.of_nat n)));
    cbn [andb]; intros E; try discriminate E; split; try congruence; lia.
Qed.

(** X1.  The unsigned packers [pack_u8], [pack_u16], [pack_u32], [pack_u64]
    return, for a value that fits the width, exactly 1, 2, 4 and 8 bytes
    that the matching unpacker turns back into the value, and raise
    [struct.error] for every other value; nothing is ever wrapped or
    truncated. *)
Theorem pack_unpack_unsigned_fields (x : Z) :
  let field (w : Z) (pack : Z -> result bytes) (unpack : bytes -> result Z) :=
    match pack x with
    | Ok b => 0 <= x < 2 ^ (8 * w) /\ len b = w /\ unpack b = Ok x
    | Err e => e = StructError /\ ~ 0 <= x < 2 ^ (8 * w)
    end in
  field 1 pack_u8 unpack_u8 /\ field 2 pack_u16 unpack_u16
  /\ field 4 pack_u32 unpack_u32 /\ field 8 pack_u64 unpack_u64.
Proof.
  cbv zeta. unfold pack_u8, pack_u16, pack_u32, pack_u64,
    unpack_u8, unpack_u16, unpack_u32, unpack_u64.
  repeat split.
  all: match goal with
       | |- match pack_unsigned ?n ?y with _ => _ end =>
         destruct (pack_unsigned n y) as [b|e] eqn:E;
           [ pose proof (pack_unsigned_ok _ _ _ E) as [_ R];
             pose proof (pack_unsigned_length _ _ _ E) as L;
             pose proof (unpack_pack_unsigned _ _ _ E) as U;
             repeat split; [lia | lia | unfold len; lia | exact U]
           | apply (pack_unsigned_err _ _ _ E) ]
       end.
Qed.

(** X2.  Every byte string of the right length is the encoding of the value
    it decodes to: unpacking 1, 2, 4 or 8 bytes and packing the result gives
    the same bytes back, and an unpacker raises [struct.error] exactly on a
    buffer of another length. *)
Theorem unpack_pack_unsigned_fields (b : bytes) :
  let field (w : nat) (pack : Z -> result bytes) (unpack : bytes -> result Z) :=
    match unpack b with
    | Ok x => length b = w /\ pack x = Ok b
    | Err e => e = StructError /\ length b <> w
    end in
  field 1%nat pack_u8 unpack_u8 /\ field 2%nat pack_u16 unpack_u16
  /\ field 4%nat pack_u32 unpack_u32 /\ field 8%nat pack_u64 unpack_u64.
Proof.
  cbv zeta. unfold pack_u8, pack_u16, pack_u32, pack_u64,
    unpack_u8, unpack_u16, unpack_u32, unpack_u64.
  repeat split.
  all: match goal with
       | |- match unpack_unsigned ?n ?c with _ => _ end =>
         destruct (unpack_unsigned n c) as [x|e] eqn:E;
           [ split; [|apply pack_unsigned_unpack; exact E];
             unfold unpack_unsigned in E;
             destruct (Nat.eqb_spec (length b) n); [assumption | discriminate]
           | unfold unpack_unsigned in E;
             destruct (Nat.eqb_spec (length b) n);
             [discriminate | split; [congruence | assumption]] ]
       end.
Qed.

(** X3.  [pack_i32] and [unpack_i32] are inverse on the signed 32-bit range:
    a value packs exactly when [-2^31 <= x < 2^31], to 4 bytes that unpack to
    it, and every 4-byte string unpacks to a value in that range that packs
    to the same 4 bytes. *)
Theorem pack_unpack_i32 (x : Z) (b : bytes) :
  match pack_i32 x with
  | Ok p => - 2 ^ 31 <= x < 2 ^ 31 /\ len p = 4 /\ unpack_i32 p = Ok x
  | Err e => e = StructError /\ ~ - 2 ^ 31 <= x < 2 ^ 31
  end
  /\ match unpack_i32 b with
     | Ok y => len b = 4 /\ - 2 ^ 31 <= y < 2 ^ 31 /\ pack_i32 y = Ok b
     | Err e => e = StructError /\ len b <> 4
     end.
Proof.
  split.
  - destruct (pack_i32 x) as [p|e] eqn:E.
    + pose proof (unpack_pack_i32 _ _ E) as U.
      apply pack_i32_ok in E. destruct E as [-> R].
      split; [exact R|].
      split; [unfold len; rewrite length_le_split; reflexivity | exact U].
    + unfold pack_i32 in E.
      destruct (Z.leb_spec (- 2 ^ 31) x); destruct (Z.ltb_spec x (2 ^ 31));
        cbn [andb] in E; try discriminate E; split; try congruence; lia.
  - destruct (unpack_i32 b) as [y|e] eqn:E.
    + pose proof (unpack_i32_range _ _ E) as R.
      unfold unpack_i32 in E.
      destruct (Nat.eqb_spec (length b) 4) as [L|]; [|discriminate].
      cbv zeta in E. apply Ok_inj in E.
      split; [unfold len; lia|]. split; [exact R|].
      unfold pack_i32.
      replace ((- 2 ^ 31 <=? y) && (y <? 2 ^ 31)) with true
        by (symmetry; apply andb_true_iff; lia).
      assert (S : le_split 4 y = b); [|rewrite S; reflexivity].
      pose proof (le_combine_bound b) as B. rewrite L in B.
      change (2 ^ (8 * Z.of_nat 4)) with (2 ^ 32) in B.
      rewrite <- (split_le_combine b), L at 1.
      apply le_combine_inj; [rewrite !length_le_split; reflexivity|].
      rewrite !le_combine_split. change (Z.of_nat 4 * 8) with 32.
      subst y. destruct (Z.ltb_spec (le_combine b) (2 ^ 31)).
      * reflexivity.
      * replace (le_combine b - 2 ^ 32) with (le_combine b + (-1) * 2 ^ 32)
          by lia.
        rewrite Z.mod_add by lia. reflexivity.
    + unfold unpack_i32 in E.
      destruct (Nat.eqb_spec (length b) 4); [discriminate|].
      split; [congruence | unfold len; lia].
Qed.

(** X4.  [pack_f64] lays a float out on 8 bytes from which [unpack_f64]
    rebuilds the same bit pattern, and every 8-byte string unpacks to a float
    that packs to the same bytes: no bit pattern (NaN payloads, signed zeros,
    subnormals) is normalised. *)
Theorem pack_unpack_f64 (x : float64) (b : bytes) :
  (0 <= f64_bits x < 2 ^ 64 ->
   exists p, pack_f64 x = Ok p /\ len p = 8 /\ unpack_f64 p = Ok x)
  /\ (len b = 8 ->
      exists y, unpack_f64 b = Ok y /\ 0 <= f64_bits y < 2 ^ 64
                /\ pack_f64 y = Ok b).
Proof.
  split.
  - intros R. exists (le_split 8 (f64_bits x)). split; [reflexivity|].
    destruct (unpack_pack_f64 x _ eq_refl) as [L U].
    split; [unfold len; lia|]. rewrite U, Z.mod_small by exact R.
    destruct x. reflexivity.
  - intros L. assert (L' : length b = 8%nat) by (unfold len in L; lia).
    exists (F64 (le_combine b)). unfold unpack_f64, pack_f64.
    rewrite L'. cbn [Nat.eqb f64_bits]. split; [reflexivity|]. split.
    + pose proof (le_combine_bound b) as B. rewrite L' in B. exact B.
    + rewrite <- L', split_le_combine. reflexivity.
Qed.

(** A float with a NaN payload and an arbitrary 8-byte string, through X4. *)
Lemma pack_unpack_f64_example :
  (exists p, pack_f64 (F64 0x7FF8000000000001) = Ok p /\ len p = 8
             /\ unpack_f64 p = Ok (F64 0x7FF8000000000001))
  /\ (exists y,
         unpack_f64 [Byte.x01; Byte.x02; Byte.x03; Byte.x04;
                     Byte.x05; Byte.x06; Byte.x07; Byte.xff] = Ok y
         /\ 0 <= f64_bits y < 2 ^ 64
         /\ pack_f64 y = Ok [Byte.x01; Byte.x02; Byte.x03; Byte.x04;
                             Byte.x05; Byte.x06; Byte.x07; Byte.xff]).
Proof.
  destruct (pack_unpack_f64 (F64 0x7FF8000000000001)
              [Byte.x01; Byte.x02; Byte.x03; Byte.x04;
               Byte.x05; Byte.x06; Byte.x07; Byte.xff]) as [H1 H2].
  split; [apply H1; cbn; lia | apply H2; reflexivity].
Defined.

End FixedWidth.

(** ** byte_utils: exact reads and length-prefixed buffers *)

Section ExactReads.
Import byte_utils length_prefixed.



(** X6.  A buffer of fewer than [2^32] bytes is prefixed with its length on
    4 bytes, and [unpack_length_prefixed_bytes] finds the length and the
    buffer again, whatever follows the payload. *)
Theorem length_prefixed_roundtrip (b rest : bytes) :
  len b < 2 ^ 32 ->
  exists p,
    pack_length_prefixed_bytes b = Ok p
    /\ len p = 4 + len b
    /\ unpack_length_prefixed_bytes (p ++ rest) = inl (len b, b).
Proof.
  intros R. pose proof (len_nonneg b) as N.
  unfold pack_length_prefixed_bytes, pack_u32.
  rewrite pack_unsigned_in_range by (change (8 * Z.of_nat 4) with 32; lia).
  cbn [bind]. eexists. split; [reflexivity|].
  assert (L4 : len (le_split 4 (len b)) = 4)
    by (unfold len; rewrite length_le_split; reflexivity).
  split; [rewrite len_app; lia|].
  unfold unpack_length_prefixed_bytes. rewrite <- app_assoc.
  rewrite !len_app, L4. pose proof (len_nonneg rest).
  destruct (Z.ltb_spec (4 + (len b + len rest)) 4); [lia|].
  pose proof (slice_middle [] (le_split 4 (len b)) (b ++ rest) 0 4
                eq_refl ltac:(lia)) as S0.
  cbn [app] in S0. rewrite S0.
  unfold unpack_u32.
  rewrite (unpack_pack_unsigned 4 (len b) (le_split 4 (len b)))
    by (apply pack_unsigned_in_range; change (8 * Z.of_nat 4) with 32; lia).
  rewrite (slice_middle (le_split 4 (len b)) b rest 4 (4 + len b))
    by (try reflexivity; lia).
  reflexivity.
Qed.

(** The buffer [abc] followed by one more byte, through X6. *)
Lemma length_prefixed_roundtrip_example :
  exists p,
    pack_length_prefixed_bytes [Byte.x61; Byte.x62; Byte.x63] = Ok p
    /\ len p = 4 + len [Byte.x61; Byte.x62; Byte.x63]
    /\ unpack_length_prefixed_bytes (p ++ [Byte.xff])
       = inl (len [Byte.x61; Byte.x62; Byte.x63],
              [Byte.x61; Byte.x62; Byte.x63]).
Proof.
  apply (length_prefixed_roundtrip [Byte.x61; Byte.x62; Byte.x63]
           [Byte.xff]).
  vm_compute. reflexivity.
Defined.

(** X7.  [unpack_length_prefixed_bytes] raises only its own [ValueError], and
    exactly on a buffer of fewer than 4 bytes.  Otherwise it returns the
    declared length [L] without checking it against the buffer: the payload
    returned has [L] bytes only if the buffer holds that many after the
    prefix, and is the shorter rest of the buffer if not. *)
Theorem unpack_length_prefixed_unchecked (b : bytes) :
  match unpack_length_prefixed_bytes b with
  | inr e => e = BufferTooSmall /\ len b < 4
  | inl (L, payload) =>
    4 <= len b /\ 0 <= L < 2 ^ 32
    /\ payload = firstn (Z.to_nat L) (skipn 4 b)
    /\ len payload = Z.min L (len b - 4)
  end.
Proof.
  unfold unpack_length_prefixed_bytes.
  destruct (Z.ltb_spec (len b) 4) as [S|S]; [auto|].
  unfold unpack_u32.
  rewrite unpack_unsigned_total by (rewrite slice_length; lia).
  pose proof (le_combine_bound (slice b 0 4)) as B.
  rewrite slice_length in B by lia.
  change (8 * Z.of_nat (Z.to_nat (4 - 0))) with 32 in B.
  set (L := le_combine (slice b 0 4)) in *.
  split; [exact S|]. split; [exact B|].
  unfold slice. replace (Z.to_nat (4 + L) - Z.to_nat 4)%nat with (Z.to_nat L)
    by lia.
  change (Z.to_nat 4) with 4%nat. split; [reflexivity|].
  unfold len in *. rewrite length_firstn, length_skipn. lia.
Qed.

End ExactReads.

(** ** column_serializers: whole columns *)

Section WholeColumns.
Context {builtins : PyBuiltins}.
Import byte_utils column_serializers.

(** A prefix of valid INT32 values only adds its packed bytes to the
    buffer. *)
Lemma serialize_int32_loop_valid_prefix (pre : list value) :
  valid_column 0 pre = true ->
  exists blk,
    len blk = 4 * len pre
    /\ forall rest buf,
        serialize_int32_loop (pre ++ rest) buf
        = serialize_int32_loop rest (buf ++ blk).
Proof.
  induction pre as [|v pre IH]; intros V.
  - exists []. split; [reflexivity|]. intros. rewrite app_nil_r. reflexivity.
  - cbn [valid_column forallb] in V. apply andb_true_iff in V.
    destruct V as [V1 V2]. destruct (IH V2) as (blk & L & H).
    destruct v as [|z|f|s]; try discriminate V1.
    cbn [valid_value] in V1. unfold TYPE_INT32 in V1. cbn [Z.eqb andb] in V1.
    apply andb_true_iff in V1. destruct V1 as [A B].
    exists (le_split 4 z ++ blk). split.
    { rewrite len_app. unfold len in *. rewrite length_le_split.
      simpl length. lia. }
    intros rest buf. cbn [app serialize_int32_loop]. rewrite py_int_int.
    cbn [bind].
    replace ((z <? I32_MIN) || (z >? I32_MAX)) with false
      by (symmetry; apply orb_false_iff; unfold I32_MIN, I32_MAX in *; lia).
    unfold pack_i32.
    replace ((- 2 ^ 31 <=? z) && (z <? 2 ^ 31)) with true
      by (symmetry; apply andb_true_iff; unfold I32_MIN, I32_MAX in *; lia).
    cbn [bind]. rewrite H, app_assoc. reflexivity.
Qed.

(** X8.  A column of integers in the signed 32-bit range always serializes,
    to exactly 4 bytes per value, and [parse_int32_block] with the column's
    length returns the same integers. *)
Theorem int32_column_roundtrip (vals : list value) :
  valid_column 0 vals = true ->
  exists b,
    serialize_int32_column vals = Ok b
    /\ len b = 4 * len vals
    /\ parse_int32_block b (len vals) = Ok vals.
Proof.
  intros V. destruct (serialize_int32_loop_valid_prefix vals V) as (blk & L & H).
  unfold serialize_int32_column. specialize (H [] []).
  rewrite app_nil_r in H. cbn [app serialize_int32_loop] in H.
  exists blk. split; [exact H|]. split; [exact L|].
  destruct (parse_serialize_int32 vals blk H) as (vals' & F & P).
  rewrite (stored_column_valid 0 vals vals' V F) in P. exact P.
Qed.

(** X9.  [serialize_int32_column] stops at the first value it cannot store:
    after any number of valid values, a [None] raises the "Null values not
    supported" [ValueError] and an integer outside the signed 32-bit range
    raises the "out of int32 range" [ValueError] naming it; no block is
    returned, and nothing is clamped or wrapped. *)
Theorem serialize_int32_column_rejects (pre post : list value) (z : Z) :
  valid_column 0 pre = true ->
  serialize_int32_column (pre ++ VNone :: post) = Err (ValueError MsgNullInt32)
  /\ (~ - 2 ^ 31 <= z < 2 ^ 31 ->
      serialize_int32_column (pre ++ VInt z :: post)
      = Err (ValueError (MsgInt32Range z))).
Proof.
  intros V. destruct (serialize_int32_loop_valid_prefix pre V) as (blk & _ & H).
  unfold serialize_int32_column. rewrite !H. split; [reflexivity|].
  intros R. cbn [serialize_int32_loop]. rewrite py_int_int. cbn [bind].
  replace ((z <? I32_MIN) || (z >? I32_MAX)) with true; [reflexivity|].
  symmetry. apply orb_true_iff. unfold I32_MIN, I32_MAX.
  destruct (Z.ltb_spec z (- 2 ^ 31)); [left; reflexivity|].
  right. apply Z.gtb_lt. lia.
Qed.

Lemma serialize_float64_loop_valid (vals : list value) :
  valid_column 1 vals = true ->
  forall buf, exists b, serialize_float64_loop vals buf = Ok b.
Proof.
  induction vals as [|v vals IH]; intros V buf; [eexists; reflexivity|].
  cbn [valid_column forallb] in V. apply andb_true_iff in V.
  destruct V as [V1 V2].
  destruct v as [|z|f|s]; try discriminate V1.
  cbn [serialize_float64_loop]. rewrite py_float_float. cbn [bind pack_f64].
  apply (IH V2).
Qed.

(** X10.  A column of floats always serializes, to exactly 8 bytes per
    value, and [parse_float64_block] with the column's length returns floats
    with the same bit patterns. *)
Theorem float64_column_roundtrip (vals : list value) :
  valid_column 1 vals = true ->
  exists b,
    serialize_float64_column vals = Ok b
    /\ len b = 8 * len vals
    /\ parse_float64_block b (len vals) = Ok vals.
Proof.
  intros V. destruct (serialize_float64_loop_valid vals V []) as [b E].
  exists b. split; [exact E|].
  destruct (serialize_float64_loop_spec vals [] b E) as (blk & vals' & -> & L & _).
  split; [exact L|].
  destruct (parse_serialize_float64 vals blk E) as (vals'' & F & P).
  rewrite (stored_column_valid 1 vals vals'' V F) in P. exact P.
Qed.

Lemma parse_float64_loop_total (data : bytes) (n : nat) :
  forall off out,
    0 <= off -> off + 8 * Z.of_nat n <= len data ->
    parse_float64_loop n data off out
    = Ok (out ++ map (fun i =>
                        VFloat (F64 (le_combine
                                       (slice data (off + 8 * Z.of_nat i)
                                              (off + 8 * Z.of_nat i + 8)))))
                     (seq 0 n)).
Proof.
  induction n as [|n IH]; intros off out H0 H1.
  - cbn. rewrite app_nil_r. reflexivity.
  - cbn [parse_float64_loop]. unfold SIZE_F64. unfold unpack_f64 at 1.
    rewrite slice_length by lia.
    replace (Z.to_nat (off + 8 - off)) with 8%nat by lia.
    cbn [Nat.eqb bind]. rewrite IH by lia.
    rewrite <- app_assoc. f_equal. f_equal.
    cbn [seq map app]. f_equal.
    + replace (off + 8 * Z.of_nat 0) with off by lia. reflexivity.
    + rewrite <- seq_shift, map_map. apply map_ext. intros i.
      replace (off + 8 + 8 * Z.of_nat i) with (off + 8 * Z.of_nat (S i))
        by lia.
      reflexivity.
Qed.

(** X11.  [parse_float64_block] returns exactly when the block holds
    [8 * num_values] bytes, and then it returns [num_values] floats, float
    [i] with the bit pattern of bytes [8i .. 8i+8); for every other block
    length it raises the block size [ValueError] and returns nothing. *)
Theorem parse_float64_block_exact (data : bytes) (num_values : Z) :
  match parse_float64_block data num_values with
  | Ok vals =>
    len data = 8 * num_values
    /\ vals = map (fun i => VFloat (float64_at data i))
                  (seq 0 (Z.to_nat num_values))
    /\ len vals = num_values
  | Err e =>
    len data <> 8 * num_values
    /\ e = ValueError (MsgFloat64BlockSize (num_values * 8) (len data))
  end.
Proof.
  unfold parse_float64_block, SIZE_F64.
  destruct (Z.eqb_spec (len data) (num_values * 8)) as [E|E]; cbn [negb].
  - pose proof (len_nonneg data).
    rewrite parse_float64_loop_total by lia. cbn [app Z.add].
    split; [lia|]. split; [reflexivity|].
    unfold len. rewrite length_map, length_seq. lia.
  - split; [lia | reflexivity].
Qed.

End WholeColumns.

Section WholeColumnsExample.
#[local] Existing Instance concrete.same_type_builtins.
Import byte_utils column_serializers.

(** The column [1, -2, 2147483647, -2147483648], through X8. *)
Lemma int32_column_roundtrip_example :
  exists b,
    serialize_int32_column
      [VInt 1; VInt (-2); VInt 2147483647; VInt (-2147483648)] = Ok b
    /\ len b = 4 * len [VInt 1; VInt (-2); VInt 2147483647;
                        VInt (-2147483648)]
    /\ parse_int32_block b
         (len [VInt 1; VInt (-2); VInt 2147483647; VInt (-2147483648)])
       = Ok [VInt 1; VInt (-2); VInt 2147483647; VInt (-2147483648)].
Proof.
  apply (int32_column_roundtrip
           [VInt 1; VInt (-2); VInt 2147483647; VInt (-2147483648)]).
  reflexivity.
Defined.

(** A [None] and the integer [2^31] after two valid values, through X9. *)
Lemma serialize_int32_column_rejects_example :
  serialize_int32_column ([VInt 1; VInt 2] ++ VNone :: [VInt 3])
  = Err (ValueError MsgNullInt32)
  /\ serialize_int32_column ([VInt 1; VInt 2] ++ VInt 2147483648 :: [VInt 3])
     = Err (ValueError (MsgInt32Range 2147483648)).
Proof.
  destruct (serialize_int32_column_rejects [VInt 1; VInt 2] [VInt 3]
              2147483648) as [H1 H2]; [reflexivity|].
  split; [exact H1 | apply H2; lia].
Defined.

(** The floats 0.0, -3.5 and a NaN, by their bit patterns, through X10. *)
Lemma float64_column_roundtrip_example :
  exists b,
    serialize_float64_column
      [VFloat (F64 0); VFloat (F64 0xC00C000000000000);
       VFloat (F64 0x7FF8000000000000)] = Ok b
    /\ len b = 8 * len [VFloat (F64 0); VFloat (F64 0xC00C000000000000);
                        VFloat (F64 0x7FF8000000000000)]
    /\ parse_float64_block b
         (len [VFloat (F64 0); VFloat (F64 0xC00C000000000000);
               VFloat (F64 0x7FF8000000000000)])
       = Ok [VFloat (F64 0); VFloat (F64 0xC00C000000000000);
             VFloat (F64 0x7FF8000000000000)].
Proof.
  apply (float64_column_roundtrip
           [VFloat (F64 0); VFloat (F64 0xC00C000000000000);
            VFloat (F64 0x7FF8000000000000)]).
  reflexivity.
Defined.

End WholeColumnsExample.

(** ** column_serializers: string blocks as written *)

Section StringColumns.
Context {builtins : PyBuiltins}.
Import byte_utils column_serializers.

Lemma string_parts_encoded (vals : list value) :
  forall cur offsets parts cur' offsets' parts',
    string_parts vals cur offsets parts = Ok (cur', offsets', parts') ->
    exists new,
      parts' = parts ++ new
      /\ offsets' = offsets ++ cumulative cur new
      /\ cur' = cur + len (concat new)
      /\ Forall2 (fun v p => utf8.encode (string_text v) = Ok p) vals new.
Proof.
  induction vals as [|v vals IH];
    intros cur offsets parts cur' offsets' parts' E.
  - apply Ok_inj in E. inv E. exists []. rewrite !app_nil_r.
    cbn. repeat split; auto; lia.
  - cbn [string_parts] in E. bind_inv. rename a into b. cbv zeta in E.
    destruct (IH _ _ _ _ _ _ E) as (new & -> & -> & -> & F).
    exists (b :: new). rewrite <- !app_assoc. cbn [app cumulative concat].
    rewrite len_app. repeat split; auto; try lia.
    constructor; [|exact F]. destruct v; exact E0.
Qed.

Lemma write_offsets_bytes (offs : list Z) :
  forall buf b,
    write_offsets offs buf = Ok b ->
    b = buf ++ concat (map (le_split 4) offs)
    /\ Forall (fun o => 0 <= o < 2 ^ 32) offs.
Proof.
  induction offs as [|o offs IH]; intros buf b E.
  - apply Ok_inj in E. subst b. rewrite app_nil_r. split; constructor.
  - cbn [write_offsets] in E. bind_inv.
    apply pack_unsigned_ok in E0. destruct E0 as [-> R].
    destruct (IH _ _ E) as [-> F]. cbn [map concat].
    rewrite <- !app_assoc. split; [reflexivity|].
    constructor; [exact R | exact F].
Qed.

(** X12.  The block [serialize_string_column] returns is an offsets table of
    [len(values) + 1] unsigned 32-bit entries followed by the UTF-8 bytes of
    the values, concatenated.  The first entry is 0, each next entry adds the
    byte length of one value, so the last is the length of the data, which is
    at most [0xFFFFFFFF].  [None] contributes no data byte, and a value that
    is not a string contributes the bytes of [str(v)]. *)
Theorem string_block_layout (vals : list value) (b : bytes) :
  serialize_string_column vals = Ok b ->
  exists parts,
    Forall2 (fun v p => utf8.encode (string_text v) = Ok p) vals parts
    /\ b = concat (map (le_split 4) (0 :: cumulative 0 parts)) ++ concat parts
    /\ len (concat parts) <= UINT32_MAX
    /\ len b = 4 * (len vals + 1) + len (concat parts).
Proof.
  unfold serialize_string_column. intros E. bind_inv.
  destruct a as [[cur offsets] parts]. cbv zeta in E.
  destruct (Z.gtb_spec cur UINT32_MAX) as [G|G]; [discriminate|].
  bind_inv. apply Ok_inj in E. subst b. rewrite write_parts_concat.
  destruct (string_parts_encoded _ _ _ _ _ _ _ E0) as (new & -> & -> & -> & F).
  cbn [app] in *.
  destruct (write_offsets_bytes _ _ _ E1) as [-> _]. cbn [app].
  exists new. split; [exact F|]. split; [reflexivity|]. split; [lia|].
  rewrite len_app. f_equal.
  apply Forall2_length in F.
  assert (L : forall l : list Z,
             len (concat (map (le_split 4) l)) = 4 * len l).
  { induction l as [|x l IHl]; [reflexivity|].
    cbn [map concat]. rewrite len_app, IHl. unfold len.
    rewrite length_le_split. simpl length. lia. }
  rewrite L. unfold len. cbn [length]. rewrite length_cumulative. lia.
Qed.

(** X13.  Parsing the block of a string column with the column's length
    returns one string per value: the string itself for a string, the empty
    string for [None], the text of [str(v)] for any other value.  So strings
    survive the round trip unchanged, and a [None] comes back as [''],
    indistinguishable from an empty string. *)
Theorem string_column_roundtrip (vals : list value) (b : bytes) :
  serialize_string_column vals = Ok b ->
  parse_string_block b (len vals)
  = Ok (map (fun v => VStr (string_text v)) vals).
Proof.
  intros E. destruct (parse_serialize_string vals b E) as (vals' & F & P).
  rewrite P. f_equal. clear - F.
  induction F as [|v v' vals vals' H F IH]; [reflexivity|].
  cbn [map]. rewrite IH. f_equal.
  unfold stored_value in H. cbn in H. apply Ok_inj in H. subst v'.
  destruct v; reflexivity.
Qed.

End StringColumns.

Section StringColumnsExample.
#[local] Existing Instance concrete.same_type_builtins.
Import byte_utils column_serializers concrete.

(** The column ["", "hé", None], through X12: offsets 0, 0, 3, 3 and three
    data bytes. *)
Lemma string_block_layout_example :
  exists parts,
    Forall2 (fun v p => utf8.encode (string_text v) = Ok p)
            [VStr []; VStr [0x68; 0xE9]; VNone] parts
    /\ le_split 4 0 ++ le_split 4 0 ++ le_split 4 3 ++ le_split 4 3
       ++ [Byte.x68; Byte.xc3; Byte.xa9]
       = concat (map (le_split 4) (0 :: cumulative 0 parts)) ++ concat parts
    /\ len (concat parts) <= UINT32_MAX
    /\ len (le_split 4 0 ++ le_split 4 0 ++ le_split 4 3 ++ le_split 4 3
            ++ [Byte.x68; Byte.xc3; Byte.xa9])
       = 4 * (len [VStr []; VStr [0x68; 0xE9]; VNone] + 1)
         + len (concat parts).
Proof.
  apply (string_block_layout [VStr []; VStr [0x68; 0xE9]; VNone]).
  vm_compute. reflexivity.
Defined.

(** The same column, through X13: the [None] comes back as the empty
    string. *)
Lemma string_column_roundtrip_example :
  parse_string_block
    (le_split 4 0 ++ le_split 4 0 ++ le_split 4 3 ++ le_split 4 3
       ++ [Byte.x68; Byte.xc3; Byte.xa9]) 3
  = Ok [VStr []; VStr [0x68; 0xE9]; VStr []].
Proof.
  apply (string_column_roundtrip [VStr []; VStr [0x68; 0xE9]; VNone]).
  vm_compute. reflexivity.
Defined.

End StringColumnsExample.

(** ** header_utils: the header as encoded *)

Section HeaderCodec.
Import byte_utils header_utils.

(** X14.  [parse_header] inverts [build_header]: from the bytes of a header,
    followed by anything, it returns the schema signature reduced modulo
    [2^32], the row count and the same column entries in the same order. *)
Theorem header_roundtrip (sig rows : Z) (es : list column_entry)
    (h extra : bytes) :
  build_header sig rows es = Ok h ->
  parse_header (h ++ extra) = Ok (sig mod 2 ^ 32, rows, es).
Proof.
  unfold build_header. intros E. cbv zeta in E. repeat bind_inv.
  destruct (build_entries_spec _ _ _ E) as (blk & -> & P).
  unfold parse_header. rewrite <- !app_assoc.
  unfold unpack_u32, unpack_u64, SIZE_U32, SIZE_U64.
  rewrite (read_packed_field 4 _ _ _ _ E0). cbv beta iota delta [bind].
  rewrite (read_packed_field 8 _ _ _ _ E1).
  rewrite (read_packed_field 4 _ _ _ _ E2).
  unfold len at 1. rewrite Nat2Z.id, P. cbn [app].
  change 0xFFFFFFFF with (Z.ones 32). rewrite Z.land_ones by lia.
  reflexivity.
Qed.

(** A header of two columns with signature [2^32 + 7], through X14. *)
Lemma header_roundtrip_example :
  exists h,
    build_header 4294967303 3
      [Entry (concrete.str "id") 0 0 3 153 14 12;
       Entry (concrete.str "name") 2 0 3 167 33 31] = Ok h
    /\ parse_header (h ++ [Byte.xff; Byte.xff])
       = Ok (7, 3, [Entry (concrete.str "id") 0 0 3 153 14 12;
                    Entry (concrete.str "name") 2 0 3 167 33 31]).
Proof.
  eexists. split; [vm_compute; reflexivity|].
  apply (header_roundtrip 4294967303 3
           [Entry (concrete.str "id") 0 0 3 153 14 12;
            Entry (concrete.str "name") 2 0 3 167 33 31]).
  vm_compute. reflexivity.
Defined.

Lemma build_entries_encodable (es : list column_entry) :
  forall buf h,
    build_entries es buf = Ok h ->
    Forall (fun e =>
              (exists nb, utf8.encode (col_name e) = Ok nb /\ len nb < 2 ^ 16)
              /\ entry_fits e) es.
Proof.
  induction es as [|e es IH]; intros buf h E; [constructor|].
  cbn [build_entries] in E. bind_inv. rename a into name_b. cbv zeta in E.
  destruct (Z.geb_spec (len name_b) (2 ^ 16)); [discriminate|].
  unfold pack_u16, pack_u8, pack_u64 in E. repeat bind_inv.
  repeat match goal with
  | P : pack_unsigned _ _ = Ok _ |- _ =>
    apply pack_unsigned_ok in P; destruct P as [_ P]
  end.
  constructor; [|eapply IH; exact E].
  split; [exists name_b; split; [assumption | lia]|].
  unfold entry_fits.
  change (8 * Z.of_nat 1) with 8 in *. change (8 * Z.of_nat 8) with 64 in *.
  repeat split; lia.
Qed.

Lemma build_entries_total (es : list column_entry) :
  Forall (fun e =>
            (exists nb, utf8.encode (col_name e) = Ok nb /\ len nb < 2 ^ 16)
            /\ entry_fits e) es ->
  forall buf, exists h, build_entries es buf = Ok h.
Proof.
  induction 1 as [|e es [(nb & En & Ln) F] _ IH]; intros buf;
    [eexists; reflexivity|].
  cbn [build_entries]. rewrite En. cbn [bind]. cbv zeta.
  destruct (Z.geb_spec (len nb) (2 ^ 16)); [lia|].
  pose proof (len_nonneg nb). unfold entry_fits in F.
  unfold pack_u16, pack_u8, pack_u64.
  rewrite !pack_unsigned_in_range
    by (change (8 * Z.of_nat 2) with 16; change (8 * Z.of_nat 1) with 8;
        change (8 * Z.of_nat 8) with 64; lia).
  cbn [bind]. apply IH.
Qed.

(** X15.  [build_header] succeeds exactly on a header that fits the format:
    a row count below [2^64], fewer than [2^32] columns, every name encodable
    in fewer than 65536 bytes of UTF-8, and every numeric field within its
    width.  The schema signature is never a reason to fail.  In every other
    case it raises and returns no bytes: no field is ever truncated. *)
Theorem build_header_succeeds_iff (sig rows : Z) (es : list column_entry) :
  (exists h, build_header sig rows es = Ok h) <-> header_encodable rows es.
Proof.
  unfold build_header, header_encodable. cbv zeta. split.
  - intros [h E]. repeat bind_inv.
    apply build_entries_encodable in E.
    apply pack_unsigned_ok in E1, E2. destruct E1 as [_ R1], E2 as [_ R2].
    change (8 * Z.of_nat 8) with 64 in R1.
    change (8 * Z.of_nat 4) with 32 in R2.
    repeat split; try lia. exact E.
  - intros (R & C & F). pose proof (len_nonneg es).
    unfold pack_u32, pack_u64.
    rewrite (pack_unsigned_in_range 4 (Z.land sig 0xFFFFFFFF)).
    2:{ change 0xFFFFFFFF with (Z.ones 32). rewrite Z.land_ones by lia.
        change (8 * Z.of_nat 4) with 32. apply Z.mod_pos_bound. lia. }
    rewrite (pack_unsigned_in_range 8 rows)
      by (change (8 * Z.of_nat 8) with 64; lia).
    rewrite (pack_unsigned_in_range 4 (len es))
      by (change (8 * Z.of_nat 4) with 32; lia).
    cbn [bind]. apply build_entries_total. exact F.
Qed.

Lemma build_entries_size (es : list column_entry) :
  forall buf h,
    build_entries es buf = Ok h ->
    exists name_bs,
      Forall2 (fun e nb => utf8.encode (col_name e) = Ok nb) es name_bs
      /\ len h = len buf + 36 * len es + len (concat name_bs).
Proof.
  induction es as [|e es IH]; intros buf h E.
  - apply Ok_inj in E. subst h. exists []. split; [constructor|].
    cbn. lia.
  - cbn [build_entries] in E. bind_inv. rename a into name_b. cbv zeta in E.
    destruct (len name_b >=? 2 ^ 16); [discriminate|].
    unfold pack_u16, pack_u8, pack_u64 in E. repeat bind_inv.
    repeat match goal with
    | P : pack_unsigned _ _ = Ok _ |- _ => apply pack_unsigned_length in P
    end.
    destruct (IH _ _ E) as (nbs & F & L).
    exists (name_b :: nbs). split; [constructor; assumption|].
    rewrite L. cbn [concat]. rewrite !len_app. unfold len in *.
    simpl length. lia.
Qed.

(** X16.  The length of an encoded header is 16 bytes, plus 36 bytes per
    column, plus the UTF-8 bytes of the column names: it depends on nothing
    else. *)
Theorem build_header_size (sig rows : Z) (es : list column_entry)
    (h : bytes) :
  build_header sig rows es = Ok h ->
  exists name_bs,
    Forall2 (fun e nb => utf8.encode (col_name e) = Ok nb) es name_bs
    /\ len h = 16 + 36 * len es + len (concat name_bs).
Proof.
  unfold build_header. cbv zeta. intros E. repeat bind_inv.
  destruct (build_entries_size _ _ _ E) as (nbs & F & L).
  exists nbs. split; [exact F|]. rewrite L.
  apply pack_unsigned_length in E0, E1, E2.
  rewrite !len_app. unfold len. lia.
Qed.

(** The header of the example file, 133 bytes, through X16. *)
Lemma build_header_size_example :
  exists h name_bs,
    build_header 0 3 concrete.example_header = Ok h
    /\ Forall2 (fun e nb => utf8.encode (col_name e) = Ok nb)
               concrete.example_header name_bs
    /\ len h = 16 + 36 * len concrete.example_header + len (concat name_bs).
Proof.
  eexists.
  destruct (build_header_size 0 3 concrete.example_header _ eq_refl)
    as (nbs & F & L).
  exists nbs. split; [reflexivity|]. split; assumption.
Defined.

End HeaderCodec.

(** ** header_utils: truncated headers *)

Section TruncatedHeader.
Import byte_utils header_utils.

Lemma firstn_app_split {A : Type} (k : nat) (b rest : list A) :
  (k < length b)%nat /\ firstn k (b ++ rest) = firstn k b
  \/ (length b <= k)%nat
     /\ firstn k (b ++ rest) = b ++ firstn (k - length b) rest.
Proof.
  rewrite firstn_app. destruct (Nat.lt_ge_cases k (length b)) as [L|L].
  - left. split; [exact L|].
    replace (k - length b)%nat with 0%nat by lia. cbn. apply app_nil_r.
  - right. split; [exact L|]. rewrite firstn_all2 by lia. reflexivity.
Qed.

(** A fixed-width field read from a buffer cut after [k] bytes: the
    truncation error if the cut falls inside the field, the value and the
    cut rest if not. *)
Lemma read_field_cut (k : nat) (b rest : bytes) (n : nat)
    (unpack : bytes -> result Z) (m : message) (v : Z) :
  length b = n -> unpack b = Ok v ->
  read_field (firstn k (b ++ rest)) (Z.of_nat n) unpack m = Err (ValueError m)
  /\ (k < n)%nat
  \/ read_field (firstn k (b ++ rest)) (Z.of_nat n) unpack m
     = Ok (v, firstn (k - n) rest)
     /\ (n <= k)%nat.
Proof.
  intros L U. destruct (firstn_app_split k b rest) as [[K ->]|[K ->]].
  - left. split; [|lia]. unfold read_field, bio_read. rewrite Nat2Z.id.
    rewrite firstn_firstn.
    replace (Nat.min n k) with k by lia.
    destruct (Z.ltb_spec (len (firstn k b)) (Z.of_nat n)) as [H|H];
      [reflexivity|].
    unfold len in H. rewrite length_firstn in H. lia.
  - right. split; [|lia].
    rewrite (read_field_app b _ (Z.of_nat n) unpack m v);
      [rewrite L; reflexivity | unfold len; lia | exact U].
Qed.

Lemma read_packed_field_cut (k n : nat) (x : Z) (b rest : bytes)
    (m : message) :
  pack_unsigned n x = Ok b ->
  read_field (firstn k (b ++ rest)) (Z.of_nat n) (unpack_unsigned n) m
  = Err (ValueError m) /\ (k < n)%nat
  \/ read_field (firstn k (b ++ rest)) (Z.of_nat n) (unpack_unsigned n) m
     = Ok (x, firstn (k - n) rest) /\ (n <= k)%nat.
Proof.
  intros E. apply read_field_cut.
  - apply (pack_unsigned_length _ _ _ E).
  - apply (unpack_pack_unsigned _ _ _ E).
Qed.

Lemma bio_read_cut (k : nat) (b rest : bytes) :
  bio_read (firstn k (b ++ rest)) (len b) = (firstn k b, [])
  /\ (k < length b)%nat
  \/ bio_read (firstn k (b ++ rest)) (len b)
     = (b, firstn (k - length b) rest)
     /\ (length b <= k)%nat.
Proof.
  destruct (firstn_app_split k b rest) as [[K ->]|[K ->]].
  - left. split; [|exact K]. unfold bio_read, len. rewrite Nat2Z.id.
    rewrite firstn_all2, skipn_all2 by (rewrite length_firstn; lia).
    reflexivity.
  - right. split; [|exact K]. apply bio_read_app. reflexivity.
Qed.

(** Take the next packed field of a cut buffer: either the goal is closed by
    its truncation error, or the field is read and the proof goes on. *)
Ltac next_field E :=
  match goal with
  | |- context [read_field (firstn ?k (?b ++ ?rest)) _ _ ?m] =>
    let H := fresh "H" in
    let K := fresh "K" in
    destruct (read_packed_field_cut k _ _ b rest m E) as [[H K]|[H K]];
    rewrite H; cbv beta iota delta [bind];
    [eexists; reflexivity|]
  end.

Lemma build_entries_cut (es : list column_entry) :
  forall buf h,
    build_entries es buf = Ok h ->
    exists blk,
      h = buf ++ blk
      /\ forall k i cols,
          (k < length blk)%nat ->
          exists m,
            parse_columns (length es) i (firstn k blk) cols
            = Err (ValueError m).
Proof.
  induction es as [|e es IH]; intros buf h E.
  - apply Ok_inj in E. subst h. exists []. rewrite app_nil_r. split; auto.
    intros k i cols K. simpl in K. lia.
  - cbn [build_entries] in E. bind_inv. rename a into name_b.
    cbv zeta in E. destruct (len name_b >=? 2 ^ 16); [discriminate|].
    unfold pack_u16, pack_u8, pack_u64 in E. repeat bind_inv.
    destruct (IH _ _ E) as (blk & -> & P).
    exists (a ++ name_b ++ a0 ++ a1 ++ a2 ++ a3 ++ a4 ++ a5 ++ blk).
    split; [rewrite <- !app_assoc; reflexivity|].
    intros k i cols K. cbn [length parse_columns].
    unfold unpack_u16, unpack_u8, unpack_u64, SIZE_U16, SIZE_U8, SIZE_U64.
    pose proof (pack_unsigned_length _ _ _ E1) as L1.
    pose proof (pack_unsigned_length _ _ _ E2) as L2.
    pose proof (pack_unsigned_length _ _ _ E3) as L3.
    pose proof (pack_unsigned_length _ _ _ E4) as L4.
    pose proof (pack_unsigned_length _ _ _ E5) as L5.
    pose proof (pack_unsigned_length _ _ _ E6) as L6.
    pose proof (pack_unsigned_length _ _ _ E7) as L7.
    rewrite !length_app in K.
    change (Z.of_nat 2) with 2 in *.
    change 2 with (Z.of_nat 2). next_field E1.
    destruct (bio_read_cut (k - 2) name_b
                (a0 ++ a1 ++ a2 ++ a3 ++ a4 ++ a5 ++ blk)) as [[Hn Kn]|[Hn Kn]];
      rewrite Hn; cbv beta iota.
    { destruct (Z.ltb_spec (len (firstn (k - 2) name_b)) (len name_b))
        as [T|T]; [eexists; reflexivity|].
      unfold len in T. rewrite length_firstn in T. lia. }
    destruct (Z.ltb_spec (len name_b) (len name_b)); [lia|].
    rewrite (decode_encode _ _ E0). cbv beta iota delta [bind].
    change 1 with (Z.of_nat 1). change 8 with (Z.of_nat 8).
    next_field E2. next_field E3. next_field E4. next_field E5.
    next_field E6. next_field E7.
    apply P. lia.
Qed.

(** X17.  A header cut short is never accepted: on every proper prefix of
    the bytes [build_header] returned, [parse_header] raises one of its
    "too short" or "truncated" [ValueError]s.  It never returns fewer
    columns or a partial entry. *)
Theorem parse_header_truncated (sig rows : Z) (es : list column_entry)
    (h : bytes) (k : nat) :
  build_header sig rows es = Ok h ->
  (k < length h)%nat ->
  exists m, parse_header (firstn k h) = Err (ValueError m).
Proof.
  unfold build_header. intros E K. cbv zeta in E. repeat bind_inv.
  destruct (build_entries_cut _ _ _ E) as (blk & -> & P).
  pose proof (pack_unsigned_length _ _ _ E0) as L0.
  pose proof (pack_unsigned_length _ _ _ E1) as L1.
  pose proof (pack_unsigned_length _ _ _ E2) as L2.
  unfold pack_u32, pack_u64 in *.
  rewrite !length_app in K.
  unfold parse_header. rewrite <- !app_assoc.
  unfold unpack_u32, unpack_u64, SIZE_U32, SIZE_U64.
  change 4 with (Z.of_nat 4). change 8 with (Z.of_nat 8).
  next_field E0. next_field E1. next_field E2.
  unfold len at 1. rewrite Nat2Z.id.
  destruct (P (k - 4 - 8 - 4)%nat 0 []) as [m Hm]; [lia|].
  rewrite Hm. eexists. reflexivity.
Qed.

(** The header of the example file cut after 100 of its 133 bytes, through
    X17. *)
Lemma parse_header_truncated_example :
  exists h m,
    build_header 0 3 concrete.example_header = Ok h
    /\ parse_header (firstn 100 h) = Err (ValueError m).
Proof.
  eexists.
  destruct (parse_header_truncated 0 3 concrete.example_header _ 100 eq_refl)
    as [m Hm].
  - vm_compute. lia.
  - exists m. split; [reflexivity | exact Hm].
Defined.

End TruncatedHeader.

(** ** writer: what a call leaves behind *)

Section WriterOutcome.
Context {zlib : Zlib} {builtins : PyBuiltins}.
Import byte_utils header_utils column_serializers writer reader.

(** The outcome of a call that opened the file, step by step. *)
Lemma write_cstm_opened (fs : option bytes) (names : list pystr)
    (types : list Z) (cols : list (list value)) (sig : Z) (content : bytes)
    (r : result unit) :
  write_cstm fs names types cols sig = (Some content, r) ->
  r = Ok tt \/ (fs = None /\ 20 <= len content) ->
  exists h0 f0 f1 rb,
    length names = length types /\ length types = length cols
    /\ Forall (fun col => len col = len (nth 0 cols [])) cols
    /\ build_header sig (len (nth 0 cols [])) (make_entries names types cols)
       = Ok h0
    /\ len h0 < 2 ^ 64
    /\ at_end f0
    /\ f_content f0 = (MAGIC ++ [byte.of_Z VERSION] ++ repeat Byte.x00 7
                             ++ le_split 8 (len h0)) ++ h0
    /\ write_blocks (make_entries names types cols) 0 cols f0 = (f1, rb)
    /\ match rb with
       | Err e => r = Err e /\ content = f_content f1
       | Ok es =>
         match build_header sig (len (nth 0 cols [])) es with
         | Err e => r = Err e /\ content = f_content f1
         | Ok h1 =>
           if len h1 =? len h0
           then r = Ok tt
                /\ content = f_content (f_write (f_seek f1 HEADER_PREFIX_LEN) h1)
           else r = Err (RuntimeError MsgHeaderLengthChanged)
                /\ content = f_content f1
         end
       end.
Proof.
  intros W O.
  assert (Pre : forall e, (fs, @Err unit e) <> (Some content, r)).
  { intros e H. apply pair_equal_spec in H. destruct H as [H1 H2].
    destruct O as [->|[-> _]]; discriminate. }
  unfold write_cstm in W.
  destruct (Nat.eqb_spec (length names) (length types)) as [L1|];
    [|exfalso; eapply Pre; exact W].
  destruct (Nat.eqb_spec (length types) (length cols)) as [L2|];
    [|exfalso; eapply Pre; exact W].
  cbn [andb negb] in W. cbv zeta in W.
  match type of W with
  | match ?v with _ => _ end = _ =>
    destruct v as [total_rows|] eqn:V; [|exfalso; eapply Pre; exact W]
  end.
  assert (HT : total_rows = len (nth 0 cols [])
               /\ Forall (fun col => len col = len (nth 0 cols [])) cols).
  { destruct (Z.gtb_spec (len names) 0) as [G|G].
    - bind_inv. destruct a. apply Ok_inj in V. subst total_rows.
      split; [reflexivity|]. eapply check_column_lengths_ok. exact E.
    - apply Ok_inj in V. subst total_rows.
      assert (cols = []) as ->; [|split; [reflexivity | constructor]].
      unfold len in G. destruct cols; [reflexivity | simpl in *; lia]. }
  destruct HT as [-> HF]. clear V.
  destruct (build_header sig (len (nth 0 cols []))
              (make_entries names types cols))
    as [h0|] eqn:B0; [|exfalso; eapply Pre; exact W].
  assert (A0 : at_end (File [] 0)) by reflexivity.
  destruct (f_write_at_end _ MAGIC A0) as [C1 A1].
  destruct (f_write_at_end _ [byte.of_Z VERSION] A1) as [C2 A2].
  destruct (f_write_at_end _ (repeat Byte.x00 7) A2) as [C3 A3].
  destruct (pack_u64 (len h0)) as [b_len|] eqn:PL.
  2:{ exfalso. apply pair_equal_spec in W. destruct W as [W1 W2].
      destruct O as [->|[_ O]]; [discriminate W2|].
      assert (content = f_content
                          (f_write (f_write (f_write (File [] 0) MAGIC)
                                            [byte.of_Z VERSION])
                                   (repeat Byte.x00 7))) as -> by congruence.
      vm_compute in O. apply O. reflexivity. }
  destruct (f_write_at_end _ b_len A3) as [C4 A4].
  destruct (f_write_at_end _ h0 A4) as [C5 A5].
  rewrite C4, C3, C2, C1 in C5. cbn [f_content] in C5.
  match type of A5 with at_end ?f => set (f0 := f) in * end.
  pose proof (pack_unsigned_ok _ _ _ PL) as [Eb Rb].
  change (8 * Z.of_nat 8) with 64 in Rb.
  destruct (write_blocks (make_entries names types cols) 0 cols f0)
    as [f1 rb] eqn:WB.
  exists h0, f0, f1, rb.
  split; [exact L1|]. split; [exact L2|]. split; [exact HF|].
  split; [reflexivity|]. split; [lia|]. split; [exact A5|].
  split.
  { rewrite C5, Eb. cbn [app]. rewrite <- !app_assoc. reflexivity. }
  split; [exact WB|].
  destruct rb as [es|e].
  - destruct (build_header sig (len (nth 0 cols [])) es) as [h1|e] eqn:B1.
    + destruct (len h1 =? len h0); cbn [negb] in W;
        apply pair_equal_spec in W; destruct W as [W1 W2];
        split; congruence.
    + apply pair_equal_spec in W. destruct W as [W1 W2]. split; congruence.
  - apply pair_equal_spec in W. destruct W as [W1 W2]. split; congruence.
Qed.


(** The blocks of a completed loop lie one after the other. *)
Lemma write_blocks_contiguous (columns : list (list value))
    (entries : list column_entry) :
  forall idx f f' entries',
    at_end f ->
    write_blocks entries idx columns f = (f', Ok entries') ->
    blocks_contiguous (len (f_content f)) entries' (len (f_content f'))
    /\ map col_flags entries' = map col_flags entries.
Proof.
  induction entries as [|e entries IH]; intros idx f f' entries' A E.
  - cbn in E. inv E. split; reflexivity.
  - cbn [write_blocks] in E.
    destruct (_SERIALIZERS (col_type e)) as [ser|]; [|inv E].
    destruct (nth_error columns idx) as [col|]; [|inv E].
    destruct (ser col) as [unc|]; [|inv E].
    cbv zeta in E.
    destruct (write_blocks entries (S idx) columns
                (f_write f (zlib_compress unc))) as [f1 r1] eqn:W.
    destruct r1 as [rest'|]; [|inv E].
    apply pair_equal_spec in E. destruct E as [-> E]. apply Ok_inj in E.
    subst entries'.
    destruct (f_write_at_end f (zlib_compress unc) A) as [C A1].
    destruct (IH _ _ _ _ A1 W) as [IH1 IH2].
    rewrite C, len_app in IH1.
    cbn [blocks_contiguous map col_offset col_comp_size col_flags].
    unfold f_tell. unfold at_end in A. rewrite A.
    split; [|congruence].
    split; [reflexivity|]. split; [apply len_nonneg | exact IH1].
Qed.

Lemma make_entries_flags (names : list pystr) :
  forall types cols,
    Forall (fun e => col_flags e = 0 /\ col_offset e = 0
                     /\ col_comp_size e = 0 /\ col_uncomp_size e = 0)
           (make_entries names types cols).
Proof.
  induction names as [|n names IH]; intros [|t types] [|c cols];
    cbn [make_entries]; constructor; auto.
Qed.

(** The prefix and header of a file laid out as the writer does, with the
    position the handle is left at. *)
Lemma read_prefix_and_header_written_at (sig rows : Z)
    (es : list column_entry) (header blocks : bytes) :
  build_header sig rows es = Ok header ->
  len header < 2 ^ 64 ->
  read_prefix_and_header
    ((MAGIC ++ [byte.of_Z VERSION] ++ repeat Byte.x00 7
            ++ le_split 8 (len header)) ++ header ++ blocks)
  = Ok (File ((MAGIC ++ [byte.of_Z VERSION] ++ repeat Byte.x00 7
                     ++ le_split 8 (len header)) ++ header ++ blocks)
             (20 + length header),
        (Z.land sig 0xFFFFFFFF, rows, es)).
Proof.
  intros B R.
  set (content := (MAGIC ++ _) ++ _).
  assert (Ec : content
               = MAGIC ++ [byte.of_Z VERSION] ++ repeat Byte.x00 7
                       ++ le_split 8 (len header) ++ header ++ blocks).
  { subst content. rewrite <- !app_assoc. reflexivity. }
  unfold read_prefix_and_header.
  rewrite (read_exact_at content [] MAGIC
             ([byte.of_Z VERSION] ++ repeat Byte.x00 7
                ++ le_split 8 (len header) ++ header ++ blocks));
    [| exact Ec | reflexivity | reflexivity].
  cbv beta iota delta [bind]. rewrite bytes_eqb_refl. cbn [negb].
  rewrite (read_exact_at content MAGIC [byte.of_Z VERSION]
             (repeat Byte.x00 7 ++ le_split 8 (len header) ++ header ++ blocks));
    [| exact Ec | reflexivity | reflexivity].
  rewrite (read_exact_at content (MAGIC ++ [byte.of_Z VERSION])
             (repeat Byte.x00 7) (le_split 8 (len header) ++ header ++ blocks));
    [| exact Ec | reflexivity | reflexivity].
  rewrite (read_exact_at content
             (MAGIC ++ [byte.of_Z VERSION] ++ repeat Byte.x00 7)
             (le_split 8 (len header)) (header ++ blocks));
    [| exact Ec | reflexivity
     | unfold len; rewrite length_le_split; reflexivity].
  assert (U : unpack_u64 (le_split 8 (len header)) = Ok (len header)).
  { apply unpack_pack_unsigned. apply pack_unsigned_in_range.
    pose proof (len_nonneg header). change (8 * Z.of_nat 8) with 64. lia. }
  rewrite U.
  rewrite (read_exact_at content
             (MAGIC ++ [byte.of_Z VERSION] ++ repeat Byte.x00 7
                    ++ le_split 8 (len header))
             header blocks);
    [| rewrite Ec, <- !app_assoc; reflexivity
     | rewrite !length_app, length_le_split; reflexivity
     | reflexivity].
  rewrite (parse_build_header _ _ _ _ B). rewrite length_le_split.
  reflexivity.
Qed.

(** *** The exceptions of a write *)

Lemma encode_raises (s : pystr) (e : exn) :
  utf8.encode s = Err e -> e = UnicodeEncodeError.
Proof.
  induction s as [|c s IH]; cbn [utf8.encode]; [discriminate|].
  destruct (utf8.encode_cp c) as [b|e'] eqn:C; cbn [bind].
  - destruct (utf8.encode s) as [bs|e'']; cbn [bind]; [discriminate|].
    intros E. apply IH. congruence.
  - intros E. unfold utf8.encode_cp in C.
    repeat match type of C with
    | (if ?c then _ else _) = _ => destruct c
    end; congruence.
Qed.

(** An exception of [build_header] is a [ValueError] (name too long,
    name not encodable) or a [struct.error]. *)
Lemma build_entries_raises (es : list column_entry) :
  forall buf e,
    build_entries es buf = Err e -> is_ValueError e = true \/ e = StructError.
Proof.
  induction es as [|x es IH]; intros buf e E; [discriminate|].
  cbn [build_entries] in E.
  destruct (utf8.encode (col_name x)) as [name_b|e'] eqn:N; cbn [bind] in E.
  2:{ apply encode_raises in N. left. subst e'.
      assert (e = UnicodeEncodeError) as -> by congruence. reflexivity. }
  cbv zeta in E.
  destruct (len name_b >=? 2 ^ 16);
    [left; assert (e = ValueError MsgNameTooLong) as -> by congruence;
     reflexivity|].
  unfold pack_u16, pack_u8, pack_u64 in E.
  repeat match type of E with
  | bind (pack_unsigned ?n ?x) _ = _ =>
    let P := fresh "P" in
    destruct (pack_unsigned n x) eqn:P; cbn [bind] in E;
    [|apply pack_unsigned_err in P; destruct P as [-> _];
      right; congruence]
  end.
  eapply IH. exact E.
Qed.

Lemma build_header_raises (sig rows : Z) (es : list column_entry) (e : exn) :
  build_header sig rows es = Err e -> is_ValueError e = true \/ e = StructError.
Proof.
  unfold build_header, pack_u32, pack_u64. cbv zeta. intros E.
  repeat match type of E with
  | bind (pack_unsigned ?n ?x) _ = _ =>
    let P := fresh "P" in
    destruct (pack_unsigned n x) eqn:P; cbn [bind] in E;
    [|apply pack_unsigned_err in P; destruct P as [-> _];
      right; congruence]
  end.
  eapply build_entries_raises. exact E.
Qed.

Lemma serialize_int32_loop_raises (vals : list value) :
  forall buf e, serialize_int32_loop vals buf = Err e -> raised_by_codec e.
Proof.
  induction vals as [|v vals IH]; intros buf e E; [discriminate|].
  cbn [serialize_int32_loop] in E.
  assert (Conv : (iv <- py_int v ;;
                  if (iv <? I32_MIN) || (iv >? I32_MAX)
                  then Err (ValueError (MsgInt32Range iv))
                  else b <- pack_i32 iv ;;
                       serialize_int32_loop vals (buf ++ b)) = Err e ->
                 raised_by_codec e).
  { clear E. intros E. destruct (py_int v) as [iv|e'] eqn:P; cbn [bind] in E.
    - destruct ((iv <? I32_MIN) || (iv >? I32_MAX)).
      + left. assert (e = ValueError (MsgInt32Range iv)) as -> by congruence.
        reflexivity.
      + unfold pack_i32 in E.
        destruct ((- 2 ^ 31 <=? iv) && (iv <? 2 ^ 31)); cbn [bind] in E.
        * eapply IH. exact E.
        * right. left. congruence.
    - right. right. left. exists v. congruence. }
  destruct v; try (apply Conv; exact E).
  left. assert (e = ValueError MsgNullInt32) as -> by congruence. reflexivity.
Qed.

Lemma serialize_float64_loop_raises (vals : list value) :
  forall buf e, serialize_float64_loop vals buf = Err e -> raised_by_codec e.
Proof.
  induction vals as [|v vals IH]; intros buf e E; [discriminate|].
  cbn [serialize_float64_loop] in E.
  assert (Conv : (fv <- py_float v ;;
                  b <- pack_f64 fv ;;
                  serialize_float64_loop vals (buf ++ b)) = Err e ->
                 raised_by_codec e).
  { clear E. intros E. destruct (py_float v) as [fv|e'] eqn:P; cbn [bind] in E.
    - eapply IH. exact E.
    - right. right. right. exists v. congruence. }
  destruct v; try (apply Conv; exact E).
  left. assert (e = ValueError MsgNullFloat64) as -> by congruence.
  reflexivity.
Qed.

Lemma string_parts_raises (vals : list value) :
  forall cur offsets parts e,
    string_parts vals cur offsets parts = Err e -> e = UnicodeEncodeError.
Proof.
  induction vals as [|v vals IH]; intros cur offsets parts e E;
    [discriminate|].
  cbn [string_parts] in E.
  match type of E with
  | bind ?r _ = _ => destruct r as [b|e'] eqn:R; cbn [bind] in E
  end.
  - cbv zeta in E. eapply IH. exact E.
  - assert (e' = e) as -> by congruence.
    destruct v; try discriminate R; eapply encode_raises; exact R.
Qed.

Lemma write_offsets_raises (offs : list Z) :
  forall buf e, write_offsets offs buf = Err e -> e = StructError.
Proof.
  induction offs as [|o offs IH]; intros buf e E; [discriminate|].
  cbn [write_offsets] in E. unfold pack_u32 in E.
  destruct (pack_unsigned 4 o) eqn:P; cbn [bind] in E.
  - eapply IH. exact E.
  - apply pack_unsigned_err in P. destruct P as [-> _]. congruence.
Qed.

Lemma serialize_string_column_raises (vals : list value) (e : exn) :
  serialize_string_column vals = Err e -> raised_by_codec e.
Proof.
  unfold serialize_string_column. intros E.
  destruct (string_parts vals 0 [0] []) as [[[cur offsets] parts]|e'] eqn:S;
    cbn [bind] in E.
  - cbv zeta in E. destruct (cur >? UINT32_MAX).
    + left. assert (e = ValueError MsgStringTooLarge) as -> by congruence.
      reflexivity.
    + destruct (write_offsets offsets []) eqn:W; cbn [bind] in E;
        [discriminate|].
      apply write_offsets_raises in W. right. left. congruence.
  - apply string_parts_raises in S. left.
    assert (e = UnicodeEncodeError) as -> by congruence. reflexivity.
Qed.

Lemma write_blocks_raises (columns : list (list value))
    (entries : list column_entry) :
  forall idx f f' e,
    (idx + length entries <= length columns)%nat ->
    write_blocks entries idx columns f = (f', Err e) -> raised_by_codec e.
Proof.
  induction entries as [|x entries IH]; intros idx f f' e L E.
  - cbn in E. apply pair_equal_spec in E. destruct E as [_ E]. discriminate E.
  - cbn [write_blocks] in E. cbn [length] in L.
    unfold _SERIALIZERS in E.
    assert (Ser : forall ser : list value -> result bytes,
               (forall col e0, ser col = Err e0 -> raised_by_codec e0) ->
               match nth_error columns idx with
               | Some col =>
                 match ser col with
                 | Ok uncompressed =>
                   let '(f1, r) :=
                     write_blocks entries (S idx) columns
                       (f_write f (zlib_compress uncompressed)) in
                   (f1, match r with
                        | Ok rest' =>
                          Ok (Entry (col_name x) (col_type x) (col_flags x)
                                    (col_num_values x) (f_tell f)
                                    (len (zlib_compress uncompressed))
                                    (len uncompressed) :: rest')
                        | Err e0 => Err e0
                        end)
                 | Err e0 => (f, Err e0)
                 end
               | None => (f, Err IndexError)
               end = (f', Err e) -> raised_by_codec e).
    { intros ser Hser E'.
      destruct (nth_error columns idx) as [col|] eqn:N.
      2:{ apply nth_error_None in N. lia. }
      destruct (ser col) as [unc|e0] eqn:U.
      - destruct (write_blocks entries (S idx) columns
                    (f_write f (zlib_compress unc))) as [f1 r1] eqn:W.
        destruct r1 as [rest'|e1].
        + apply pair_equal_spec in E'. destruct E' as [_ E']. discriminate E'.
        + apply pair_equal_spec in E'. destruct E' as [_ E'].
          assert (e1 = e) as -> by congruence.
          eapply (IH (S idx)); [|exact W]. lia.
      - apply pair_equal_spec in E'. destruct E' as [_ E'].
        assert (e0 = e) as -> by congruence. eapply Hser. exact U. }
    destruct (col_type x =? 0).
    { apply (Ser serialize_int32_column); [|exact E].
      intros col e0. apply serialize_int32_loop_raises. }
    destruct (col_type x =? 1).
    { apply (Ser serialize_float64_column); [|exact E].
      intros col e0. apply serialize_float64_loop_raises. }
    destruct (col_type x =? 2).
    { apply (Ser serialize_string_column); [|exact E].
      intros col e0. apply serialize_string_column_raises. }
    apply pair_equal_spec in E. destruct E as [_ E]. left.
    assert (e = ValueError (MsgUnknownTypeId (col_type x) (col_name x)))
      as -> by congruence.
    reflexivity.
Qed.

Lemma check_column_lengths_raises (cols : list (list value)) :
  forall i total e,
    check_column_lengths cols i total = Err e -> is_ValueError e = true.
Proof.
  induction cols as [|c cols IH]; intros i total e E; [discriminate|].
  cbn [check_column_lengths] in E.
  destruct (negb (len c =? total)); [|eapply IH; exact E].
  assert (e = ValueError (MsgColumnLength i (len c) total)) as ->
    by congruence.
  reflexivity.
Qed.

(** X18.  Every exception of [write_cstm] is a [ValueError] (its subclass
    [UnicodeEncodeError] included), a [struct.error], or the exception that
    a conversion [int(v)] or [float(v)] of a cell raised.  The
    [RuntimeError] of its header-length check is never raised, and no
    [IndexError] escapes from indexing [columns]. *)
Theorem write_cstm_raises (fs : option bytes) (names : list pystr)
    (types : list Z) (cols : list (list value)) (sig : Z)
    (fs' : option bytes) (e : exn) :
  write_cstm fs names types cols sig = (fs', Err e) ->
  is_ValueError e = true \/ e = StructError
  \/ (exists v, py_int v = Err e) \/ (exists v, py_float v = Err e).
Proof.
  intros W. change (raised_by_codec e). unfold write_cstm in W.
  assert (Out : forall (s : option bytes) e0,
             (s, @Err unit e0) = (fs', Err e) -> e0 = e).
  { intros s e0 H. apply pair_equal_spec in H. destruct H as [_ H].
    congruence. }
  destruct (Nat.eqb_spec (length names) (length types)) as [L1|];
    [|apply Out in W; subst e; left; reflexivity].
  destruct (Nat.eqb_spec (length types) (length cols)) as [L2|];
    [|apply Out in W; subst e; left; reflexivity].
  cbn [andb negb] in W. cbv zeta in W.
  match type of W with
  | match ?v with _ => _ end = _ =>
    destruct v as [total_rows|e0] eqn:V
  end.
  2:{ apply Out in W. subst e0. left.
      destruct (len names >? 0); [|discriminate V].
      destruct (check_column_lengths cols 0 (len (nth 0 cols []))) eqn:C;
        cbn [bind] in V; [discriminate V|].
      apply check_column_lengths_raises in C. congruence. }
  destruct (build_header sig total_rows (make_entries names types cols))
    as [h0|e0] eqn:B0.
  2:{ apply Out in W. subst e0.
      destruct (build_header_raises _ _ _ _ B0) as [H|H];
        [left; exact H | right; left; exact H]. }
  destruct (pack_u64 (len h0)) as [b_len|e0] eqn:PL.
  2:{ apply Out in W. subst e0. apply pack_unsigned_err in PL.
      right. left. tauto. }
  destruct (make_entries_spec names types cols L1 L2) as (ML & Mn & Mt & Mv).
  match type of W with
  | (let '(_, _) := write_blocks ?es ?i ?c ?f in _) = _ =>
    destruct (write_blocks es i c f) as [f1 rb] eqn:WB
  | match write_blocks ?es ?i ?c ?f with _ => _ end = _ =>
    destruct (write_blocks es i c f) as [f1 rb] eqn:WB
  end.
  destruct rb as [es|e0].
  2:{ apply Out in W. subst e0.
      eapply (write_blocks_raises cols _ 0%nat); [|exact WB]. lia. }
  destruct (build_header sig total_rows es) as [h1|e0] eqn:B1.
  2:{ apply Out in W. subst e0.
      destruct (build_header_raises _ _ _ _ B1) as [H|H];
        [left; exact H | right; left; exact H]. }
  destruct (Z.eqb_spec (len h1) (len h0)) as [LH|LH]; cbn [negb] in W.
  - apply pair_equal_spec in W. destruct W as [_ W]. discriminate W.
  - exfalso. apply LH.
    assert (A0 : at_end (File [] 0)) by reflexivity.
    destruct (f_write_at_end _ MAGIC A0) as [_ A1].
    destruct (f_write_at_end _ [byte.of_Z VERSION] A1) as [_ A2].
    destruct (f_write_at_end _ (repeat Byte.x00 7) A2) as [_ A3].
    destruct (f_write_at_end _ b_len A3) as [_ A4].
    destruct (f_write_at_end _ h0 A4) as [_ A5].
    eapply (final_header_length names types cols sig total_rows);
      [exact L1 | exact L2 | exact A5 | exact B0 | exact WB | exact B1].
Qed.

(** *** The file of a successful write *)

Lemma Forall_map_eq {A B : Type} (f : A -> B) (P : B -> Prop)
    (l l' : list A) :
  map f l' = map f l -> Forall (fun x => P (f x)) l ->
  Forall (fun x => P (f x)) l'.
Proof.
  revert l'. induction l as [|x l IH]; intros [|y l'] M F;
    try discriminate M; constructor.
  - cbn [map] in M. inversion F; subst. injection M as M1 M2.
    rewrite M1. assumption.
  - cbn [map] in M. inversion F; subst. injection M as M1 M2. eauto.
Qed.

(** The layout of the file a successful [write_cstm] leaves: prefix, final
    header, blocks; and what the final entries hold. *)
Lemma write_cstm_layout (fs : option bytes) (names : list pystr)
    (types : list Z) (cols : list (list value)) (sig : Z) (content : bytes) :
  write_cstm fs names types cols sig = (Some content, Ok tt) ->
  exists es h1 blocks,
    build_header sig (len (nth 0 cols [])) es = Ok h1
    /\ len h1 < 2 ^ 64
    /\ content = (MAGIC ++ [byte.of_Z VERSION] ++ repeat Byte.x00 7
                        ++ le_split 8 (len h1)) ++ h1 ++ blocks
    /\ blocks_contiguous (20 + len h1) es (len content)
    /\ map col_name es = names
    /\ map col_type es = types
    /\ map col_num_values es = map len cols
    /\ Forall (fun e => col_flags e = 0) es
    /\ Forall2 (fun col e => col_num_values e = len col
                             /\ stored_block content col e) cols es.
Proof.
  intros W.
  destruct (write_cstm_opened _ _ _ _ _ _ _ W (or_introl eq_refl))
    as (h0 & f0 & f1 & rb & L1 & L2 & HF & B0 & R0 & A0 & C0 & WB & Out).
  destruct rb as [es|e]; [|destruct Out as [Out _]; discriminate Out].
  destruct (build_header sig (len (nth 0 cols [])) es) as [h1|e] eqn:B1;
    [|destruct Out as [Out _]; discriminate Out].
  destruct (Z.eqb_spec (len h1) (len h0)) as [LH|LH];
    [|destruct Out as [Out _]; discriminate Out].
  destruct Out as [_ Hc].
  destruct (make_entries_spec names types cols L1 L2) as (ML & Mn & Mt & Mv).
  destruct (write_blocks_spec cols _ 0%nat f0 f1 es A0 ML WB)
    as (blocks & C1 & A1 & Hn & Ht & Hv & F).
  destruct (write_blocks_contiguous cols _ 0%nat f0 f1 es A0 WB)
    as [Tile Fl].
  set (P := MAGIC ++ [byte.of_Z VERSION] ++ repeat Byte.x00 7
                  ++ le_split 8 (len h0)) in *.
  assert (LP : length P = 20%nat).
  { subst P. rewrite !length_app, length_le_split. reflexivity. }
  assert (Hc' : content = P ++ h1 ++ blocks).
  { rewrite Hc. unfold f_seek. rewrite C1, C0, <- app_assoc.
    apply f_write_over.
    - rewrite LP. reflexivity.
    - unfold len in LH. lia. }
  exists es, h1, blocks.
  split; [exact B1|]. split; [lia|].
  split; [rewrite LH; exact Hc'|].
  split.
  { assert (E1 : len (f_content f0) = 20 + len h1).
    { rewrite C0, len_app. unfold len at 1. rewrite LP. lia. }
    assert (E2 : len (f_content f1) = len content).
    { rewrite C1, C0, Hc', !len_app. lia. }
    rewrite <- E1, <- E2. exact Tile. }
  split; [congruence|]. split; [congruence|]. split; [congruence|].
  split.
  { apply (Forall_map_eq col_flags (fun x => x = 0)
             (make_entries names types cols) es Fl).
    eapply Forall_impl; [|apply make_entries_flags]. cbv beta. tauto. }
  apply Forall2_with_maps with (g := len); [congruence|].
  specialize (F (P ++ h1) []).
  rewrite app_nil_r in F. cbn [skipn] in F.
  rewrite Hc', app_assoc. apply F.
  rewrite C0, !length_app. unfold len in LH. lia.
Qed.

(** X19.  In the file of a successful [write_cstm] the column blocks start
    where the header ends and lie one after the other up to the end of the
    file, in column order: the offset of each is the end of the one before,
    there is no gap, no overlap and nothing after the last block. *)
Theorem written_blocks_contiguous (fs : option bytes) (names : list pystr)
    (types : list Z) (cols : list (list value)) (sig : Z) (content : bytes) :
  write_cstm fs names types cols sig = (Some content, Ok tt) ->
  exists f sig' rows metas,
    read_prefix_and_header content = Ok (f, (sig', rows, metas))
    /\ blocks_contiguous (f_tell f) metas (len content).
Proof.
  intros W.
  destruct (write_cstm_layout _ _ _ _ _ _ W)
    as (es & h1 & blocks & B & R & C & Tile & _).
  pose proof (read_prefix_and_header_written_at _ _ _ _ blocks B R) as H.
  rewrite <- C in H.
  eexists. exists (Z.land sig 0xFFFFFFFF), (len (nth 0 cols [])), es.
  split; [exact H|].
  unfold f_tell. cbn [f_pos]. rewrite Nat2Z.inj_add. exact Tile.
Qed.

(** X20.  The header of the file of a successful [write_cstm] holds the
    schema signature reduced to its low 32 bits, the length of the first
    column as the row count (0 when there is no column), and per column the
    name, the type id and the number of values given, with [flags] 0; the
    bytes 4 to 11 of the file are the version 1 and seven zero bytes. *)
Theorem written_header_fields (fs : option bytes) (names : list pystr)
    (types : list Z) (cols : list (list value)) (sig : Z) (content : bytes) :
  write_cstm fs names types cols sig = (Some content, Ok tt) ->
  exists f metas,
    read_prefix_and_header content
    = Ok (f, (sig mod 2 ^ 32, len (nth 0 cols []), metas))
    /\ map col_name metas = names
    /\ map col_type metas = types
    /\ map col_num_values metas = map len cols
    /\ Forall (fun e => col_flags e = 0) metas
    /\ slice content 4 12 = byte.of_Z 1 :: repeat Byte.x00 7.
Proof.
  intros W.
  destruct (write_cstm_layout _ _ _ _ _ _ W)
    as (es & h1 & blocks & B & R & C & _ & Hn & Ht & Hv & Fl & _).
  pose proof (read_prefix_and_header_written_at _ _ _ _ blocks B R) as H.
  rewrite <- C in H.
  change 0xFFFFFFFF with (Z.ones 32) in H. rewrite Z.land_ones in H by lia.
  eexists. exists es. split; [exact H|].
  split; [exact Hn|]. split; [exact Ht|]. split; [exact Hv|].
  split; [exact Fl|].
  rewrite C. reflexivity.
Qed.

End WriterOutcome.

(** ** reader: descriptors without a block, and what a failed write leaves *)

Section EmptyDescriptors.
Context {zlib : Zlib} {builtins : PyBuiltins}.
Import byte_utils header_utils column_serializers writer reader.

Lemma read_columns_zero (sel : list column_entry) :
  forall f acc,
    Forall (fun e => col_comp_size e = 0 /\ col_uncomp_size e = 0) sel ->
    read_columns sel f acc
    = Ok (acc ++ map (fun e => (col_name e, [])) sel).
Proof.
  induction sel as [|e sel IH]; intros f acc F.
  - cbn. rewrite app_nil_r. reflexivity.
  - inversion F as [|e0 sel0 [Hc Hu] F']; subst.
    cbn [read_columns map]. cbv zeta. rewrite Hc, Hu. cbn [Z.eqb andb].
    rewrite (IH f _ F'), <- app_assoc. reflexivity.
Qed.

Lemma check_lengths_empty {A : Type} (l : list A) :
  check_lengths (map (fun _ => []) l) 0 = Ok tt.
Proof. induction l as [|x l IH]; [reflexivity | exact IH]. Qed.

Lemma read_cstm_zero (content : bytes) (f : file) (sig rows : Z)
    (metas : list column_entry) :
  read_prefix_and_header content = Ok (f, (sig, rows, metas)) ->
  Forall (fun e => col_comp_size e = 0 /\ col_uncomp_size e = 0) metas ->
  read_cstm content None = Ok (map col_name metas, []).
Proof.
  intros H F. unfold read_cstm. rewrite H. cbv beta iota delta [bind].
  rewrite (read_columns_zero metas f [] F). cbn [app].
  destruct metas as [|e metas]; [reflexivity|].
  cbn [map length Nat.eqb fst snd nth]. rewrite !map_map. cbn [fst snd].
  change (Z.of_nat 0) with 0.
  cbn [check_lengths]. change (len (@nil value)) with 0. cbn [Z.eqb negb].
  rewrite check_lengths_empty. reflexivity.
Qed.

(** X21.  A descriptor whose [comp_size] and [uncomp_size] are both zero is
    read as an empty column whatever its [num_values], [offset] and [type]
    say, and without looking at the rest of the file: a file whose
    descriptors are all of this kind reads as its column names and no
    rows. *)
Theorem zero_size_descriptors_read_empty (content : bytes) (f : file)
    (sig rows : Z) (metas : list column_entry) :
  read_prefix_and_header content = Ok (f, (sig, rows, metas)) ->
  Forall (fun e => col_comp_size e = 0 /\ col_uncomp_size e = 0) metas ->
  read_cstm content None = Ok (map col_name metas, []).
Proof. exact (read_cstm_zero content f sig rows metas). Qed.


End EmptyDescriptors.

Section WriterOutcomeExample.
#[local] Existing Instance concrete.stored_zlib.
#[local] Existing Instance concrete.same_type_builtins.
Import byte_utils header_utils column_serializers writer reader concrete.

(** A cell outside the 32-bit range in an INT32 column, through X18. *)
Lemma write_cstm_raises_example :
  exists fs' e,
    write_cstm None [str "a"] [0] [[VInt (2 ^ 31)]] 0 = (fs', Err e)
    /\ (is_ValueError e = true \/ e = StructError
        \/ (exists v, py_int v = Err e) \/ (exists v, py_float v = Err e)).
Proof.
  eexists. eexists. split; [vm_compute; reflexivity|].
  eapply (write_cstm_raises None [str "a"] [0] [[VInt (2 ^ 31)]] 0).
  vm_compute. reflexivity.
Defined.

(** The example table, through X19: its three blocks fill bytes 153 to 214
    of the file. *)
Lemma written_blocks_contiguous_example :
  exists f sig' rows metas,
    read_prefix_and_header example_file = Ok (f, (sig', rows, metas))
    /\ blocks_contiguous (f_tell f) metas (len example_file).
Proof.
  apply (written_blocks_contiguous None example_names example_types
           example_columns 0 example_file).
  vm_compute. reflexivity.
Defined.

(** The example table written with a signature wider than 32 bits, through
    X20. *)
Lemma written_header_fields_example :
  exists content f metas,
    write_cstm None example_names example_types example_columns (2 ^ 32 + 7)
    = (Some content, Ok tt)
    /\ read_prefix_and_header content = Ok (f, (7, 3, metas))
    /\ map col_name metas = example_names
    /\ map col_type metas = example_types
    /\ map col_num_values metas = [3; 3; 3]
    /\ Forall (fun e => col_flags e = 0) metas
    /\ slice content 4 12 = byte.of_Z 1 :: repeat Byte.x00 7.
Proof.
  eexists.
  assert (W : write_cstm None example_names example_types example_columns
                (2 ^ 32 + 7)
              = (Some _, Ok tt)) by (vm_compute; reflexivity).
  destruct (written_header_fields _ _ _ _ _ _ W) as (f & metas & H).
  exists f, metas. split; [exact W | exact H].
Defined.

(** A header that announces five values for a column without a block,
    through X21. *)
Lemma zero_size_descriptors_read_empty_example :
  exists h,
    build_header 7 5 [Entry (str "a") 0 0 5 99 0 0] = Ok h
    /\ read_cstm (MAGIC ++ [byte.of_Z VERSION] ++ repeat Byte.x00 7
                        ++ le_split 8 (len h) ++ h) None
       = Ok ([str "a"], []).
Proof.
  eexists. split; [vm_compute; reflexivity|].
  eapply (zero_size_descriptors_read_empty _ (File _ _) 7 5
            [Entry (str "a") 0 0 5 99 0 0]).
  - vm_compute. reflexivity.
  - repeat constructor.
Defined.


End WriterOutcomeExample.

(** ** reader: what it rejects, what it returns, what it looks at *)

Section ReaderBehaviour.
Context {zlib : Zlib} {builtins : PyBuiltins}.
Import byte_utils header_utils column_serializers writer reader.

Lemma bytes_eqb_eq (a b : bytes) : bytes_eqb a b = true -> a = b.
Proof.
  apply list_eqb_spec. intros x y. split.
  - apply Byte.byte_dec_bl.
  - apply Byte.byte_dec_lb.
Qed.

(** X23.  A file that does not start with the four bytes [CSTM] is rejected
    before anything else of it is looked at, whatever the selection: with
    [EOFError] when it has fewer than four bytes, with the [RuntimeError]
    "Bad magic" otherwise. *)
Theorem read_cstm_rejects_foreign_files (content : bytes)
    (select_columns : option (list pystr)) :
  firstn 4 content <> MAGIC ->
  read_cstm content select_columns
  = Err (if len content <? 4 then EOFError 4 (len content)
         else RuntimeError MsgBadMagic).
Proof.
  intros N. unfold read_cstm, read_prefix_and_header, read_exact, f_read.
  cbn [f_content f_pos skipn]. change (Z.to_nat 4) with 4%nat.
  unfold len. rewrite length_firstn.
  destruct (Z.ltb_spec (Z.of_nat (length content)) 4) as [S|S].
  - rewrite Nat.min_r by lia.
    destruct (Z.eqb_spec (Z.of_nat (length content)) 4); [lia|]. reflexivity.
  - rewrite Nat.min_l by lia. cbn [Z.of_nat Z.eqb Pos.of_succ_nat Pos.succ
                                   Pos.eqb bind].
    destruct (bytes_eqb (firstn 4 content) MAGIC) eqn:B.
    + apply bytes_eqb_eq in B. contradiction.
    + reflexivity.
Qed.

Lemma dict_get_name (metas : list column_entry) (n : pystr)
    (col : column_entry) :
  dict_get (name_to_meta metas) n = Some col ->
  In col metas /\ col_name col = n.
Proof.
  rewrite dict_get_name_to_meta.
  destruct (last_index n (map col_name metas)) as [i|] eqn:L; [|discriminate].
  intros E. apply last_index_Some in L. rewrite nth_error_map, E in L.
  cbn [option_map] in L. split; [eapply nth_error_In; exact E | congruence].
Qed.

Lemma select_loop_resolved (metas : list column_entry) (sel : list pystr) :
  forall acc selected,
    select_loop sel (name_to_meta metas) acc = Ok selected ->
    map col_name selected = map col_name acc ++ sel
    /\ (forall P : column_entry -> Prop,
          Forall P acc ->
          (forall e, In e metas -> In (col_name e) sel -> P e) ->
          Forall P selected).
Proof.
  induction sel as [|n sel IH]; intros acc selected E.
  - cbn in E. apply Ok_inj in E. subst. rewrite app_nil_r. auto.
  - cbn [select_loop] in E.
    destruct (dict_get (name_to_meta metas) n) as [col|] eqn:G;
      [|discriminate].
    apply dict_get_name in G. destruct G as [I Hn].
    destruct (IH _ _ E) as [M F]. split.
    + rewrite M, map_app, <- app_assoc. cbn [map app]. rewrite Hn.
      reflexivity.
    + intros P Fa Hp. apply F.
      * apply Forall_app. split; [exact Fa|]. constructor; [|constructor].
        apply Hp; [exact I | left; symmetry; exact Hn].
      * intros e Ie Is. apply Hp; [exact Ie | right; exact Is].
Qed.

(** X24.  What [read_cstm] returns is rectangular: every row has one cell
    per returned name.  With a selection the returned names are the
    requested list itself, in its order and with its repetitions. *)
Theorem read_cstm_shape (content : bytes)
    (select_columns : option (list pystr)) (names : list pystr)
    (rows : list (list value)) :
  read_cstm content select_columns = Ok (names, rows) ->
  Forall (fun row => length row = length names) rows
  /\ match select_columns with
     | Some requested => names = requested
     | None => True
     end.
Proof.
  unfold read_cstm. intros E.
  bind_inv. destruct a as [f [[sig total] metas]].
  bind_inv. rename a into selected. rename E1 into S.
  bind_inv. rename a into res. rename E1 into R.
  apply read_columns_names in R. cbn [map app] in R.
  assert (Sel : match select_columns with
                | Some requested => map fst res = requested
                | None => True
                end).
  { destruct select_columns as [requested|]; [|exact I].
    apply select_loop_resolved in S. destruct S as [S _].
    cbn [map app] in S. congruence. }
  destruct res as [|r res]; cbn [length Nat.eqb] in E.
  - apply Ok_inj in E. apply pair_equal_spec in E. destruct E as [<- <-].
    split; [constructor|]. destruct select_columns; [exact Sel | exact I].
  - bind_inv. apply Ok_inj in E. apply pair_equal_spec in E.
    destruct E as [<- <-]. split; [|exact Sel].
    unfold build_rows. apply Forall_map. apply Forall_forall. intros i _.
    rewrite !length_map. reflexivity.
Qed.

Lemma read_columns_same_blocks (c1 c2 : bytes) (sel : list column_entry) :
  Forall (fun e => block_bytes c1 e = block_bytes c2 e) sel ->
  forall f1 f2 acc,
    f_content f1 = c1 -> f_content f2 = c2 ->
    read_columns sel f1 acc = read_columns sel f2 acc.
Proof.
  induction 1 as [|e sel B F IH]; intros f1 f2 acc C1 C2; [reflexivity|].
  cbn [read_columns]. cbv zeta.
  destruct ((col_comp_size e =? 0) && (col_uncomp_size e =? 0));
    [apply IH; assumption|].
  unfold read_exact, f_read, f_seek. cbn [f_content f_pos].
  rewrite C1, C2. unfold block_bytes in B. rewrite B.
  destruct (Z.of_nat _ =? col_comp_size e); [|reflexivity].
  cbn [bind].
  destruct (zlib_decompress _) as [unc|]; [|reflexivity].
  destruct (negb (len unc =? col_uncomp_size e)); [reflexivity|].
  destruct (_PARSERS (col_type e)) as [parser|]; [|reflexivity].
  destruct (parser unc (col_num_values e)) as [vals|]; [|reflexivity].
  cbn [bind]. apply IH; reflexivity.
Qed.

(** X25.  [read_cstm] looks at nothing but the prefix, the header and the
    blocks of the columns it was asked for: two files with the same column
    entries and the same bytes where the requested columns' blocks lie give
    the same outcome, result or exception, however they differ in the
    blocks of the other columns, in the schema signature or in the row
    count of the header. *)
Theorem read_cstm_selected_blocks_only (c1 c2 : bytes) (f1 f2 : file)
    (sig1 rows1 sig2 rows2 : Z) (metas : list column_entry)
    (select_columns : option (list pystr)) :
  read_prefix_and_header c1 = Ok (f1, (sig1, rows1, metas)) ->
  read_prefix_and_header c2 = Ok (f2, (sig2, rows2, metas)) ->
  (forall e, In e metas ->
     match select_columns with
     | Some requested => In (col_name e) requested
     | None => True
     end ->
     block_bytes c1 e = block_bytes c2 e) ->
  read_cstm c1 select_columns = read_cstm c2 select_columns.
Proof.
  intros H1 H2 B. unfold read_cstm. rewrite H1, H2.
  cbv beta iota delta [bind].
  match goal with
  | |- match ?s with _ => _ end = _ =>
    destruct s as [selected|e] eqn:S; [|reflexivity]
  end.
  rewrite (read_columns_same_blocks c1 c2 selected) with (f2 := f2);
    [reflexivity | | eapply read_prefix_and_header_content; exact H1
     | eapply read_prefix_and_header_content; exact H2].
  destruct select_columns as [requested|].
  - apply select_loop_resolved in S. destruct S as [_ S].
    apply S; [constructor|]. intros e I Hn. apply B; assumption.
  - apply Ok_inj in S. subst selected. apply Forall_forall. intros e I.
    apply B; [exact I | exact Logic.I].
Qed.

End ReaderBehaviour.

Section ReaderBehaviourExample.
#[local] Existing Instance concrete.stored_zlib.
#[local] Existing Instance concrete.same_type_builtins.
Import byte_utils header_utils column_serializers writer reader concrete.

(** The first line of a CSV file and a two-byte file, through X23. *)
Lemma read_cstm_rejects_foreign_files_example :
  read_cstm (map byte.of_Z [105; 100; 44; 97; 103; 101; 10]) None
  = Err (RuntimeError MsgBadMagic)
  /\ read_cstm [Byte.x43; Byte.x53] (Some [str "id"]) = Err (EOFError 4 2).
Proof.
  split.
  - apply (read_cstm_rejects_foreign_files
             (map byte.of_Z [105; 100; 44; 97; 103; 101; 10]) None).
    vm_compute. discriminate.
  - apply (read_cstm_rejects_foreign_files [Byte.x43; Byte.x53]
             (Some [str "id"])).
    vm_compute. discriminate.
Defined.

(** A selection that repeats a name, on the example file, through X24. *)
Lemma read_cstm_shape_example :
  exists names rows,
    read_cstm example_file (Some [str "name"; str "id"; str "name"])
    = Ok (names, rows)
    /\ Forall (fun row => length row = length names) rows
    /\ names = [str "name"; str "id"; str "name"].
Proof.
  eexists. eexists. split; [vm_compute; reflexivity|].
  apply (read_cstm_shape example_file
           (Some [str "name"; str "id"; str "name"])).
  vm_compute. reflexivity.
Defined.

(** The example file with the block of [age] (bytes 167 to 180) zeroed:
    reading [id] and [name] is not affected, through X25. *)
Lemma read_cstm_selected_blocks_only_example :
  read_cstm example_file (Some [str "id"; str "name"])
  = read_cstm (firstn 167 example_file ++ repeat Byte.x00 14
                      ++ skipn 181 example_file)
              (Some [str "id"; str "name"]).
Proof.
  apply (read_cstm_selected_blocks_only _ _ (File example_file 153)
           (File (firstn 167 example_file ++ repeat Byte.x00 14
                         ++ skipn 181 example_file) 153)
           0 3 0 3 example_header).
  - vm_compute. reflexivity.
  - vm_compute. reflexivity.
  - intros e [<-|[<-|[<-|[]]]] I.
    + vm_compute. reflexivity.
    + exfalso. destruct I as [I|[I|[]]]; discriminate I.
    + vm_compute. reflexivity.
Defined.

End ReaderBehaviourExample.

(** ** Reading a written file back, whole or cut short *)

Section WrittenFilesRead.
Context {zlib : Zlib} {builtins : PyBuiltins}.
Import byte_utils header_utils column_serializers writer reader.

Lemma Forall3_stored_types (content : bytes) (cols cols' : list (list value))
    (es : list column_entry) :
  Forall3 (fun col e col' =>
             readable content e col'
             /\ Forall2 (fun v v' => stored_value (col_type e) v = Ok v')
                        col col') cols es cols' ->
  Forall3 (fun t col col' =>
             Forall2 (fun v v' => stored_value t v = Ok v') col col')
          (map col_type es) cols cols'.
Proof.
  induction 1 as [|col e col' cols es cols' [_ V] F IH]; cbn [map];
    constructor; assumption.
Qed.

Lemma Forall3_lengths (types : list Z) (cols cols' : list (list value))
    (m : nat) :
  Forall3 (fun t col col' =>
             Forall2 (fun v v' => stored_value t v = Ok v') col col')
          types cols cols' ->
  Forall (fun col => length col = m) cols ->
  Forall (fun col' => length col' = m) cols'.
Proof.
  induction 1 as [|t col col' types cols cols' V F IH]; intros L;
    [constructor|].
  inversion L; subst. constructor; [|auto].
  symmetry. eapply Forall2_length. exact V.
Qed.

(** What a full read of a written file returns, cell by cell. *)
Lemma write_cstm_read_cstm (fs : option bytes) (names : list pystr)
    (types : list Z) (cols : list (list value)) (sig : Z) (content : bytes) :
  write_cstm fs names types cols sig = (Some content, Ok tt) ->
  exists cols',
    Forall3 (fun t col col' =>
               Forall2 (fun v v' => stored_value t v = Ok v') col col')
            types cols cols'
    /\ read_cstm content None = Ok (names, transpose cols').
Proof.
  intros W.
  destruct (write_cstm_ok _ _ _ _ _ _ W)
    as (total_rows & es & header & blocks & L1 & L2 & HF & B & R & C
        & Hn & Ht & S).
  destruct (read_prefix_and_header_written _ _ _ _ blocks B R) as [f H].
  rewrite <- C in H.
  destruct (stored_columns_readable _ _ _ S) as [cols' F3].
  pose proof (Forall3_stored_types _ _ _ _ F3) as T. rewrite Ht in T.
  exists cols'. split; [exact T|].
  pose proof (Forall3_lengths _ _ _ _ T (Forall_length_of_len _ _ HF)) as L.
  rewrite (read_cstm_selected content f _ _ es es None cols'
             (Z.to_nat total_rows) H eq_refl).
  - rewrite Hn. destruct es as [|e es]; inversion F3; subst; [reflexivity|].
    cbn [transpose]. unfold build_rows.
    inversion L as [|c0 cs0 Hc Hcs]; subst. rewrite Hc. reflexivity.
  - eapply Forall3_23; [|exact F3]. cbv beta. tauto.
  - exact L.
Qed.

(** X26.  Every file that [write_cstm] writes successfully is accepted by
    [read_cstm], whatever values the columns held: the full read returns the
    names and, row by row, what each cell was stored as: [int(v)] in an
    INT32 column, the 64 bits of [float(v)] in a FLOAT64 column, and in a
    STRING column the string itself, [''] for [None] and [str(v)] for
    anything else. *)
Theorem written_file_reads_back (fs : option bytes) (names : list pystr)
    (types : list Z) (cols : list (list value)) (sig : Z) (content : bytes) :
  write_cstm fs names types cols sig = (Some content, Ok tt) ->
  exists cols',
    Forall3 (fun t col col' =>
               Forall2 (fun v v' => stored_value t v = Ok v') col col')
            types cols cols'
    /\ read_cstm content None = Ok (names, transpose cols').
Proof. exact (write_cstm_read_cstm fs names types cols sig content). Qed.

Lemma read_exact_cut_ok (c d : bytes) (p k : nat) (n : Z) (f' : file) :
  read_exact (File c p) n = Ok (d, f') -> (p + length d <= k)%nat ->
  read_exact (File (firstn k c) p) n
  = Ok (d, File (firstn k c) (p + length d)).
Proof.
  unfold read_exact, f_read. cbn [f_content f_pos].
  destruct (Z.eqb_spec
              (Z.of_nat (length (firstn (Z.to_nat n) (skipn p c)))) n)
    as [L|]; [|discriminate].
  intros E K. apply Ok_inj in E. apply pair_equal_spec in E.
  destruct E as [<- _].
  assert (S : firstn (Z.to_nat n) (skipn p (firstn k c))
              = firstn (Z.to_nat n) (skipn p c)).
  { rewrite skipn_firstn_comm, firstn_firstn. f_equal.
    apply Nat.min_l. lia. }
  rewrite S.
  destruct (Z.eqb_spec
              (Z.of_nat (length (firstn (Z.to_nat n) (skipn p c)))) n);
    [reflexivity | contradiction].
Qed.

Lemma read_exact_cut_short (c : bytes) (p k : nat) (n : Z) :
  (p <= k < p + Z.to_nat n)%nat ->
  exists got,
    got < n /\ read_exact (File (firstn k c) p) n = Err (EOFError n got).
Proof.
  intros K. unfold read_exact, f_read. cbn [f_content f_pos].
  set (data := firstn (Z.to_nat n) (skipn p (firstn k c))).
  assert (L : (length data < Z.to_nat n)%nat).
  { subst data. rewrite length_firstn, length_skipn, length_firstn. lia. }
  exists (Z.of_nat (length data)). split; [lia|].
  destruct (Z.eqb_spec (Z.of_nat (length data)) n); [lia | reflexivity].
Qed.

(** The read at the head of the goal falls short on the cut file. *)
Ltac short_read content k :=
  match goal with
  | |- context [read_exact (File (firstn k content) ?p) ?n] =>
    let got := fresh "got" in
    let G := fresh "G" in
    let E := fresh "E" in
    destruct (read_exact_cut_short content p k n) as (got & G & E);
    [ unfold len; simpl; lia
    | rewrite E; exists n, got; split; [exact G | reflexivity] ]
  end.

(** The prefix and header of a written file cut after [k] bytes. *)
Lemma read_prefix_and_header_cut (sig rows : Z) (es : list column_entry)
    (header blocks : bytes) (k : nat) :
  build_header sig rows es = Ok header ->
  len header < 2 ^ 64 ->
  (k < 20 + length header)%nat ->
  exists n got,
    got < n
    /\ read_prefix_and_header
         (firstn k ((MAGIC ++ [byte.of_Z VERSION] ++ repeat Byte.x00 7
                           ++ le_split 8 (len header)) ++ header ++ blocks))
       = Err (EOFError n got).
Proof.
  intros B R K.
  set (content := (MAGIC ++ _) ++ _).
  assert (Ec : content
               = MAGIC ++ [byte.of_Z VERSION] ++ repeat Byte.x00 7
                       ++ le_split 8 (len header) ++ header ++ blocks).
  { subst content. rewrite <- !app_assoc. reflexivity. }
  unfold read_prefix_and_header.
  assert (L8 : len (le_split 8 (len header)) = 8).
  { unfold len. rewrite length_le_split. reflexivity. }
  assert (U : unpack_u64 (le_split 8 (len header)) = Ok (len header)).
  { apply unpack_pack_unsigned. apply pack_unsigned_in_range.
    pose proof (len_nonneg header). change (8 * Z.of_nat 8) with 64. lia. }
  destruct (Nat.lt_ge_cases k 4) as [K1|K1]; [short_read content k|].
  rewrite (read_exact_cut_ok content MAGIC 0 k 4 _
             (read_exact_at content [] MAGIC _ 0 4 Ec eq_refl eq_refl))
    by (simpl; lia).
  cbv beta iota delta [bind]. rewrite bytes_eqb_refl. cbn [negb].
  destruct (Nat.lt_ge_cases k 5) as [K2|K2]; [short_read content k|].
  rewrite (read_exact_cut_ok content [byte.of_Z VERSION]
             (0 + length MAGIC) k 1 _
             (read_exact_at content MAGIC [byte.of_Z VERSION] _ _ 1 Ec
                eq_refl eq_refl))
    by (simpl; lia).
  destruct (Nat.lt_ge_cases k 12) as [K3|K3]; [short_read content k|].
  rewrite (read_exact_cut_ok content (repeat Byte.x00 7)
             (0 + length MAGIC + length [byte.of_Z VERSION]) k 7 _
             (read_exact_at content (MAGIC ++ [byte.of_Z VERSION])
                (repeat Byte.x00 7) _ _ 7 Ec eq_refl eq_refl))
    by (simpl; lia).
  destruct (Nat.lt_ge_cases k 20) as [K4|K4]; [short_read content k|].
  rewrite (read_exact_cut_ok content (le_split 8 (len header))
             (0 + length MAGIC + length [byte.of_Z VERSION]
              + length (repeat Byte.x00 7)) k 8 _
             (read_exact_at content
                (MAGIC ++ [byte.of_Z VERSION] ++ repeat Byte.x00 7)
                (le_split 8 (len header)) _ _ 8 Ec eq_refl
                (eq_sym L8)))
    by (rewrite length_le_split; simpl; lia).
  rewrite U. rewrite length_le_split.
  short_read content k.
Qed.

(** The block loop on a file cut inside the blocks. *)
Lemma read_columns_cut (content : bytes) (k : nat)
    (es : list column_entry) (cols' : list (list value)) :
  Forall2 (readable content) es cols' ->
  forall start f acc,
    blocks_contiguous start es (len content) ->
    f_content f = firstn k content ->
    0 <= start <= Z.of_nat k -> Z.of_nat k < len content ->
    exists n got,
      got < n /\ read_columns es f acc = Err (EOFError n got).
Proof.
  induction 1 as [|e col' es cols' R F IH];
    intros start f acc Tile C S K.
  - cbn [blocks_contiguous] in Tile. lia.
  - cbn [blocks_contiguous] in Tile. destruct Tile as (Ho & Hc0 & Tile).
    destruct R as (unc & parser & (pre & post & Hc & Hp & Hcs & Hus) & Hpa
                   & Hv).
    cbn [read_columns]. cbv zeta.
    destruct ((col_comp_size e =? 0) && (col_uncomp_size e =? 0)) eqn:Z0.
    { apply andb_true_iff in Z0. destruct Z0 as [Z0 _].
      apply Z.eqb_eq in Z0.
      apply (IH (start + col_comp_size e)); [exact Tile | exact C | lia
                                             | exact K]. }
    unfold f_seek. rewrite C.
    assert (Pp : Z.to_nat (col_offset e) = length pre)
      by (rewrite Hp; unfold len; lia).
    rewrite Pp.
    destruct (Z_le_gt_dec (start + col_comp_size e) (Z.of_nat k)) as [In|Out].
    + rewrite (read_exact_cut_ok content (zlib_compress unc) (length pre) k
                 (col_comp_size e) _
                 (read_exact_at content pre (zlib_compress unc) post _ _
                    Hc eq_refl Hcs))
        by (unfold len in *; lia).
      cbv beta iota delta [bind].
      rewrite zlib_decompress_compress, Hus, Z.eqb_refl. cbn [negb].
      rewrite Hpa, Hv.
      apply (IH (start + col_comp_size e)); [exact Tile | reflexivity | lia
                                             | exact K].
    + destruct (read_exact_cut_short content (length pre) k
                  (col_comp_size e)) as (got & G & E).
      { unfold len in *. lia. }
      exists (col_comp_size e), got. rewrite E. auto.
Qed.

(** X27.  A written file that lost its end is never accepted by a full
    read: on every proper prefix of the bytes of a successfully written
    file, [read_cstm] raises [EOFError], with the number of bytes it asked
    for and the smaller number it got.  It returns no partial table. *)
Theorem truncated_file_rejected (fs : option bytes) (names : list pystr)
    (types : list Z) (cols : list (list value)) (sig : Z) (content : bytes)
    (k : nat) :
  write_cstm fs names types cols sig = (Some content, Ok tt) ->
  (k < length content)%nat ->
  exists n got,
    got < n /\ read_cstm (firstn k content) None = Err (EOFError n got).
Proof.
  intros W K.
  destruct (write_cstm_layout _ _ _ _ _ _ W)
    as (es & h1 & blocks & B & R & C & Tile & _ & _ & _ & _ & S).
  unfold read_cstm.
  destruct (Nat.lt_ge_cases k (20 + length h1)) as [Kh|Kh].
  - destruct (read_prefix_and_header_cut _ _ _ _ blocks k B R Kh)
      as (n & got & G & E).
    rewrite <- C in E. exists n, got. rewrite E. auto.
  - set (P := MAGIC ++ [byte.of_Z VERSION] ++ repeat Byte.x00 7
                    ++ le_split 8 (len h1)) in *.
    assert (LP : length P = 20%nat).
    { subst P. rewrite !length_app, length_le_split. reflexivity. }
    assert (Cut : firstn k content
                  = P ++ h1 ++ firstn (k - 20 - length h1) blocks).
    { rewrite C. rewrite firstn_app, LP.
      rewrite (firstn_all2 P) by lia.
      rewrite firstn_app.
      rewrite (firstn_all2 h1) by lia.
      reflexivity. }
    pose proof (read_prefix_and_header_written_at _ _ _ _
                  (firstn (k - 20 - length h1) blocks) B R) as H.
    fold P in H. rewrite <- Cut in H. rewrite H.
    cbv beta iota delta [bind].
    destruct (stored_columns_readable _ _ _ S) as [cols' F3].
    destruct (read_columns_cut content k es cols'
                (Forall3_23 _ (readable content) _ _ _
                   (fun _ _ _ H0 => proj1 H0) F3)
                (20 + len h1) (File (firstn k content) (20 + length h1)) []
                Tile eq_refl) as (n & got & G & E).
    { unfold len. lia. }
    { unfold len. lia. }
    exists n, got. rewrite E. auto.
Qed.

End WrittenFilesRead.

Section WrittenFilesReadExample.
#[local] Existing Instance concrete.stored_zlib.
#[local] Existing Instance concrete.same_type_builtins.
Import byte_utils header_utils column_serializers writer reader concrete.

(** A STRING column holding a [None], through X26. *)
Lemma written_file_reads_back_example :
  exists content cols',
    write_cstm None [str "n"; str "s"] [0; 2]
               [[VInt 1; VInt 2]; [VNone; VStr (str "x")]] 0
    = (Some content, Ok tt)
    /\ Forall3 (fun t col col' =>
                  Forall2 (fun v v' => stored_value t v = Ok v') col col')
               [0; 2] [[VInt 1; VInt 2]; [VNone; VStr (str "x")]] cols'
    /\ read_cstm content None = Ok ([str "n"; str "s"], transpose cols').
Proof.
  eexists.
  assert (W : write_cstm None [str "n"; str "s"] [0; 2]
                         [[VInt 1; VInt 2]; [VNone; VStr (str "x")]] 0
              = (Some _, Ok tt)) by (vm_compute; reflexivity).
  destruct (written_file_reads_back _ _ _ _ _ _ W) as (cols' & T & R).
  exists cols'. split; [exact W|]. split; [exact T | exact R].
Defined.

(** The example file cut after 200 of its 214 bytes, through X27. *)
Lemma truncated_file_rejected_example :
  exists n got,
    got < n /\ read_cstm (firstn 200 example_file) None
               = Err (EOFError n got).
Proof.
  apply (truncated_file_rejected None example_names example_types
           example_columns 0 example_file 200).
  - vm_compute. reflexivity.
  - apply Nat.ltb_lt. vm_compute. reflexivity.
Defined.

End WrittenFilesReadExample.

(** ** custom_columnar: from CSV records to a file *)

Section CommandLine.
Context {zlib : Zlib} {builtins : PyBuiltins}.
Import byte_utils header_utils column_serializers writer reader.
Import custom_columnar.

Lemma check_rows_first (ok : list (list pystr)) (r : list pystr)
    (rest : list (list pystr)) (ncols : Z) :
  Forall (fun row => len row = ncols) ok -> len r <> ncols ->
  check_rows (ok ++ r :: rest) ncols = Some (len r, ncols).
Proof.
  intros F N. induction F as [|row ok H F IH]; cbn [app check_rows].
  - destruct (Z.eqb_spec (len r) ncols); [contradiction | reflexivity].
  - rewrite H, Z.eqb_refl. exact IH.
Qed.

Lemma check_rows_all (rows : list (list pystr)) (ncols : Z) :
  check_rows rows ncols = None <-> Forall (fun row => len row = ncols) rows.
Proof.
  induction rows as [|r rows IH]; cbn [check_rows].
  - split; [constructor | reflexivity].
  - destruct (Z.eqb_spec (len r) ncols) as [E|E]; cbn [negb].
    + rewrite IH. split; [constructor; assumption|].
      intros F. inversion F; assumption.
    + split; [discriminate|]. intros F. inversion F; contradiction.
Qed.

(** X28.  A CSV with a header and a row that has another number of cells
    is refused with the [ValueError] that gives the length of the first such
    row and of the header, before anything is inferred or written: the
    output path is left as it was. *)
Theorem csv_to_custom_cli_ragged (header : list pystr)
    (ok : list (list pystr)) (r : list pystr) (rest : list (list pystr))
    (fs : option bytes) :
  header <> [] ->
  Forall (fun row => length row = length header) ok ->
  length r <> length header ->
  csv_to_custom_cli (header :: ok ++ r :: rest) fs
  = (fs, CsvRowLength (len r) (len header)).
Proof.
  intros H F N. unfold csv_to_custom_cli.
  assert (L1 : Nat.eqb (length header) 0 = false).
  { apply Nat.eqb_neq. destruct header; [contradiction | discriminate]. }
  assert (L2 : Nat.eqb (length (ok ++ r :: rest)) 0 = false).
  { apply Nat.eqb_neq. rewrite length_app. simpl. lia. }
  rewrite L1, L2. cbn [negb andb]. cbv zeta.
  rewrite check_rows_first; [reflexivity | | unfold len; lia].
  eapply Forall_impl; [|exact F]. cbv beta. intros row E. unfold len.
  rewrite E. reflexivity.
Qed.

(** What the command wrote when it returned. *)
Lemma csv_to_custom_cli_done (header : list pystr)
    (rows : list (list pystr)) (fs fs' : option bytes) :
  header <> [] ->
  csv_to_custom_cli (header :: rows) fs = (fs', Done) ->
  Forall (fun row => length row = length header) rows
  /\ write_cstm fs header
       (map infer_type_for_col (columns_of rows (length header)))
       (map (map VStr) (columns_of rows (length header))) 0
     = (fs', Ok tt).
Proof.
  intros H. unfold csv_to_custom_cli.
  assert (L1 : Nat.eqb (length header) 0 = false).
  { apply Nat.eqb_neq. destruct header; [contradiction | discriminate]. }
  rewrite L1. cbn [negb andb]. cbv zeta.
  assert (Fin : forall columns,
             match
               write_cstm fs header (map infer_type_for_col columns)
                          (map (map VStr) columns) 0
             with
             | (fs0, Ok _) => (fs0, Done)
             | (fs0, Err e) => (fs0, Raised e)
             end = (fs', Done) ->
             write_cstm fs header (map infer_type_for_col columns)
                        (map (map VStr) columns) 0 = (fs', Ok tt)).
  { intros columns. destruct (write_cstm _ _ _ _ _) as [fs0 [[]|e]];
      intros E; apply pair_equal_spec in E; destruct E as [-> E];
      [reflexivity | discriminate E]. }
  destruct rows as [|r rows]; cbn [length Nat.eqb negb].
  - intros E. split; [constructor|]. apply Fin.
    unfold columns_of. cbn [map].
    rewrite map_const in E. rewrite map_const, length_seq. exact E.
  - destruct (check_rows (r :: rows) (len header)) as [[got n]|] eqn:C.
    + intros E. apply pair_equal_spec in E. destruct E as [_ E].
      discriminate E.
    + intros E. apply check_rows_all in C. split; [|apply Fin; exact E].
      eapply Forall_impl; [|exact C]. cbv beta. unfold len. intros row.
      lia.
Qed.

Lemma nth_seq_self {A : Type} (d : A) (l : list A) :
  map (fun j => nth j l d) (seq 0 (length l)) = l.
Proof.
  induction l as [|x l IH]; [reflexivity|].
  cbn [length seq map nth]. f_equal.
  rewrite <- seq_shift, map_map. exact IH.
Qed.

(** The first row of a table of non-empty columns, and the rest. *)
Lemma transpose_cons (cols' : list (list value)) (m : nat) :
  cols' <> [] -> Forall (fun c => length c = S m) cols' ->
  transpose cols'
  = map (fun c => nth 0 c VNone) cols' :: transpose (map (@tl value) cols').
Proof.
  intros N F. destruct cols' as [|c0 cs]; [contradiction|].
  inversion F as [|x l H0 Hs]; subst.
  destruct c0 as [|v c0]; [discriminate|].
  cbn [transpose map tl length seq]. f_equal.
  rewrite <- seq_shift, map_map. apply map_ext. intros i.
  cbn [map nth tl]. f_equal. rewrite map_map. apply map_ext.
  intros c. destruct c; [destruct i|]; reflexivity.
Qed.

Lemma columns_uncons (types0 : list Z) (r : list pystr)
    (rs : list (list pystr)) (js : list nat) :
  forall types cols',
    Forall3 (fun t col col' =>
               Forall2 (fun v v' => stored_value t v = Ok v') col col')
            types
            (map (fun j => map VStr (map (fun row => nth j row []) (r :: rs)))
                 js)
            cols' ->
    Forall3 (fun t cell cell' => stored_value t (VStr cell) = Ok cell')
            types (map (fun j => nth j r []) js)
            (map (fun c => nth 0 c VNone) cols')
    /\ Forall3 (fun t col col' =>
                  Forall2 (fun v v' => stored_value t v = Ok v') col col')
               types
               (map (fun j => map VStr (map (fun row => nth j row []) rs)) js)
               (map (@tl value) cols')
    /\ Forall (fun c => length c = S (length rs)) cols'.
Proof.
  induction js as [|j js IH]; intros types cols' F; cbn [map] in F |- *.
  - inversion F; subst. cbn [map]. repeat constructor.
  - inversion F as [|t col col' ts cs cs' V F']; subst.
    destruct (IH _ _ F') as (A & B & C).
    inversion V as [|v v' l l' Hv Vt]; subst.
    cbn [map nth tl]. split; [constructor; assumption|].
    split; [constructor; assumption|].
    constructor; [|exact C].
    cbn [length]. f_equal. apply Forall2_length in Vt.
    rewrite <- Vt, !length_map. reflexivity.
Qed.

(** The rows of the transposed columns are the rows the columns were made
    of, cell by cell. *)
Lemma rows_of_columns (n : nat) (types : list Z) :
  (0 < n)%nat ->
  forall rows cols',
    Forall (fun row => length row = n) rows ->
    Forall3 (fun t col col' =>
               Forall2 (fun v v' => stored_value t v = Ok v') col col')
            types
            (map (fun j => map VStr (map (fun row => nth j row []) rows))
                 (seq 0 n))
            cols' ->
    Forall2 (fun row row' =>
               Forall3 (fun t cell cell' =>
                          stored_value t (VStr cell) = Ok cell')
                       types row row')
            rows (transpose cols').
Proof.
  intros N. induction rows as [|r rows IH]; intros cols' L F.
  - destruct n as [|n]; [lia|]. cbn [seq map] in F.
    inversion F as [|t col col' ts cs cs' V F']; subst.
    inversion V; subst. cbn [transpose length seq map]. constructor.
  - destruct (columns_uncons types r rows (seq 0 n) _ _ F) as (A & B & C).
    inversion L as [|x l Hr Hrs]; subst.
    assert (Ne : cols' <> []).
    { destruct (length r) eqn:E; [lia|]. cbn [seq map] in F.
      inversion F; subst. discriminate. }
    rewrite (transpose_cons cols' (length rows) Ne C).
    constructor; [|apply IH; assumption].
    rewrite nth_seq_self in A. exact A.
Qed.

(** X29.  When the command returns on a CSV with a non-empty header, the
    file it wrote reads back as the header and one row per CSV row, each
    cell being what its column type, inferred from the column, stores of
    the text of the cell. *)
Theorem csv_to_custom_cli_roundtrip (header : list pystr)
    (rows : list (list pystr)) (fs : option bytes) (content : bytes) :
  header <> [] ->
  csv_to_custom_cli (header :: rows) fs = (Some content, Done) ->
  exists rows',
    read_cstm content None = Ok (header, rows')
    /\ Forall2 (fun row row' =>
                  Forall3 (fun t cell cell' =>
                             stored_value t (VStr cell) = Ok cell')
                          (map infer_type_for_col
                               (columns_of rows (length header)))
                          row row')
               rows rows'.
Proof.
  intros H E.
  destruct (csv_to_custom_cli_done _ _ _ _ H E) as [L W].
  destruct (write_cstm_read_cstm _ _ _ _ _ _ W) as (cols' & T & R).
  exists (transpose cols'). split; [exact R|].
  apply (rows_of_columns (length header)).
  - destruct header; [contradiction | simpl; lia].
  - exact L.
  - unfold columns_of in T at 2. rewrite map_map in T. exact T.
Qed.

Lemma serialize_int32_loop_in_range (vals : list value) :
  forall buf b,
    serialize_int32_loop vals buf = Ok b ->
    Forall (fun v => exists z, py_int v = Ok z /\ - 2 ^ 31 <= z < 2 ^ 31)
           vals.
Proof.
  induction vals as [|v vals IH]; intros buf b E; [constructor|].
  cbn [serialize_int32_loop] in E.
  assert (E' : (iv <- py_int v ;;
                if (iv <? I32_MIN) || (iv >? I32_MAX)
                then Err (ValueError (MsgInt32Range iv))
                else c <- pack_i32 iv ;;
                     serialize_int32_loop vals (buf ++ c)) = Ok b)
    by (destruct v; [discriminate | exact E ..]).
  clear E. bind_inv. rename a into iv.
  unfold I32_MIN, I32_MAX in E'.
  destruct (Z.ltb_spec iv (- 2 ^ 31)); [discriminate|].
  destruct (Z.gtb_spec iv (2 ^ 31 - 1)); [discriminate|].
  cbn [orb] in E'. bind_inv.
  constructor; [|eapply IH; exact E'].
  exists iv. split; [exact E | lia].
Qed.

Lemma write_cstm_ok_some (fs fs' : option bytes) (names : list pystr)
    (types : list Z) (cols : list (list value)) (sig : Z) :
  write_cstm fs names types cols sig = (fs', Ok tt) ->
  exists content, fs' = Some content.
Proof.
  unfold write_cstm. cbv zeta. intros W.
  repeat match type of W with
  | (if ?c then _ else _) = _ => destruct c
  | (let '(_, _) := ?x in _) = _ => destruct x
  | match ?x with _ => _ end = _ => destruct x
  end;
  apply pair_equal_spec in W; destruct W as [W1 W2];
  first [discriminate W2 | eexists; symmetry; exact W1].
Qed.

Lemma Forall2_nth_error_left {A B : Type} (R : A -> B -> Prop)
    (l : list A) (l' : list B) :
  Forall2 R l l' ->
  forall i x, nth_error l i = Some x ->
    exists y, nth_error l' i = Some y /\ R x y.
Proof.
  induction 1 as [|x y l l' H F IH]; intros [|i] x' E; try discriminate.
  - inv E. exists y. auto.
  - simpl in E. apply IH in E. exact E.
Qed.

(** X30.  The type of a column is inferred from what [int()] accepts, not
    from the 32-bit range.  A CSV with a column whose cells all read as
    integers, one of them outside the signed 32-bit range, cannot be
    converted: the column is typed INT32 and the command ends with an
    exception; FLOAT64 and STRING are not tried. *)
Theorem csv_to_custom_cli_int32_overflow (header : list pystr)
    (rows : list (list pystr)) (fs : option bytes) (j : nat) (cell : pystr)
    (z : Z) :
  header <> [] ->
  Forall (fun row => length row = length header) rows ->
  (j < length header)%nat ->
  In cell (map (fun row => nth j row []) rows) ->
  all_convert py_int (map (fun row => nth j row []) rows) = true ->
  py_int (VStr cell) = Ok z ->
  ~ - 2 ^ 31 <= z < 2 ^ 31 ->
  exists fs' e, csv_to_custom_cli (header :: rows) fs = (fs', Raised e).
Proof.
  intros H L J I A P Out.
  destruct (csv_to_custom_cli (header :: rows) fs) as [fs' [| got n | e]]
    eqn:E.
  - exfalso.
    destruct (csv_to_custom_cli_done _ _ _ _ H E) as [_ W].
    destruct (write_cstm_ok_some _ _ _ _ _ _ W) as [content ->].
    destruct (write_cstm_ok _ _ _ _ _ _ W)
      as (total_rows & es & h & blocks & _ & _ & _ & _ & _ & _ & _ & Ht & S).
    set (col := map (fun row => nth j row []) rows) in *.
    assert (Nc : nth_error (columns_of rows (length header)) j = Some col).
    { unfold columns_of. rewrite nth_error_map.
      rewrite (nth_error_nth' _ 0%nat) by (rewrite length_seq; exact J).
      rewrite seq_nth by exact J. reflexivity. }
    assert (Nv : nth_error (map (map VStr)
                              (columns_of rows (length header))) j
                 = Some (map VStr col)).
    { rewrite nth_error_map, Nc. reflexivity. }
    destruct (Forall2_nth_error_left _ _ _ S j _ Nv)
      as (e & Ne & _ & ser & unc & Hs & Hu & _).
    assert (T : col_type e = 0).
    { assert (Nt : nth_error (map col_type es) j = Some (col_type e))
        by (rewrite nth_error_map, Ne; reflexivity).
      rewrite Ht, nth_error_map, Nc in Nt. cbn [option_map] in Nt.
      assert (infer_type_for_col col = col_type e) as <- by congruence.
      unfold infer_type_for_col. rewrite A.
      match goal with
      | |- (if ?c then _ else _) = _ => destruct c eqn:Z0; [|reflexivity]
      end.
      apply Z.eqb_eq in Z0. destruct col; [contradiction | discriminate Z0]. }
    unfold _SERIALIZERS in Hs. rewrite T in Hs. cbn [Z.eqb] in Hs.
    assert (ser = serialize_int32_column) as -> by congruence.
    apply serialize_int32_loop_in_range in Hu.
    rewrite Forall_forall in Hu.
    destruct (Hu (VStr cell) (in_map VStr _ _ I)) as (z' & P' & R).
    apply Out. congruence.
  - exfalso. unfold csv_to_custom_cli in E.
    assert (C : check_rows rows (len header) = None).
    { apply check_rows_all. eapply Forall_impl; [|exact L]. cbv beta.
      intros row Hr. unfold len. rewrite Hr. reflexivity. }
    rewrite C in E.
    destruct (negb (Nat.eqb (length header) 0)
              && negb (Nat.eqb (length rows) 0));
      cbv zeta in E;
      destruct (write_cstm _ _ _ _ _) as [fs0 [u|e0]];
      apply pair_equal_spec in E; destruct E as [_ E]; discriminate E.
  - exists fs', e. reflexivity.
Qed.

End CommandLine.

Section CommandLineExample.
#[local] Existing Instance concrete.stored_zlib.
#[local] Existing Instance concrete.same_type_builtins.
Import byte_utils header_utils column_serializers writer reader concrete.
Import custom_columnar.

(** A CSV whose second data row has one cell for two columns, through
    X28. *)
Lemma csv_to_custom_cli_ragged_example :
  csv_to_custom_cli [[str "a"; str "b"]; [str "1"; str "2"]; [str "3"];
                     [str "4"; str "5"]] None
  = (None, CsvRowLength 1 2).
Proof.
  apply (csv_to_custom_cli_ragged [str "a"; str "b"] [[str "1"; str "2"]]
           [str "3"] [[str "4"; str "5"]] None).
  - discriminate.
  - repeat constructor.
  - simpl. lia.
Defined.

(** A CSV of two columns and two rows, through X29. *)
Lemma csv_to_custom_cli_roundtrip_example :
  exists content rows',
    csv_to_custom_cli [[str "id"; str "name"]; [str "x1"; str "Alice"];
                       [str "x2"; str "Bob"]] None
    = (Some content, Done)
    /\ read_cstm content None = Ok ([str "id"; str "name"], rows')
    /\ Forall2 (fun row row' =>
                  Forall3 (fun t cell cell' =>
                             stored_value t (VStr cell) = Ok cell')
                          (map infer_type_for_col
                               (columns_of [[str "x1"; str "Alice"];
                                            [str "x2"; str "Bob"]] 2))
                          row row')
               [[str "x1"; str "Alice"]; [str "x2"; str "Bob"]] rows'.
Proof.
  eexists.
  assert (W : csv_to_custom_cli [[str "id"; str "name"];
                                 [str "x1"; str "Alice"];
                                 [str "x2"; str "Bob"]] None
              = (Some _, Done)) by (vm_compute; reflexivity).
  assert (N : [str "id"; str "name"] <> []) by discriminate.
  destruct (csv_to_custom_cli_roundtrip _ _ _ _ N W) as (rows' & R & F).
  exists rows'. split; [exact W|]. split; [exact R | exact F].
Defined.

End CommandLineExample.

Section CommandLineNumbersExample.
#[local] Existing Instance concrete.stored_zlib.
#[local] Existing Instance decimal.decimal_builtins.
Import byte_utils header_utils column_serializers writer reader concrete.
Import custom_columnar.

(** A column holding 7 and 4294967296, through X30. *)
Lemma csv_to_custom_cli_int32_overflow_example :
  exists fs' e,
    csv_to_custom_cli [[str "n"]; [str "7"]; [str "4294967296"]] None
    = (fs', Raised e).
Proof.
  apply (csv_to_custom_cli_int32_overflow [str "n"]
           [[str "7"]; [str "4294967296"]] None 0 (str "4294967296")
           4294967296).
  - discriminate.
  - repeat constructor.
  - simpl. lia.
  - simpl. right. left. reflexivity.
  - vm_compute. reflexivity.
  - vm_compute. reflexivity.
  - lia.
Defined.

End CommandLineNumbersExample.

